(** * support-oss: sustainability scoring, allocation and funding summaries

    A shallow embedding of [packages/shared/src/scoring.ts] and
    [packages/shared/src/funding.ts], and the properties their
    specification states about them.

    Numbers.  The TypeScript code computes on [number].  The data model
    of the specification speaks of integers and decimals, so a number is
    modelled here as an exact rational ([Q]); [null] and [undefined] are
    the [None] of an [option].  The infinite and not-a-number values of
    IEEE-754 and the rounding error of its arithmetic are outside this
    model: where the code compares a computed number with a threshold, or
    rounds it, a value that lies on the threshold or on a half here may
    lie by the last bit on either side of it in the program.  The
    theorems on the gain of a balance and on the importance penalty are
    stated so that they do not turn on such a tie.  [Math.log10] and the
    conversions of numbers to text are taken as parameters of the scoring
    section: their precise values are left to the platform.

    The last module embeds the handler of [POST /api/analyze]
    ([web/src/app/api/analyze/route.ts]), which calls the three: the
    parsed body, the answer of the database and the current time are its
    inputs. *)

From Stdlib Require Import QArith Qround Qabs ZArith List String Bool Lia Lqa.
From Stdlib Require Import Permutation Sorted DecimalString.
Import ListNotations.

Local Open Scope Q_scope.

(** ** JavaScript numbers and truthiness *)

Module JS.

(** [a < b] on numbers, as a boolean. *)
Definition ltb (a b : Q) : bool := negb (Qle_bool b a).

(** [Math.min(a, b)] and [Math.max(a, b)]. *)
Definition min (a b : Q) : Q := if Qle_bool a b then a else b.
Definition max (a b : Q) : Q := if Qle_bool a b then b else a.

(** [Math.round(x)]: the nearest integer, halves rounded up. *)
Definition round (x : Q) : Q := inject_Z (Qfloor (x + (1 # 2))).

(** [Math.floor(x)]. *)
Definition floor (x : Q) : Q := inject_Z (Qfloor x).

(** Truthiness of an optional number: [null], [undefined] and [0] are
    falsy. *)
Definition truthy_num (x : option Q) : bool :=
  match x with
  | None => false
  | Some q => negb (Qeq_bool q 0)
  end.

(** Truthiness of an optional string: [null], [undefined] and the empty
    string are falsy. *)
Definition truthy_str (s : option string) : bool :=
  match s with
  | None => false
  | Some EmptyString => false
  | Some (String _ _) => true
  end.

(** Truthiness of an optional boolean. *)
Definition truthy_bool (b : option bool) : bool :=
  match b with
  | Some true => true
  | _ => false
  end.

(** [x ?? d]. *)
Definition nullish {A : Type} (x : option A) (d : A) : A :=
  match x with
  | Some v => v
  | None => d
  end.

Lemma ltb_lt a b : ltb a b = true <-> a < b.
Proof.
  unfold ltb. rewrite negb_true_iff.
  split; intro H.
  - apply Qnot_le_lt. intro Hle. apply Qle_bool_iff in Hle. congruence.
  - destruct (Qle_bool b a) eqn:E; [|reflexivity].
    apply Qle_bool_iff in E. exfalso. apply (Qlt_not_le _ _ H E).
Qed.

Lemma ltb_ge a b : ltb a b = false <-> b <= a.
Proof.
  unfold ltb. rewrite negb_false_iff. apply Qle_bool_iff.
Qed.

Lemma min_le_l a b : min a b <= a.
Proof.
  unfold min. destruct (Qle_bool a b) eqn:E.
  - apply Qle_refl.
  - apply Qlt_le_weak, ltb_lt. unfold ltb. now rewrite E.
Qed.

Lemma min_le_r a b : min a b <= b.
Proof.
  unfold min. destruct (Qle_bool a b) eqn:E.
  - now apply Qle_bool_iff.
  - apply Qle_refl.
Qed.

Lemma min_glb a b c : c <= a -> c <= b -> c <= min a b.
Proof. unfold min. now destruct (Qle_bool a b). Qed.

Lemma max_le_l a b : a <= max a b.
Proof.
  unfold max. destruct (Qle_bool a b) eqn:E.
  - now apply Qle_bool_iff.
  - apply Qle_refl.
Qed.

Lemma max_lub a b c : a <= c -> b <= c -> max a b <= c.
Proof. unfold max. now destruct (Qle_bool a b). Qed.

(** [Math.min(1, x)] is monotone in [x]. *)
Lemma min_mono_r c a b : a <= b -> min c a <= min c b.
Proof.
  intro H. apply min_glb.
  - apply min_le_l.
  - eapply Qle_trans; [apply min_le_r | exact H].
Qed.

Lemma max_mono_r c a b : a <= b -> max c a <= max c b.
Proof.
  intro H. apply max_lub.
  - apply max_le_l.
  - unfold max. destruct (Qle_bool c b) eqn:E; [exact H|].
    apply Qlt_le_weak. eapply Qle_lt_trans; [exact H|].
    apply ltb_lt. unfold ltb. now rewrite E.
Qed.

Lemma round_mono a b : a <= b -> round a <= round b.
Proof.
  intro H. unfold round. rewrite <- Zle_Qle.
  apply Qfloor_resp_le. lra.
Qed.

(** Rounding is exact on integers and stays within a half elsewhere. *)
Lemma round_bounds x : round x <= x + (1 # 2) /\ x - (1 # 2) < round x.
Proof.
  unfold round.
  pose proof (Qfloor_le (x + (1 # 2))) as Hle.
  pose proof (Qlt_floor (x + (1 # 2))) as Hlt.
  rewrite inject_Z_plus in Hlt. change (inject_Z 1) with 1 in Hlt.
  set (f := inject_Z (Qfloor (x + (1 # 2)))) in *. clearbody f.
  split; lra.
Qed.

Lemma round_inject (z : Z) : round (inject_Z z) = inject_Z z.
Proof.
  destruct (round_bounds (inject_Z z)) as [Hle Hlt].
  unfold round in *. f_equal.
  set (f := Qfloor (inject_Z z + (1 # 2))) in *. clearbody f.
  assert (Hlo : (z <= f)%Z).
  { apply Z.lt_succ_r. rewrite Zlt_Qlt. unfold Z.succ.
    rewrite inject_Z_plus. change (inject_Z 1) with 1.
    set (a := inject_Z z) in *. set (b := inject_Z f) in *.
    clearbody a b. lra. }
  assert (Hhi : (f < z + 1)%Z).
  { rewrite Zlt_Qlt. rewrite inject_Z_plus. change (inject_Z 1) with 1.
    set (a := inject_Z z) in *. set (b := inject_Z f) in *.
    clearbody a b. lra. }
  lia.
Qed.

End JS.

(** ** Funding helpers ([funding.ts]) *)

Module Funding.

Local Open Scope string_scope.

Record TopSponsor := mkTopSponsor {
  name : string;
  imageUrl : option string;
  profileUrl : string
}.

Inductive Platform := opencollective | github.

Record FundingSummary := mkFundingSummary {
  platform : Platform;
  summaryUrl : string;
  balanceRange : option string;
  monthlyIncomeRange : option string;
  sponsorCount : Q;
  goalProgress : option Q;
  topSponsors : list TopSponsor
}.

(** The upper edge of a range: a number or [Infinity]. *)
Inductive Bound := Fin (q : Q) | Infinity.

Record Range := mkRange {
  rmin : Q;
  rmax : Bound;
  label : string
}.

Definition ranges : list Range :=
  [ mkRange 0 (Fin 100) "<$100";
    mkRange 100 (Fin 500) "$100-500";
    mkRange 500 (Fin 1000) "$500-1K";
    mkRange 1000 (Fin 5000) "$1K-5K";
    mkRange 5000 (Fin 10000) "$5K-10K";
    mkRange 10000 (Fin 25000) "$10K-25K";
    mkRange 25000 (Fin 50000) "$25K-50K";
    mkRange 50000 (Fin 100000) "$50K-100K";
    mkRange 100000 (Fin 250000) "$100K-250K";
    mkRange 250000 (Fin 500000) "$250K-500K";
    mkRange 500000 (Fin 1000000) "$500K-1M";
    mkRange 1000000 Infinity ">$1M" ].

(** [amount < max], where [max] may be [Infinity]. *)
Definition below (amount : Q) (b : Bound) : bool :=
  match b with
  | Fin m => JS.ltb amount m
  | Infinity => true
  end.

(** [amount >= range.min && amount < range.max]. *)
Definition inRangeb (amount : Q) (r : Range) : bool :=
  Qle_bool (rmin r) amount && below amount (rmax r).

(** The [for ... of ranges] loop: the label of the first range that
    holds the amount. *)
Fixpoint findRange (amount : Q) (rs : list Range) : option string :=
  match rs with
  | [] => None
  | r :: rs' =>
      if inRangeb amount r then Some (label r) else findRange amount rs'
  end.

Definition formatAmountRange (amount : option Q) : option string :=
  match amount with
  | None => None
  | Some a =>
      if Qle_bool a 0 then None
      else match findRange a ranges with
           | Some l => Some l
           | None => Some ">$1M"
           end
  end.

Definition formatMonthlyRange (yearlyAmount : option Q) : option string :=
  match yearlyAmount with
  | None => None
  | Some y =>
      if Qle_bool y 0 then None
      else
        let monthly := y / 12 in
        let range := formatAmountRange (Some monthly) in
        if JS.truthy_str range
        then Some (JS.nullish range EmptyString ++ "/mo")
        else None
  end.

(** A sponsor as the GitHub crawler stores it: the image is under
    [avatarUrl], [imageUrl] or neither. *)
Record RawSponsor := mkRawSponsor {
  rawName : string;
  avatarUrl : option string;
  rawImageUrl : option string;
  rawProfileUrl : string
}.

Record PackageWithFunding := mkPackageWithFunding {
  ocSlug : option string;
  ocBalance : option Q;
  ocYearlyIncome : option Q;
  ocBackersCount : option Q;
  ocGoalAmount : option Q;
  ocGoalProgress : option Q;
  ocTopSponsors : option (list TopSponsor);
  ghHasSponsorsListing : option bool;
  ghSponsorsCount : option Q;
  ghTopSponsors : option (list RawSponsor);
  repositoryOwner : option string
}.

(** [n || 0] on an optional number. *)
Definition orZero (n : option Q) : Q :=
  if JS.truthy_num n then JS.nullish n 0%Q else 0%Q.

(** [s.avatarUrl ?? s.imageUrl ?? null]. *)
Definition normalizeSponsor (s : RawSponsor) : TopSponsor :=
  {| name := rawName s;
     imageUrl := match avatarUrl s with
                 | Some u => Some u
                 | None => rawImageUrl s
                 end;
     profileUrl := rawProfileUrl s |}.

Definition buildFundingSummary (pkg : PackageWithFunding)
  : option FundingSummary :=
  if JS.truthy_str (ocSlug pkg) then
    Some {| platform := opencollective;
            summaryUrl := "https://opencollective.com/"
                          ++ JS.nullish (ocSlug pkg) EmptyString;
            balanceRange := formatAmountRange (ocBalance pkg);
            monthlyIncomeRange := formatMonthlyRange (ocYearlyIncome pkg);
            sponsorCount := orZero (ocBackersCount pkg);
            goalProgress := ocGoalProgress pkg;
            topSponsors := JS.nullish (ocTopSponsors pkg) [] |}
  else if JS.truthy_bool (ghHasSponsorsListing pkg)
          && JS.truthy_str (repositoryOwner pkg) then
    let ghSponsors := JS.nullish (ghTopSponsors pkg) [] in
    let normalizedSponsors := map normalizeSponsor ghSponsors in
    Some {| platform := github;
            summaryUrl := "https://github.com/sponsors/"
                          ++ JS.nullish (repositoryOwner pkg) EmptyString;
            balanceRange := None;
            monthlyIncomeRange := None;
            sponsorCount := orZero (ghSponsorsCount pkg);
            goalProgress := None;
            topSponsors := normalizedSponsors |}
  else None.

Definition hasFundingData (pkg : PackageWithFunding) : bool :=
  JS.truthy_str (ocSlug pkg)
  || (JS.truthy_bool (ghHasSponsorsListing pkg)
      && JS.truthy_str (repositoryOwner pkg)).

(** The amount lies in the half-open range: lower edge included, upper
    edge excluded. *)
Definition inRange (amount : Q) (r : Range) : Prop :=
  (rmin r <= amount)%Q /\
  match rmax r with
  | Fin m => (amount < m)%Q
  | Infinity => True
  end.

(** Two packages that carry the same OpenCollective fields. *)
Definition sameOcFields (p q : PackageWithFunding) : Prop :=
  ocSlug p = ocSlug q /\ ocBalance p = ocBalance q /\
  ocYearlyIncome p = ocYearlyIncome q /\
  ocBackersCount p = ocBackersCount q /\
  ocGoalProgress p = ocGoalProgress q /\
  ocTopSponsors p = ocTopSponsors q.

Lemma inRangeb_spec amount r : inRangeb amount r = true <-> inRange amount r.
Proof.
  unfold inRangeb, inRange, below. rewrite andb_true_iff, Qle_bool_iff.
  destruct (rmax r); [rewrite JS.ltb_lt|]; intuition.
Qed.

(** The first matching range is what the loop returns. *)
Lemma findRange_In amount rs l :
  findRange amount rs = Some l ->
  exists r, In r rs /\ inRange amount r /\ label r = l.
Proof.
  induction rs as [|r rs IH]; simpl; [discriminate|].
  destruct (inRangeb amount r) eqn:E.
  - intros [= <-]. exists r. rewrite <- inRangeb_spec. auto.
  - intros H. destruct (IH H) as (r' & Hin & Hr & Hl). eauto.
Qed.

Lemma findRange_None amount rs :
  findRange amount rs = None -> forall r, In r rs -> ~ inRange amount r.
Proof.
  induction rs as [|r rs IH]; simpl; [tauto|].
  destruct (inRangeb amount r) eqn:E; [discriminate|].
  intros H r' [<-|Hin].
  - rewrite <- inRangeb_spec. congruence.
  - now apply IH.
Qed.

(** The ranges tile the non-negative numbers: consecutive ranges share
    their edge, so no amount lies in two of them. *)
Lemma ranges_disjoint amount r r' :
  In r ranges -> In r' ranges ->
  inRange amount r -> inRange amount r' -> r = r'.
Proof.
  unfold ranges, inRange. simpl.
  intros Hr Hr'.
  repeat (destruct Hr as [<-|Hr]; [|]); try contradiction;
    repeat (destruct Hr' as [<-|Hr']; [|]); try contradiction;
    simpl; intros [H1 H2] [H3 H4]; try reflexivity; exfalso; lra.
Qed.

Lemma ranges_cover amount :
  (0 < amount)%Q -> findRange amount ranges <> None.
Proof.
  intros Hpos Hnone.
  apply (findRange_None _ _ Hnone (mkRange 1000000 Infinity ">$1M")).
  { unfold ranges. simpl. intuition. }
  split; simpl; [|exact I].
  destruct (Qlt_le_dec amount 1000000) as [Hlt|Hge]; [|exact Hge].
  exfalso.
  assert (Hall : forall r, In r ranges -> ~ inRange amount r)
    by (now apply findRange_None).
  unfold ranges in Hall.
  repeat match goal with
  | H : forall r, In r (?x :: ?t) -> _ |- _ =>
      let Hx := fresh "Hx" in
      pose proof (H x (or_introl eq_refl)) as Hx;
      unfold inRange in Hx; simpl in Hx;
      assert (forall r, In r t -> ~ inRange amount r)
        by (intros r0 Hr0; apply H; right; exact Hr0);
      clear H
  end.
  lra.
Qed.


(** C7. [formatAmountRange] returns none for a missing, zero or negative
    amount; for every positive amount it returns the label of the one
    range of the table that holds it, the lower edge of a range included
    and the upper edge excluded: 99 is in "<$100", 100 in "$100-500" and
    1000000 in ">$1M". *)
Theorem formatAmountRange_bucket :
  formatAmountRange None = None /\
  (forall a, (a <= 0)%Q -> formatAmountRange (Some a) = None) /\
  (forall a, (0 < a)%Q ->
     exists r, In r ranges /\ inRange a r /\
               formatAmountRange (Some a) = Some (label r) /\
               forall r', In r' ranges -> inRange a r' -> r' = r) /\
  formatAmountRange (Some 99%Q) = Some "<$100" /\
  formatAmountRange (Some 100%Q) = Some "$100-500" /\
  formatAmountRange (Some 1000000%Q) = Some ">$1M" /\
  formatAmountRange (Some 0%Q) = None /\
  formatAmountRange (Some (-5)%Q) = None.
Proof.
  split; [reflexivity|].
  split.
  { intros a Ha. unfold formatAmountRange.
    apply Qle_bool_iff in Ha. now rewrite Ha. }
  split; [|repeat split; reflexivity].
  intros a Ha. unfold formatAmountRange.
  destruct (Qle_bool a 0) eqn:E.
  { apply Qle_bool_iff in E. exfalso. lra. }
  destruct (findRange a ranges) as [l|] eqn:F.
  - destruct (findRange_In _ _ _ F) as (r & Hin & Hr & <-).
    exists r. split; [exact Hin|]. split; [exact Hr|].
    split; [reflexivity|].
    intros r' Hin' Hr'. now apply (ranges_disjoint a).
  - exfalso. now apply (ranges_cover a Ha).
Qed.

Lemma formatAmountRange_bucket_witness :
  (0 < 250)%Q /\
  exists r, In r ranges /\ inRange 250 r /\
            formatAmountRange (Some 250%Q) = Some (label r) /\
            forall r', In r' ranges -> inRange 250 r' -> r' = r.
Proof.
  split; [reflexivity|].
  apply (proj1 (proj2 (proj2 formatAmountRange_bucket)) 250%Q).
  reflexivity.
Defined.

(** C8. [buildFundingSummary] chooses one platform and does not merge.
    A package with an OpenCollective slug gets an opencollective summary,
    and that summary is built from the OpenCollective fields alone,
    whatever the GitHub fields hold.  Without a slug it gets a github
    summary exactly when the sponsors-listing flag is true and a
    repository owner is there; in every other case, a listing flag
    without an owner among them, the result is none.  (A slug or an owner
    is there when the code's test [if (pkg.ocSlug)] passes: the field is
    neither missing nor the empty string.) *)
Theorem buildFundingSummary_priority (pkg : PackageWithFunding) :
  (JS.truthy_str (ocSlug pkg) = true ->
     (exists s, buildFundingSummary pkg = Some s /\
                platform s = opencollective) /\
     (forall pkg', sameOcFields pkg pkg' ->
                   buildFundingSummary pkg' = buildFundingSummary pkg)) /\
  (JS.truthy_str (ocSlug pkg) = false ->
     ((exists s, buildFundingSummary pkg = Some s /\ platform s = github)
      <-> (ghHasSponsorsListing pkg = Some true /\
           JS.truthy_str (repositoryOwner pkg) = true)) /\
     (~ (ghHasSponsorsListing pkg = Some true /\
         JS.truthy_str (repositoryOwner pkg) = true) ->
      buildFundingSummary pkg = None)) /\
  (JS.truthy_str (ocSlug pkg) = false ->
   ghHasSponsorsListing pkg = Some true ->
   JS.truthy_str (repositoryOwner pkg) = false ->
   buildFundingSummary pkg = None).
Proof.
  unfold buildFundingSummary.
  split; [|split].
  - intros Hoc. rewrite Hoc. split.
    + eexists. split; reflexivity.
    + intros pkg' (H1 & H2 & H3 & H4 & H5 & H6).
      rewrite <- H1, Hoc, <- H2, <- H3, <- H4, <- H5, <- H6. reflexivity.
  - intros Hoc. rewrite Hoc.
    destruct (ghHasSponsorsListing pkg) as [[|]|];
      destruct (JS.truthy_str (repositoryOwner pkg)); simpl;
      (split; [split|]).
    all: try (intros (s & Hs & _); discriminate Hs).
    all: try (intros [H1 H2]; discriminate).
    all: try (intros _; reflexivity).
    + intros _. split; reflexivity.
    + intros _. eexists. split; reflexivity.
    + intros H. exfalso. apply H. split; reflexivity.
  - intros Hoc Hgh Hown. now rewrite Hoc, Hgh, Hown.
Qed.

Lemma buildFundingSummary_priority_witness :
  exists s,
    buildFundingSummary
      (mkPackageWithFunding (Some "dual-funding") (Some 10000%Q) None None
         None None None (Some true) None None (Some "some-owner")) = Some s
    /\ platform s = opencollective.
Proof.
  apply (proj1 (buildFundingSummary_priority
    (mkPackageWithFunding (Some "dual-funding") (Some 10000%Q) None None
       None None None (Some true) None None (Some "some-owner")))).
  reflexivity.
Defined.

(** [hasFundingData] holds exactly when a summary is built. *)
Lemma hasFundingData_spec (pkg : PackageWithFunding) :
  hasFundingData pkg = true <-> buildFundingSummary pkg <> None.
Proof.
  unfold hasFundingData, buildFundingSummary.
  destruct (JS.truthy_str (ocSlug pkg)); simpl.
  - split; [discriminate | reflexivity].
  - destruct (JS.truthy_bool (ghHasSponsorsListing pkg)
              && JS.truthy_str (repositoryOwner pkg))%bool.
    + split; [discriminate | reflexivity].
    + split; [discriminate | intro H; now elim H].
Qed.

(** *** Further properties of the range formatter and the summary *)

Lemma labels_not_empty :
  Forall (fun r => label r <> EmptyString) ranges.
Proof. unfold ranges. repeat constructor; discriminate. Qed.

(** For a positive amount the loop finds a range of the table. *)
Lemma formatAmountRange_found (a : Q) :
  (0 < a)%Q ->
  exists r, In r ranges /\ inRange a r /\
            formatAmountRange (Some a) = Some (label r).
Proof.
  intro Ha. unfold formatAmountRange.
  destruct (Qle_bool a 0) eqn:E.
  { apply Qle_bool_iff in E. exfalso. lra. }
  destruct (findRange a ranges) as [l|] eqn:F.
  - destruct (findRange_In _ _ _ F) as (r & Hin & Hr & <-). now exists r.
  - exfalso. now apply (ranges_cover a Ha).
Qed.

(** [formatMonthlyRange] is [formatAmountRange] of a twelfth of the yearly
    amount, with "/mo" after the label; it is none exactly when the yearly
    amount is missing, zero or negative. *)
Theorem formatMonthlyRange_is_monthly_bucket (yearlyAmount : option Q) :
  formatMonthlyRange yearlyAmount
  = option_map (fun l => l ++ "/mo")
      (formatAmountRange (option_map (fun y => (y / 12)%Q) yearlyAmount)) /\
  (formatMonthlyRange yearlyAmount = None
   <-> match yearlyAmount with
       | None => True
       | Some y => (y <= 0)%Q
       end).
Proof.
  destruct yearlyAmount as [y|]; [|split; [reflexivity | tauto]].
  unfold formatMonthlyRange. cbn [option_map]. cbv zeta.
  destruct (Qle_bool y 0) eqn:E.
  - apply Qle_bool_iff in E. split; [|tauto].
    assert (H12 : (y / 12 <= 0)%Q).
    { unfold Qdiv. change (/ 12)%Q with (1 # 12)%Q. lra. }
    unfold formatAmountRange. apply Qle_bool_iff in H12. now rewrite H12.
  - assert (Hy : (0 < y)%Q).
    { apply JS.ltb_lt. unfold JS.ltb. now rewrite E. }
    assert (H12 : (0 < y / 12)%Q).
    { unfold Qdiv. change (/ 12)%Q with (1 # 12)%Q. lra. }
    destruct (formatAmountRange_found _ H12) as (r & Hin & _ & Hr).
    rewrite Hr. cbn [option_map JS.nullish].
    pose proof (proj1 (Forall_forall _ _) labels_not_empty r Hin) as Hne.
    destruct (label r) as [|c l] eqn:El; [contradiction|].
    cbn [JS.truthy_str]. split; [reflexivity|].
    split; [discriminate | intro H; exfalso; lra].
Qed.

(** A larger amount never falls into a lower range: the lower edge of the
    range of [b] is at least that of the range of [a] when [a <= b]. *)
Theorem formatAmountRange_monotone (a b : Q)
    (Ha : (0 < a)%Q) (Hab : (a <= b)%Q) :
  exists ra rb,
    In ra ranges /\ In rb ranges /\
    formatAmountRange (Some a) = Some (label ra) /\
    formatAmountRange (Some b) = Some (label rb) /\
    (rmin ra <= rmin rb)%Q.
Proof.
  assert (Hb : (0 < b)%Q) by lra.
  destruct (formatAmountRange_found a Ha) as (ra & Hina & Hra & Hla).
  destruct (formatAmountRange_found b Hb) as (rb & Hinb & Hrb & Hlb).
  exists ra, rb. repeat (split; [assumption|]).
  clear Hla Hlb. unfold ranges, inRange in *. simpl in Hina, Hinb.
  repeat (destruct Hina as [<-|Hina]; [|]); try contradiction;
    repeat (destruct Hinb as [<-|Hinb]; [|]); try contradiction;
    simpl in *; destruct Hra as [H1 H2]; destruct Hrb as [H3 H4]; lra.
Qed.

Lemma formatAmountRange_monotone_witness :
  exists ra rb,
    formatAmountRange (Some 450%Q) = Some (label ra) /\
    formatAmountRange (Some 7000%Q) = Some (label rb) /\
    (rmin ra <= rmin rb)%Q.
Proof.
  destruct (formatAmountRange_monotone 450 7000 eq_refl
              ltac:(discriminate))
    as (ra & rb & _ & _ & Ha & Hb & Hle).
  exists ra, rb. split; [exact Ha|]. split; [exact Hb | exact Hle].
Defined.

(** A sponsor already in the normal form, seen as a raw one. *)
Definition asRaw (s : TopSponsor) : RawSponsor :=
  {| rawName := name s; avatarUrl := None;
     rawImageUrl := imageUrl s; rawProfileUrl := profileUrl s |}.

(** A github summary never carries a balance, an income or a goal.  Its
    sponsors are the raw sponsors one for one and in order, under their
    names, the image taken from [avatarUrl] when that is there; sponsors
    that are in the normal form already come back as they are. *)
Theorem github_summary_shape
    (pkg : PackageWithFunding) (s : FundingSummary)
    (Hs : buildFundingSummary pkg = Some s)
    (Hgithub : platform s = github) :
  balanceRange s = None /\ monthlyIncomeRange s = None /\
  goalProgress s = None /\
  map name (topSponsors s)
  = map rawName (JS.nullish (ghTopSponsors pkg) []) /\
  Forall2 (fun raw t => forall u, avatarUrl raw = Some u -> imageUrl t = Some u)
    (JS.nullish (ghTopSponsors pkg) []) (topSponsors s) /\
  (forall sponsors, ghTopSponsors pkg = Some (map asRaw sponsors) ->
                    topSponsors s = sponsors).
Proof.
  unfold buildFundingSummary in Hs.
  destruct (JS.truthy_str (ocSlug pkg)).
  { injection Hs as <-. discriminate Hgithub. }
  destruct (JS.truthy_bool (ghHasSponsorsListing pkg)
            && JS.truthy_str (repositoryOwner pkg))%bool; [|discriminate].
  injection Hs as <-. cbn [balanceRange monthlyIncomeRange goalProgress
    topSponsors].
  repeat (split; [reflexivity|]).
  split; [now rewrite map_map|].
  split.
  - clear Hgithub.
    induction (JS.nullish (ghTopSponsors pkg) []) as [|raw l IH];
      simpl; [constructor|].
    constructor; [|exact IH].
    intros u Hu. cbn [imageUrl normalizeSponsor]. now rewrite Hu.
  - intros sponsors Hraw. rewrite Hraw. cbn [JS.nullish].
    rewrite map_map. rewrite <- (map_id sponsors) at 2.
    apply map_ext. now intros [n i p].
Qed.

Lemma github_summary_shape_witness :
  exists s,
    buildFundingSummary
      (mkPackageWithFunding None None None None None None None (Some true)
         (Some 200%Q)
         (Some [asRaw (mkTopSponsor "GHSponsor1" None "https://x")])
         (Some "sindresorhus")) = Some s /\
    topSponsors s = [mkTopSponsor "GHSponsor1" None "https://x"].
Proof.
  eexists. split; [reflexivity|].
  apply (github_summary_shape
    (mkPackageWithFunding None None None None None None None (Some true)
       (Some 200%Q)
       (Some [asRaw (mkTopSponsor "GHSponsor1" None "https://x")])
       (Some "sindresorhus")) _ eq_refl eq_refl).
  reflexivity.
Defined.

(** The cases of the repository's tests. *)
Example formatMonthlyRange_tests :
  formatMonthlyRange (Some 12000%Q) = Some "$1K-5K/mo" /\
  formatMonthlyRange (Some 600%Q) = Some "<$100/mo" /\
  formatMonthlyRange (Some 24000000%Q) = Some ">$1M/mo" /\
  formatMonthlyRange (Some 0%Q) = None /\
  formatMonthlyRange None = None.
Proof. repeat split; reflexivity. Qed.

End Funding.


(** ** The scoring algorithm ([scoring.ts]) *)

Module Scoring.

Local Open Scope string_scope.

Inductive SustainabilityCategory :=
  critical | needs_support | stable | thriving | corporate.

(** The category as the string the TypeScript type spells. *)
Definition categoryName (c : SustainabilityCategory) : string :=
  match c with
  | critical => "critical"
  | needs_support => "needs-support"
  | stable => "stable"
  | thriving => "thriving"
  | corporate => "corporate"
  end.

Record ScoringInputs := mkScoringInputs {
  weeklyDownloads : option Q;
  dependentCount : option Q;
  ocBalance : option Q;
  ocYearlyIncome : option Q;
  githubSponsors : option bool;
  corporateBacking : option string;
  maintainerCount : option Q;
  daysSinceLastPublish : option Q;
  aiDisruptionFlag : option bool;
  maintainerStatus : option SustainabilityCategory
}.

(** [ScoringWeights]; its fields share names with those of the inputs, so
    they live in a name space of their own. *)
Module Weights.
Record ScoringWeights := mkScoringWeights {
  downloads : Q;
  dependents : Q;
  ocBalance : Q;
  ocIncome : Q;
  githubSponsors : Q;
  corporateBacking : Q;
  maintainerCount : Q;
  activityPenalty : Q;
  aiDisruption : Q
}.
End Weights.
Abbreviation ScoringWeights := Weights.ScoringWeights.

Record Factor := mkFactor {
  name : string;
  impact : Q;
  reason : string
}.

Record ScoringResult := mkScoringResult {
  score : Q;
  category : SustainabilityCategory;
  explanation : list string;
  factors : list Factor
}.

Definition DEFAULT_WEIGHTS : ScoringWeights :=
  {| Weights.downloads := 10;
     Weights.dependents := 15;
     Weights.ocBalance := 20;
     Weights.ocIncome := 15;
     Weights.githubSponsors := 5;
     Weights.corporateBacking := 30;
     Weights.maintainerCount := 5;
     Weights.activityPenalty := 10;
     Weights.aiDisruption := 15 |}.

(** [CATEGORY_THRESHOLDS]. *)
Module CATEGORY_THRESHOLDS.
Definition critical : Q := 30.
Definition needsSupport : Q := 50.
Definition stable : Q := 75.
Definition thriving : Q := 90.
End CATEGORY_THRESHOLDS.

(** The [statusScores] table of the maintainer override. *)
Definition statusScores (c : SustainabilityCategory) : Q :=
  match c with
  | critical => 15
  | needs_support => 40
  | stable => 65
  | thriving => 85
  | corporate => 95
  end.

(** The chain of threshold tests that turns a clamped score into a
    category. *)
Definition categoryOf (score : Q) : SustainabilityCategory :=
  if Qle_bool score CATEGORY_THRESHOLDS.critical then critical
  else if Qle_bool score CATEGORY_THRESHOLDS.needsSupport then needs_support
  else if Qle_bool score CATEGORY_THRESHOLDS.stable then stable
  else if Qle_bool score CATEGORY_THRESHOLDS.thriving then thriving
  else corporate.

Definition normalizeBalance (balance : option Q) : Q :=
  if JS.truthy_num balance
  then JS.min 1 (JS.nullish balance 0 / 100000)
  else 0.

Definition normalizeIncome (income : option Q) : Q :=
  if JS.truthy_num income
  then JS.min 1 (JS.nullish income 0 / 100000)
  else 0.

(** [[...factors].sort(cmp)].  The sort of an array is stable, and [cmp]
    here is a consistent comparator, so the result is the one stable
    arrangement in the order of [cmp], whatever algorithm the engine runs;
    it is built by insertion.  [cmp a b < 0] puts [a] before [b]. *)
Section Sort.
Context {A : Type} (cmp : A -> A -> Q).

Fixpoint insert (x : A) (l : list A) : list A :=
  match l with
  | [] => [x]
  | y :: ys => if JS.ltb (cmp y x) 0 then y :: insert x ys else x :: y :: ys
  end.

Definition sort (l : list A) : list A := fold_right insert [] l.
End Sort.

(** The comparator of the explanation:
    [(a, b) => Math.abs(b.impact) - Math.abs(a.impact)]. *)
Definition byImpact (a b : Factor) : Q := Qabs (impact b) - Qabs (impact a).

(** The double-quote character of the override's reason. *)
Definition dquote : string := String (Ascii.ascii_of_nat 34) EmptyString.

(** The running state of the weighted path: the factors pushed so far and
    the score. *)
Record Acc := mkAcc {
  acc_factors : list Factor;
  acc_score : Q
}.

(** [factors.push(f)]. *)
Definition push (f : Factor) (st : Acc) : Acc :=
  {| acc_factors := acc_factors st ++ [f]; acc_score := acc_score st |}.

(** [score += d]. *)
Definition bump (d : Q) (st : Acc) : Acc :=
  {| acc_factors := acc_factors st; acc_score := acc_score st + d |}.

(** The names of the factors in the order the weighted path evaluates
    them; the two maintainer factors exclude each other. *)
Definition evaluationOrder : list string :=
  [ "Weekly Downloads"; "Dependent Packages"; "OC Balance"; "OC Income";
    "GitHub Sponsors"; "Maintainer Count"; "Solo Maintainer"; "Inactivity";
    "AI Disruption"; "High Impact, Low Funding" ].

(** [l] is [m] with some elements left out, the order kept. *)
Inductive Subseq {A : Type} : list A -> list A -> Prop :=
| Subseq_nil : Subseq [] []
| Subseq_skip : forall x l m, Subseq l m -> Subseq l (x :: m)
| Subseq_take : forall x l m, Subseq l m -> Subseq (x :: l) (x :: m).

(** The inputs reach the weighted path: no maintainer status and no
    corporate backing. *)
Definition weightedPath (inputs : ScoringInputs) : Prop :=
  maintainerStatus inputs = None /\
  JS.truthy_str (corporateBacking inputs) = false.

(** The inputs with another OpenCollective balance. *)
Definition withBalance (inputs : ScoringInputs) (b : Q) : ScoringInputs :=
  {| weeklyDownloads := weeklyDownloads inputs;
     dependentCount := dependentCount inputs;
     ocBalance := Some b;
     ocYearlyIncome := ocYearlyIncome inputs;
     githubSponsors := githubSponsors inputs;
     corporateBacking := corporateBacking inputs;
     maintainerCount := maintainerCount inputs;
     daysSinceLastPublish := daysSinceLastPublish inputs;
     aiDisruptionFlag := aiDisruptionFlag inputs;
     maintainerStatus := maintainerStatus inputs |}.

(** *** The sort of the explanation *)

(** The key of the explanation's order. *)
Definition absImpact (f : Factor) : Q := Qabs (impact f).

(** Descending absolute impact: every factor weighs at least as much as
    all the factors after it. *)
Definition Descending (l : list Factor) : Prop :=
  StronglySorted (fun a b => absImpact b <= absImpact a)%Q l.

(** The factors of absolute impact [k], in the order of the list. *)
Definition tied (k : Q) (l : list Factor) : list Factor :=
  filter (fun f => Qeq_bool (absImpact f) k) l.

(** [s] is the stable sort of [l] by descending absolute impact: the same
    factors, in descending order, those of equal weight in the order they
    have in [l]. *)
Definition StableSorted (l s : list Factor) : Prop :=
  Permutation s l /\ Descending s /\ forall k, tied k s = tied k l.

Lemma byImpact_before (y x : Factor) :
  JS.ltb (byImpact y x) 0 = true <-> (absImpact x < absImpact y)%Q.
Proof.
  rewrite JS.ltb_lt. unfold byImpact, absImpact.
  set (a := Qabs (impact x)). set (b := Qabs (impact y)). clearbody a b.
  split; intro; lra.
Qed.

Lemma byImpact_not_before (y x : Factor) :
  JS.ltb (byImpact y x) 0 = false <-> (absImpact y <= absImpact x)%Q.
Proof.
  rewrite JS.ltb_ge. unfold byImpact, absImpact.
  set (a := Qabs (impact x)). set (b := Qabs (impact y)). clearbody a b.
  split; intro; lra.
Qed.

Lemma insert_perm {A : Type} (cmp : A -> A -> Q) (x : A) (l : list A) :
  Permutation (insert cmp x l) (x :: l).
Proof.
  induction l as [|y ys IH]; simpl; [reflexivity|].
  destruct (JS.ltb (cmp y x) 0); [|reflexivity].
  rewrite IH. apply perm_swap.
Qed.

Lemma sort_perm {A : Type} (cmp : A -> A -> Q) (l : list A) :
  Permutation (sort cmp l) l.
Proof.
  induction l as [|x l IH]; simpl; [reflexivity|].
  rewrite insert_perm. now apply perm_skip.
Qed.

Lemma sort_length {A : Type} (cmp : A -> A -> Q) (l : list A) :
  List.length (sort cmp l) = List.length l.
Proof. apply Permutation_length, sort_perm. Qed.

Lemma insert_descending (x : Factor) (l : list Factor) :
  Descending l -> Descending (insert byImpact x l).
Proof.
  unfold Descending.
  induction l as [|y ys IH]; simpl; intro Hs.
  - constructor; constructor.
  - apply StronglySorted_inv in Hs. destruct Hs as [Hys Hy].
    destruct (JS.ltb (byImpact y x) 0) eqn:E.
    + apply byImpact_before in E. constructor; [now apply IH|].
      rewrite (insert_perm byImpact x ys). constructor; [|exact Hy].
      now apply Qlt_le_weak.
    + apply byImpact_not_before in E. constructor.
      * constructor; assumption.
      * constructor; [exact E|].
        eapply Forall_impl; [|exact Hy].
        intros z Hz. simpl in Hz. eapply Qle_trans; eassumption.
Qed.

Lemma sort_descending (l : list Factor) : Descending (sort byImpact l).
Proof.
  induction l as [|x l IH]; simpl.
  - constructor.
  - now apply insert_descending.
Qed.

(** Insertion never moves a factor across one of the same weight. *)
Lemma insert_tied (k : Q) (x : Factor) (l : list Factor) :
  tied k (insert byImpact x l) = tied k (x :: l).
Proof.
  unfold tied.
  induction l as [|y ys IH]; simpl; [reflexivity|].
  destruct (JS.ltb (byImpact y x) 0) eqn:E; [|reflexivity].
  apply byImpact_before in E. simpl. rewrite IH. simpl.
  destruct (Qeq_bool (absImpact y) k) eqn:Ey;
    destruct (Qeq_bool (absImpact x) k) eqn:Ex; try reflexivity.
  apply Qeq_bool_iff in Ey, Ex. exfalso.
  rewrite Ey, Ex in E. now apply (Qlt_irrefl k).
Qed.

Lemma sort_tied (k : Q) (l : list Factor) :
  tied k (sort byImpact l) = tied k l.
Proof.
  induction l as [|x l IH]; simpl; [reflexivity|].
  rewrite insert_tied. unfold tied in *. simpl. now rewrite IH.
Qed.

Lemma sort_stable (l : list Factor) : StableSorted l (sort byImpact l).
Proof.
  split; [apply sort_perm|]. split; [apply sort_descending|].
  intro k. apply sort_tied.
Qed.

Lemma tied_In (k : Q) (f : Factor) (l : list Factor) :
  In f (tied k l) <-> In f l /\ (absImpact f == k)%Q.
Proof. unfold tied. now rewrite filter_In, Qeq_bool_iff. Qed.

(** A descending list is fixed by its groups of tied factors, so the
    stable sort of a list is unique: any sorting algorithm that is stable
    returns what [sort] returns. *)
Lemma descending_tied_unique (s t : list Factor) :
  Descending s -> Descending t ->
  (forall k, tied k s = tied k t) -> s = t.
Proof.
  revert t. induction s as [|a s IH]; intros t Hs Ht Htied.
  - destruct t as [|b t]; [reflexivity|].
    specialize (Htied (absImpact b)). unfold tied in Htied. simpl in Htied.
    now rewrite Qeq_bool_refl in Htied.
  - destruct t as [|b t].
    { specialize (Htied (absImpact a)). unfold tied in Htied.
      simpl in Htied. now rewrite Qeq_bool_refl in Htied. }
    apply StronglySorted_inv in Hs. destruct Hs as [Hs Ha].
    apply StronglySorted_inv in Ht. destruct Ht as [Ht Hb].
    rewrite Forall_forall in Ha, Hb.
    assert (Hab : (absImpact a == absImpact b)%Q).
    { apply Qle_antisym.
      - assert (Hin : In a (tied (absImpact a) (b :: t))).
        { rewrite <- Htied. unfold tied. simpl.
          rewrite Qeq_bool_refl. now left. }
        apply tied_In in Hin. destruct Hin as [[<-|Hin] _].
        + apply Qle_refl.
        + now apply Hb.
      - assert (Hin : In b (tied (absImpact b) (a :: s))).
        { rewrite Htied. unfold tied. simpl.
          rewrite Qeq_bool_refl. now left. }
        apply tied_In in Hin. destruct Hin as [[<-|Hin] _].
        + apply Qle_refl.
        + now apply Ha. }
    assert (Heq : a = b).
    { specialize (Htied (absImpact a)). unfold tied in Htied.
      simpl in Htied. rewrite Qeq_bool_refl in Htied.
      apply Qeq_sym, Qeq_bool_iff in Hab. rewrite Hab in Htied.
      now injection Htied. }
    subst b. f_equal. apply IH; try assumption.
    intro k. specialize (Htied k). unfold tied in *. simpl in Htied.
    destruct (Qeq_bool (absImpact a) k); [now injection Htied | exact Htied].
Qed.

Lemma StableSorted_unique (l s : list Factor) :
  StableSorted l s -> s = sort byImpact l.
Proof.
  intros (_ & Hs & Ht). apply descending_tied_unique.
  - exact Hs.
  - apply sort_descending.
  - intro k. rewrite Ht. symmetry. apply sort_tied.
Qed.

Lemma Subseq_app {A : Type} (l1 m1 l2 m2 : list A) :
  Subseq l1 m1 -> Subseq l2 m2 -> Subseq (l1 ++ l2) (m1 ++ m2).
Proof.
  intros H1 H2. induction H1; simpl; try (constructor; assumption).
  exact H2.
Qed.

(** C10. The maintainer override agrees with the thresholds: the fixed
    score of every category (critical 15, needs-support 40, stable 65,
    thriving 85, corporate 95) lies in that category's own band, so sending
    it through the threshold tests gives the category back. *)
Theorem override_matches_thresholds (c : SustainabilityCategory) :
  categoryOf (statusScores c) = c.
Proof. destruct c; reflexivity. Qed.

Lemma Subseq_nil_l {A : Type} (m : list A) : Subseq [] m.
Proof. induction m; constructor; assumption. Qed.

(** A step that pushes nothing keeps the names; a step that pushes one
    factor adds its name at the end. *)
Lemma names_keep (st : Acc) (m ns : list string) :
  Subseq (map name (acc_factors st)) m ->
  Subseq (map name (acc_factors st)) (m ++ ns).
Proof.
  intro H. rewrite <- (app_nil_r (map name (acc_factors st))).
  apply Subseq_app; [exact H | apply Subseq_nil_l].
Qed.

Lemma names_push (f : Factor) (st : Acc) (m ns : list string) :
  Subseq (map name (acc_factors st)) m ->
  Subseq [name f] ns ->
  Subseq (map name (acc_factors (push f st))) (m ++ ns).
Proof.
  intros H Hf. unfold push. simpl. rewrite map_app.
  now apply Subseq_app.
Qed.

Ltac subseq_names :=
  repeat first [apply Subseq_take | apply Subseq_skip | apply Subseq_nil].

Ltac names_step :=
  first [ apply names_keep; assumption
        | apply names_push; [assumption | simpl; subseq_names] ].

Section Platform.

(** What the platform provides: [Math.log10], [Number.toLocaleString] and
    the text of a number in a template literal. *)
Variable log10 : Q -> Q.
Variable toLocaleString : Q -> string.
Variable toString : Q -> string.

Definition normalizeDownloads (downloads : option Q) : Q :=
  if JS.truthy_num downloads
  then JS.min 1 (log10 (JS.nullish downloads 0 + 1) / 9)
  else 0.

Definition normalizeDependents (dependents : option Q) : Q :=
  if JS.truthy_num dependents
  then JS.min 1 (log10 (JS.nullish dependents 0 + 1) / 4)
  else 0.

(** Factor: ecosystem importance (downloads).  Recorded, not added. *)
Definition factorDownloads (inputs : ScoringInputs) (weights : ScoringWeights)
    (st : Acc) : Acc :=
  let downloadsFactor := normalizeDownloads (weeklyDownloads inputs) in
  if JS.ltb 0 downloadsFactor then
    push {| name := "Weekly Downloads";
            impact := (- downloadsFactor) * Weights.downloads weights;
            reason := toLocaleString (JS.nullish (weeklyDownloads inputs) 0)
                      ++ " weekly downloads" |} st
  else st.

(** Factor: ecosystem importance (dependents).  Recorded, not added. *)
Definition factorDependents (inputs : ScoringInputs) (weights : ScoringWeights)
    (st : Acc) : Acc :=
  let dependentsFactor := normalizeDependents (dependentCount inputs) in
  if JS.ltb 0 dependentsFactor then
    push {| name := "Dependent Packages";
            impact := (- dependentsFactor) * Weights.dependents weights;
            reason := toLocaleString (JS.nullish (dependentCount inputs) 0)
                      ++ " packages depend on this" |} st
  else st.

(** Factor: OpenCollective balance. *)
Definition factorBalance (inputs : ScoringInputs) (weights : ScoringWeights)
    (st : Acc) : Acc :=
  let balanceFactor := normalizeBalance (ocBalance inputs) in
  if JS.ltb 0 balanceFactor then
    bump (balanceFactor * Weights.ocBalance weights)
      (push {| name := "OC Balance";
               impact := balanceFactor * Weights.ocBalance weights;
               reason := "$" ++ toLocaleString (JS.nullish (ocBalance inputs) 0)
                         ++ " in OpenCollective" |} st)
  else st.

(** Factor: OpenCollective income. *)
Definition factorIncome (inputs : ScoringInputs) (weights : ScoringWeights)
    (st : Acc) : Acc :=
  let incomeFactor := normalizeIncome (ocYearlyIncome inputs) in
  if JS.ltb 0 incomeFactor then
    bump (incomeFactor * Weights.ocIncome weights)
      (push {| name := "OC Income";
               impact := incomeFactor * Weights.ocIncome weights;
               reason := "$"
                         ++ toLocaleString (JS.nullish (ocYearlyIncome inputs) 0)
                         ++ "/year from OpenCollective" |} st)
  else st.

(** Factor: GitHub Sponsors. *)
Definition factorSponsors (inputs : ScoringInputs) (weights : ScoringWeights)
    (st : Acc) : Acc :=
  if JS.truthy_bool (githubSponsors inputs) then
    bump (Weights.githubSponsors weights)
      (push {| name := "GitHub Sponsors";
               impact := Weights.githubSponsors weights;
               reason := "Has GitHub Sponsors enabled" |} st)
  else st.

(** Factor: maintainer count. *)
Definition factorMaintainers (inputs : ScoringInputs) (weights : ScoringWeights)
    (st : Acc) : Acc :=
  let count := JS.nullish (maintainerCount inputs) 0 in
  if JS.truthy_num (maintainerCount inputs) && JS.ltb 1 count then
    let maintainerBonus :=
      JS.min 1 ((count - 1) / 4) * Weights.maintainerCount weights in
    bump maintainerBonus
      (push {| name := "Maintainer Count";
               impact := maintainerBonus;
               reason := toString count ++ " maintainers (lower bus factor)" |}
         st)
  else
    match maintainerCount inputs with
    | Some c =>
        if Qeq_bool c 1 then
          bump (- (Weights.maintainerCount weights / 2))
            (push {| name := "Solo Maintainer";
                     impact := (- Weights.maintainerCount weights) / 2;
                     reason := "Single maintainer (bus factor risk)" |} st)
        else st
    | None => st
    end.

(** Factor: activity (penalty for inactivity). *)
Definition factorActivity (inputs : ScoringInputs) (weights : ScoringWeights)
    (st : Acc) : Acc :=
  let days := JS.nullish (daysSinceLastPublish inputs) 0 in
  if JS.truthy_num (daysSinceLastPublish inputs) && JS.ltb 365 days then
    let inactivityPenalty :=
      JS.min 1 ((days - 365) / 730) * Weights.activityPenalty weights in
    bump (- inactivityPenalty)
      (push {| name := "Inactivity";
               impact := - inactivityPenalty;
               reason := "No releases in " ++ toString (JS.floor (days / 365))
                         ++ " years" |} st)
  else st.

(** Factor: AI disruption. *)
Definition factorAiDisruption (inputs : ScoringInputs)
    (weights : ScoringWeights) (st : Acc) : Acc :=
  if JS.truthy_bool (aiDisruptionFlag inputs) then
    bump (- Weights.aiDisruption weights)
      (push {| name := "AI Disruption";
               impact := - Weights.aiDisruption weights;
               reason := "Business model at risk from AI tools" |} st)
  else st.

(** [downloadsFactor * 0.6 + dependentsFactor * 0.4]. *)
Definition ecosystemImportance (inputs : ScoringInputs) : Q :=
  normalizeDownloads (weeklyDownloads inputs) * (6 # 10)
  + normalizeDependents (dependentCount inputs) * (4 # 10).

(** Ecosystem importance as an inverse factor.  Both comparisons are on
    computed values, and are exact here: a running score that is 60 here
    may be a last bit below 60 in the program, which then applies the
    penalty. *)
Definition factorImportance (inputs : ScoringInputs) (st : Acc) : Acc :=
  if JS.ltb (3 # 10) (ecosystemImportance inputs) && JS.ltb (acc_score st) 60
  then
    let importancePenalty := ecosystemImportance inputs * 15 in
    push {| name := "High Impact, Low Funding";
            impact := - importancePenalty;
            reason := "Critical infrastructure without adequate funding" |}
      (bump (- importancePenalty) st)
  else st.

(** The factors of the signals, from a neutral score of 50: the state
    before the ecosystem importance is applied. *)
Definition signals (inputs : ScoringInputs) (weights : ScoringWeights)
  : Acc :=
  let st := {| acc_factors := []; acc_score := 50 |} in
  let st := factorDownloads inputs weights st in
  let st := factorDependents inputs weights st in
  let st := factorBalance inputs weights st in
  let st := factorIncome inputs weights st in
  let st := factorSponsors inputs weights st in
  let st := factorMaintainers inputs weights st in
  let st := factorActivity inputs weights st in
  factorAiDisruption inputs weights st.

(** The weighted path up to the clamp: the factors in the order the code
    pushes them, and the unclamped score. *)
Definition accumulate (inputs : ScoringInputs) (weights : ScoringWeights)
  : Acc :=
  factorImportance inputs (signals inputs weights).

(** [Math.max(0, Math.min(100, Math.round(score)))]. *)
Definition clamp (score : Q) : Q := JS.max 0 (JS.min 100 (JS.round score)).

Definition calculateScore (inputs : ScoringInputs) (weights : ScoringWeights)
  : ScoringResult :=
  match maintainerStatus inputs with
  | Some status =>
      {| score := statusScores status;
         category := status;
         explanation := ["Score based on maintainer self-reported status"];
         factors := [ {| name := "Maintainer Status";
                         impact := 0;
                         reason := "Maintainer marked as " ++ dquote
                                   ++ categoryName status ++ dquote |} ] |}
  | None =>
      if JS.truthy_str (corporateBacking inputs) then
        let company := JS.nullish (corporateBacking inputs) EmptyString in
        {| score := 95;
           category := corporate;
           explanation := ["Backed by " ++ company
                           ++ " - does not need community funding"];
           factors := [ {| name := "Corporate Backing";
                           impact := Weights.corporateBacking weights;
                           reason := "Maintained by " ++ company |} ] |}
      else
        let st := accumulate inputs weights in
        let score := clamp (acc_score st) in
        let sortedFactors := sort byImpact (acc_factors st) in
        {| score := score;
           category := categoryOf score;
           explanation := map reason (firstn 3 sortedFactors);
           factors := acc_factors st |}
  end.

(** The clamp yields a whole number between 0 and 100. *)
Lemma clamp_integer (x : Q) :
  exists z : Z, clamp x = inject_Z z /\ (0 <= z <= 100)%Z.
Proof.
  unfold clamp, JS.round.
  set (f := Qfloor (x + (1 # 2))).
  unfold JS.min.
  destruct (Qle_bool 100 (inject_Z f)) eqn:E100.
  - exists 100%Z. split; [reflexivity | lia].
  - unfold JS.max. destruct (Qle_bool 0 (inject_Z f)) eqn:E0.
    + exists f. split; [reflexivity|].
      apply Qle_bool_iff in E0. change 0 with (inject_Z 0) in E0.
      rewrite <- Zle_Qle in E0.
      assert (H : inject_Z f < inject_Z 100).
      { apply JS.ltb_lt. unfold JS.ltb. change (inject_Z 100) with 100.
        now rewrite E100. }
      rewrite <- Zlt_Qlt in H. lia.
    + exists 0%Z. split; [reflexivity | lia].
Qed.

(** C1. For all inputs and all weights the score of [calculateScore] is a
    whole number between 0 and 100, on the two override paths as on the
    weighted path. *)
Theorem calculateScore_score_range
    (inputs : ScoringInputs) (weights : ScoringWeights) :
  exists z : Z,
    score (calculateScore inputs weights) = inject_Z z /\ (0 <= z <= 100)%Z.
Proof.
  unfold calculateScore.
  destruct (maintainerStatus inputs) as [status|].
  - simpl. destruct status;
      [exists 15%Z | exists 40%Z | exists 65%Z | exists 85%Z | exists 95%Z];
      (split; [reflexivity | lia]).
  - destruct (JS.truthy_str (corporateBacking inputs)).
    + exists 95%Z. split; [reflexivity | lia].
    + simpl. apply clamp_integer.
Qed.

(** C2. When [maintainerStatus] is there, [calculateScore] returns the
    score of the fixed table (critical 15, needs-support 40, stable 65,
    thriving 85, corporate 95) and the status itself as category; no other
    field of the inputs and no weight has a say: any other inputs and
    weights with the same status give the same result. *)
Theorem maintainerStatus_override
    (inputs : ScoringInputs) (weights : ScoringWeights)
    (status : SustainabilityCategory)
    (Hstatus : maintainerStatus inputs = Some status) :
  score (calculateScore inputs weights)
  = match status with
    | critical => 15
    | needs_support => 40
    | stable => 65
    | thriving => 85
    | corporate => 95
    end /\
  category (calculateScore inputs weights) = status /\
  forall inputs' weights',
    maintainerStatus inputs' = Some status ->
    calculateScore inputs' weights' = calculateScore inputs weights.
Proof.
  unfold calculateScore. rewrite Hstatus. simpl.
  split; [now destruct status|].
  split; [reflexivity|].
  intros inputs' weights' H'. now rewrite H'.
Qed.

(** C3. Without a maintainer status and with a corporate backing of a
    non-empty name, [calculateScore] returns score 95 and category
    corporate whatever the other fields hold, with exactly one factor,
    whose impact is [weights.corporateBacking]. *)
Theorem corporateBacking_override
    (inputs : ScoringInputs) (weights : ScoringWeights) (company : string)
    (Hstatus : maintainerStatus inputs = None)
    (Hbacking : corporateBacking inputs = Some company)
    (Hname : company <> EmptyString) :
  score (calculateScore inputs weights) = 95 /\
  category (calculateScore inputs weights) = corporate /\
  exists f, factors (calculateScore inputs weights) = [f] /\
            impact f = Weights.corporateBacking weights.
Proof.
  unfold calculateScore. rewrite Hstatus, Hbacking.
  destruct company as [|c company]; [contradiction|]. simpl.
  split; [reflexivity|]. split; [reflexivity|].
  eexists. split; reflexivity.
Qed.

(** *** The factors are pushed in the order of evaluation *)

Lemma accumulate_names (inputs : ScoringInputs) (weights : ScoringWeights) :
  Subseq (map name (acc_factors (accumulate inputs weights))) evaluationOrder.
Proof.
  unfold accumulate, signals.
  set (st0 := {| acc_factors := []; acc_score := 50 |}).
  assert (H0 : Subseq (map name (acc_factors st0)) []) by constructor.
  set (st1 := factorDownloads inputs weights st0).
  assert (H1 : Subseq (map name (acc_factors st1))
                 ([] ++ ["Weekly Downloads"])).
  { unfold st1, factorDownloads.
    destruct (JS.ltb 0 _); names_step. }
  set (st2 := factorDependents inputs weights st1).
  assert (H2 : Subseq (map name (acc_factors st2))
                 (([] ++ ["Weekly Downloads"]) ++ ["Dependent Packages"])).
  { unfold st2, factorDependents.
    destruct (JS.ltb 0 _); names_step. }
  set (st3 := factorBalance inputs weights st2).
  assert (H3 : Subseq (map name (acc_factors st3))
                 ((([] ++ ["Weekly Downloads"]) ++ ["Dependent Packages"])
                  ++ ["OC Balance"])).
  { unfold st3, factorBalance.
    destruct (JS.ltb 0 _); [unfold bump; simpl acc_factors|]; names_step. }
  set (st4 := factorIncome inputs weights st3).
  assert (H4 : Subseq (map name (acc_factors st4))
                 (((([] ++ ["Weekly Downloads"]) ++ ["Dependent Packages"])
                   ++ ["OC Balance"]) ++ ["OC Income"])).
  { unfold st4, factorIncome.
    destruct (JS.ltb 0 _); [unfold bump; simpl acc_factors|]; names_step. }
  set (st5 := factorSponsors inputs weights st4).
  assert (H5 : Subseq (map name (acc_factors st5))
                 ((((([] ++ ["Weekly Downloads"]) ++ ["Dependent Packages"])
                    ++ ["OC Balance"]) ++ ["OC Income"])
                  ++ ["GitHub Sponsors"])).
  { unfold st5, factorSponsors.
    destruct (JS.truthy_bool _); [unfold bump; simpl acc_factors|];
      names_step. }
  set (st6 := factorMaintainers inputs weights st5).
  assert (H6 : Subseq (map name (acc_factors st6))
                 (((((([] ++ ["Weekly Downloads"]) ++ ["Dependent Packages"])
                     ++ ["OC Balance"]) ++ ["OC Income"])
                   ++ ["GitHub Sponsors"])
                  ++ ["Maintainer Count"; "Solo Maintainer"])).
  { unfold st6, factorMaintainers.
    destruct (andb _ _); [unfold bump; simpl acc_factors; names_step|].
    destruct (maintainerCount inputs) as [c|]; [|names_step].
    destruct (Qeq_bool c 1); [unfold bump; simpl acc_factors|]; names_step. }
  set (st7 := factorActivity inputs weights st6).
  assert (H7 : Subseq (map name (acc_factors st7))
                 ((((((([] ++ ["Weekly Downloads"]) ++ ["Dependent Packages"])
                      ++ ["OC Balance"]) ++ ["OC Income"])
                    ++ ["GitHub Sponsors"])
                   ++ ["Maintainer Count"; "Solo Maintainer"])
                  ++ ["Inactivity"])).
  { unfold st7, factorActivity.
    destruct (andb _ _); [unfold bump; simpl acc_factors|]; names_step. }
  set (st8 := factorAiDisruption inputs weights st7).
  assert (H8 : Subseq (map name (acc_factors st8))
                 (((((((([] ++ ["Weekly Downloads"])
                         ++ ["Dependent Packages"])
                       ++ ["OC Balance"]) ++ ["OC Income"])
                     ++ ["GitHub Sponsors"])
                    ++ ["Maintainer Count"; "Solo Maintainer"])
                   ++ ["Inactivity"]) ++ ["AI Disruption"])).
  { unfold st8, factorAiDisruption.
    destruct (JS.truthy_bool _); [unfold bump; simpl acc_factors|];
      names_step. }
  change evaluationOrder
    with ((((((((([] ++ ["Weekly Downloads"]) ++ ["Dependent Packages"])
                ++ ["OC Balance"]) ++ ["OC Income"])
              ++ ["GitHub Sponsors"])
             ++ ["Maintainer Count"; "Solo Maintainer"])
            ++ ["Inactivity"]) ++ ["AI Disruption"])
          ++ ["High Impact, Low Funding"])%list.
  unfold factorImportance.
  destruct (andb _ _); [|names_step].
  apply names_push; [exact H8 | simpl; subseq_names].
Qed.

(** C9. On the weighted path the explanation is made of the reasons of
    the first three factors of the stable sort of the factor list by
    descending absolute impact (factors of equal weight keep the order they
    have in the list): [sort byImpact] is such a sort, and any arrangement
    that is one gives the same explanation.  The explanation has at most
    three entries and at most as many as there are factors.  The [factors]
    field is the list as the evaluation pushed it, its names in the order
    of evaluation; it is not the sorted copy. *)
Theorem explanation_top3
    (inputs : ScoringInputs) (weights : ScoringWeights)
    (Hpath : weightedPath inputs) :
  let r := calculateScore inputs weights in
  StableSorted (factors r) (sort byImpact (factors r)) /\
  (forall sorted, StableSorted (factors r) sorted ->
                  explanation r = map reason (firstn 3 sorted)) /\
  (List.length (explanation r) <= 3)%nat /\
  (List.length (explanation r) <= List.length (factors r))%nat /\
  factors r = acc_factors (accumulate inputs weights) /\
  Subseq (map name (factors r)) evaluationOrder.
Proof.
  destruct Hpath as [Hstatus Hbacking].
  unfold calculateScore. rewrite Hstatus, Hbacking.
  cbv zeta. cbn [explanation factors].
  split; [apply sort_stable|].
  split.
  { intros sorted Hsorted. now rewrite (StableSorted_unique _ _ Hsorted). }
  rewrite length_map, length_firstn, sort_length.
  split; [apply Nat.le_min_l|].
  split; [apply Nat.le_min_r|].
  split; [reflexivity|].
  apply accumulate_names.
Qed.

(** *** The score as a function of the OpenCollective balance *)

(** What the balance adds to the score. *)
Definition balanceGain (b : Q) (weights : ScoringWeights) : Q :=
  let balanceFactor := normalizeBalance (Some b) in
  if JS.ltb 0 balanceFactor
  then balanceFactor * Weights.ocBalance weights
  else 0.

Lemma normalizeBalance_value (b : Q) :
  (normalizeBalance (Some b) == JS.min 1 (b / 100000))%Q.
Proof.
  unfold normalizeBalance, JS.truthy_num, JS.nullish.
  destruct (Qeq_bool b 0) eqn:E; simpl; [|reflexivity].
  apply Qeq_bool_iff in E. unfold JS.min.
  destruct (Qle_bool 1 (b / 100000)) eqn:E1.
  - apply Qle_bool_iff in E1. rewrite E in E1. exfalso.
    revert E1. apply Qlt_not_le. reflexivity.
  - rewrite E. reflexivity.
Qed.

Lemma normalizeBalance_mono (b1 b2 : Q) :
  (b1 <= b2 -> normalizeBalance (Some b1) <= normalizeBalance (Some b2))%Q.
Proof.
  intro H. rewrite !normalizeBalance_value. apply JS.min_mono_r.
  unfold Qdiv. apply Qmult_le_compat_r; [exact H | discriminate].
Qed.

(** At 100,000 and beyond the normalized balance is 1. *)
Lemma normalizeBalance_cap (b : Q) :
  (100000 <= b)%Q -> normalizeBalance (Some b) = 1%Q.
Proof.
  intro H. unfold normalizeBalance, JS.truthy_num, JS.nullish.
  destruct (Qeq_bool b 0) eqn:E.
  { apply Qeq_bool_iff in E. rewrite E in H. exfalso.
    revert H. apply Qlt_not_le. reflexivity. }
  simpl. unfold JS.min.
  assert (H1 : (1 <= b / 100000)%Q).
  { apply Qle_shift_div_l; [reflexivity|]. now rewrite Qmult_1_l. }
  apply Qle_bool_iff in H1. now rewrite H1.
Qed.

Lemma balanceGain_mono (b1 b2 : Q) (weights : ScoringWeights) :
  (0 <= Weights.ocBalance weights -> b1 <= b2 ->
   balanceGain b1 weights <= balanceGain b2 weights)%Q.
Proof.
  intros Hw Hle. unfold balanceGain. cbv zeta.
  pose proof (normalizeBalance_mono b1 b2 Hle) as Hmono.
  set (f1 := normalizeBalance (Some b1)) in *.
  set (f2 := normalizeBalance (Some b2)) in *.
  destruct (JS.ltb 0 f1) eqn:E1; destruct (JS.ltb 0 f2) eqn:E2.
  - now apply Qmult_le_compat_r.
  - apply JS.ltb_lt in E1. apply JS.ltb_ge in E2. exfalso. lra.
  - apply JS.ltb_lt in E2. apply Qmult_le_0_compat; [lra | exact Hw].
  - apply Qle_refl.
Qed.

(** Below the cap the normalized balance is the balance over 100,000. *)
Lemma normalizeBalance_below (b : Q) :
  (b <= 100000 -> normalizeBalance (Some b) == b / 100000)%Q.
Proof.
  intro H. rewrite normalizeBalance_value. unfold JS.min.
  destruct (Qle_bool 1 (b / 100000)) eqn:E; [|reflexivity].
  apply Qle_bool_iff in E. apply Qle_antisym; [exact E|].
  apply Qle_shift_div_r; [reflexivity|]. now rewrite Qmult_1_l.
Qed.

Lemma balanceGain_strict (b1 b2 : Q) (weights : ScoringWeights) :
  (0 < Weights.ocBalance weights -> 0 <= b1 -> b1 < b2 -> b2 <= 100000 ->
   balanceGain b1 weights < balanceGain b2 weights)%Q.
Proof.
  intros Hw H0 Hlt Hcap. unfold balanceGain. cbv zeta.
  assert (F1 : (normalizeBalance (Some b1) == b1 * (1 # 100000))%Q)
    by (apply normalizeBalance_below; lra).
  assert (F2 : (normalizeBalance (Some b2) == b2 * (1 # 100000))%Q)
    by (apply normalizeBalance_below; lra).
  set (f1 := normalizeBalance (Some b1)) in *.
  set (f2 := normalizeBalance (Some b2)) in *. clearbody f1 f2.
  assert (H12 : (f1 < f2)%Q) by lra.
  assert (H1 : (0 <= f1)%Q) by lra.
  destruct (JS.ltb 0 f1) eqn:E1; destruct (JS.ltb 0 f2) eqn:E2;
    try apply JS.ltb_lt in E1; try apply JS.ltb_ge in E1;
    try apply JS.ltb_lt in E2; try apply JS.ltb_ge in E2.
  - now apply Qmult_lt_compat_r.
  - exfalso. lra.
  - now apply Qmult_lt_0_compat.
  - exfalso. lra.
Qed.

Lemma factorDownloads_score inputs weights st :
  acc_score (factorDownloads inputs weights st) = acc_score st.
Proof. unfold factorDownloads. now destruct (JS.ltb 0 _). Qed.

Lemma factorDependents_score inputs weights st :
  acc_score (factorDependents inputs weights st) = acc_score st.
Proof. unfold factorDependents. now destruct (JS.ltb 0 _). Qed.

Lemma factorBalance_score inputs weights b st :
  (acc_score (factorBalance (withBalance inputs b) weights st)
   == acc_score st + balanceGain b weights)%Q.
Proof.
  unfold factorBalance, balanceGain. cbn [ocBalance withBalance]. cbv zeta.
  destruct (JS.ltb 0 _); cbn [bump push acc_score]; [reflexivity|].
  now rewrite Qplus_0_r.
Qed.

(** The steps after the balance do not read it; each moves the score by an
    amount of its own, so a difference between two scores goes through
    them unchanged. *)
Ltac shift_step :=
  cbn [withBalance weeklyDownloads dependentCount ocYearlyIncome
       githubSponsors maintainerCount daysSinceLastPublish aiDisruptionFlag];
  cbv zeta;
  repeat match goal with
  | |- context [if ?c then _ else _] => destruct c
  | |- context [match ?c with Some _ => _ | None => _ end] => destruct c
  end;
  cbn [bump push acc_score];
  repeat match goal with
  | |- context [(?a * ?b)%Q] =>
      let m := fresh "m" in set (m := (a * b)%Q) in *; clearbody m
  | |- context [(?a / ?b)%Q] =>
      let m := fresh "m" in set (m := (a / b)%Q) in *; clearbody m
  end;
  lra.

Lemma factorIncome_shift inputs weights b1 b2 st1 st2 c :
  (acc_score st2 == acc_score st1 + c ->
   acc_score (factorIncome (withBalance inputs b2) weights st2)
   == acc_score (factorIncome (withBalance inputs b1) weights st1) + c)%Q.
Proof. intro H. unfold factorIncome. shift_step. Qed.

Lemma factorSponsors_shift inputs weights b1 b2 st1 st2 c :
  (acc_score st2 == acc_score st1 + c ->
   acc_score (factorSponsors (withBalance inputs b2) weights st2)
   == acc_score (factorSponsors (withBalance inputs b1) weights st1) + c)%Q.
Proof. intro H. unfold factorSponsors. shift_step. Qed.

Lemma factorMaintainers_shift inputs weights b1 b2 st1 st2 c :
  (acc_score st2 == acc_score st1 + c ->
   acc_score (factorMaintainers (withBalance inputs b2) weights st2)
   == acc_score (factorMaintainers (withBalance inputs b1) weights st1) + c)%Q.
Proof. intro H. unfold factorMaintainers. shift_step. Qed.

Lemma factorActivity_shift inputs weights b1 b2 st1 st2 c :
  (acc_score st2 == acc_score st1 + c ->
   acc_score (factorActivity (withBalance inputs b2) weights st2)
   == acc_score (factorActivity (withBalance inputs b1) weights st1) + c)%Q.
Proof. intro H. unfold factorActivity. shift_step. Qed.

Lemma factorAiDisruption_shift inputs weights b1 b2 st1 st2 c :
  (acc_score st2 == acc_score st1 + c ->
   acc_score (factorAiDisruption (withBalance inputs b2) weights st2)
   == acc_score (factorAiDisruption (withBalance inputs b1) weights st1) + c)%Q.
Proof. intro H. unfold factorAiDisruption. shift_step. Qed.

(** Before the ecosystem importance is applied, two balances give scores
    that differ by the difference of their gains. *)
Lemma signals_balance inputs weights b1 b2 :
  (acc_score (signals (withBalance inputs b2) weights)
   == acc_score (signals (withBalance inputs b1) weights)
      + (balanceGain b2 weights - balanceGain b1 weights))%Q.
Proof.
  unfold signals. cbv zeta.
  apply factorAiDisruption_shift, factorActivity_shift,
    factorMaintainers_shift, factorSponsors_shift, factorIncome_shift.
  rewrite !factorBalance_score, !factorDependents_score,
    !factorDownloads_score.
  cbn [acc_score]. lra.
Qed.

(** The importance penalty only applies below 60 and only lowers the
    score, so it keeps the order of two scores. *)
Lemma factorImportance_mono inputs1 inputs2 st1 st2 :
  ecosystemImportance inputs1 = ecosystemImportance inputs2 ->
  (acc_score st1 <= acc_score st2 ->
   acc_score (factorImportance inputs1 st1)
   <= acc_score (factorImportance inputs2 st2))%Q.
Proof.
  intros He Hle. unfold factorImportance. rewrite He.
  set (e := ecosystemImportance inputs2). clearbody e.
  destruct (JS.ltb (3 # 10) e) eqn:E; cbn [andb]; [|exact Hle].
  apply JS.ltb_lt in E.
  destruct (JS.ltb (acc_score st1) 60) eqn:E1;
    destruct (JS.ltb (acc_score st2) 60) eqn:E2;
    cbn [bump push acc_score];
    try apply JS.ltb_lt in E1; try apply JS.ltb_ge in E1;
    try apply JS.ltb_lt in E2; try apply JS.ltb_ge in E2; lra.
Qed.

Lemma factorImportance_strict inputs1 inputs2 st1 st2 :
  ecosystemImportance inputs1 = ecosystemImportance inputs2 ->
  (acc_score st1 < acc_score st2 ->
   acc_score (factorImportance inputs1 st1)
   < acc_score (factorImportance inputs2 st2))%Q.
Proof.
  intros He Hlt. unfold factorImportance. rewrite He.
  set (e := ecosystemImportance inputs2). clearbody e.
  destruct (JS.ltb (3 # 10) e) eqn:E; cbn [andb]; [|exact Hlt].
  apply JS.ltb_lt in E.
  destruct (JS.ltb (acc_score st1) 60) eqn:E1;
    destruct (JS.ltb (acc_score st2) 60) eqn:E2;
    cbn [bump push acc_score];
    try apply JS.ltb_lt in E1; try apply JS.ltb_ge in E1;
    try apply JS.ltb_lt in E2; try apply JS.ltb_ge in E2; lra.
Qed.

Lemma clamp_mono (x y : Q) : (x <= y -> clamp x <= clamp y)%Q.
Proof.
  intro H. unfold clamp.
  now apply JS.max_mono_r, JS.min_mono_r, JS.round_mono.
Qed.

Lemma clamp_comp (x y : Q) : (x == y)%Q -> clamp x = clamp y.
Proof.
  intro H. unfold clamp, JS.round.
  assert (Hf : Qfloor (x + (1 # 2)) = Qfloor (y + (1 # 2)))
    by (apply Qfloor_comp; now rewrite H).
  now rewrite Hf.
Qed.

Lemma accumulate_balance_mono inputs weights b1 b2 :
  (0 <= Weights.ocBalance weights -> b1 <= b2 ->
   acc_score (accumulate (withBalance inputs b1) weights)
   <= acc_score (accumulate (withBalance inputs b2) weights))%Q.
Proof.
  intros Hw Hle. unfold accumulate.
  apply factorImportance_mono; [reflexivity|].
  rewrite (signals_balance inputs weights b1 b2).
  pose proof (balanceGain_mono b1 b2 weights Hw Hle). lra.
Qed.

(** Up to the cap every increase of the balance is a strict increase of
    the score before it is rounded. *)
Lemma accumulate_balance_strict inputs weights b1 b2 :
  (0 < Weights.ocBalance weights -> 0 <= b1 -> b1 < b2 -> b2 <= 100000 ->
   acc_score (accumulate (withBalance inputs b1) weights)
   < acc_score (accumulate (withBalance inputs b2) weights))%Q.
Proof.
  intros Hw H0 Hlt Hcap. unfold accumulate.
  apply factorImportance_strict; [reflexivity|].
  rewrite (signals_balance inputs weights b1 b2).
  pose proof (balanceGain_strict b1 b2 weights Hw H0 Hlt Hcap). lra.
Qed.

Lemma accumulate_balance_cap inputs weights b1 b2 :
  (100000 <= b1 -> 100000 <= b2 ->
   acc_score (accumulate (withBalance inputs b1) weights)
   == acc_score (accumulate (withBalance inputs b2) weights))%Q.
Proof.
  intros H1 H2.
  assert (Hs : (acc_score (signals (withBalance inputs b2) weights)
                == acc_score (signals (withBalance inputs b1) weights))%Q).
  { rewrite (signals_balance inputs weights b1 b2). unfold balanceGain.
    rewrite (normalizeBalance_cap b1 H1), (normalizeBalance_cap b2 H2).
    cbv zeta. lra. }
  unfold accumulate. apply Qle_antisym;
    (apply factorImportance_mono; [reflexivity | rewrite Hs; apply Qle_refl]).
Qed.

(** *** The score in closed form *)

(** What each signal adds to the score, or takes from it. *)
Definition gainBalance (inputs : ScoringInputs) (weights : ScoringWeights)
  : Q :=
  let balanceFactor := normalizeBalance (ocBalance inputs) in
  if JS.ltb 0 balanceFactor
  then balanceFactor * Weights.ocBalance weights
  else 0.

Definition gainIncome (inputs : ScoringInputs) (weights : ScoringWeights)
  : Q :=
  let incomeFactor := normalizeIncome (ocYearlyIncome inputs) in
  if JS.ltb 0 incomeFactor
  then incomeFactor * Weights.ocIncome weights
  else 0.

Definition gainSponsors (inputs : ScoringInputs) (weights : ScoringWeights)
  : Q :=
  if JS.truthy_bool (githubSponsors inputs)
  then Weights.githubSponsors weights
  else 0.

Definition gainMaintainers (inputs : ScoringInputs) (weights : ScoringWeights)
  : Q :=
  let count := JS.nullish (maintainerCount inputs) 0 in
  if JS.truthy_num (maintainerCount inputs) && JS.ltb 1 count
  then JS.min 1 ((count - 1) / 4) * Weights.maintainerCount weights
  else
    match maintainerCount inputs with
    | Some c =>
        if Qeq_bool c 1 then - (Weights.maintainerCount weights / 2) else 0
    | None => 0
    end.

Definition lossActivity (inputs : ScoringInputs) (weights : ScoringWeights)
  : Q :=
  let days := JS.nullish (daysSinceLastPublish inputs) 0 in
  if JS.truthy_num (daysSinceLastPublish inputs) && JS.ltb 365 days
  then JS.min 1 ((days - 365) / 730) * Weights.activityPenalty weights
  else 0.

Definition lossAi (inputs : ScoringInputs) (weights : ScoringWeights) : Q :=
  if JS.truthy_bool (aiDisruptionFlag inputs)
  then Weights.aiDisruption weights
  else 0.

Ltac gain_step :=
  cbv zeta;
  repeat match goal with
  | |- context [if ?c then _ else _] => destruct c
  | |- context [match ?c with Some _ => _ | None => _ end] => destruct c
  end;
  cbn [bump push acc_score];
  repeat match goal with
  | |- context [(?a * ?b)%Q] =>
      let m := fresh "m" in set (m := (a * b)%Q) in *; clearbody m
  | |- context [(?a / ?b)%Q] =>
      let m := fresh "m" in set (m := (a / b)%Q) in *; clearbody m
  end;
  lra.

Lemma factorBalance_gain inputs weights st :
  (acc_score (factorBalance inputs weights st)
   == acc_score st + gainBalance inputs weights)%Q.
Proof. unfold factorBalance, gainBalance. gain_step. Qed.

Lemma factorIncome_gain inputs weights st :
  (acc_score (factorIncome inputs weights st)
   == acc_score st + gainIncome inputs weights)%Q.
Proof. unfold factorIncome, gainIncome. gain_step. Qed.

Lemma factorSponsors_gain inputs weights st :
  (acc_score (factorSponsors inputs weights st)
   == acc_score st + gainSponsors inputs weights)%Q.
Proof. unfold factorSponsors, gainSponsors. gain_step. Qed.

Lemma factorMaintainers_gain inputs weights st :
  (acc_score (factorMaintainers inputs weights st)
   == acc_score st + gainMaintainers inputs weights)%Q.
Proof. unfold factorMaintainers, gainMaintainers. gain_step. Qed.

Lemma factorActivity_loss inputs weights st :
  (acc_score (factorActivity inputs weights st)
   == acc_score st - lossActivity inputs weights)%Q.
Proof. unfold factorActivity, lossActivity. gain_step. Qed.

Lemma factorAiDisruption_loss inputs weights st :
  (acc_score (factorAiDisruption inputs weights st)
   == acc_score st - lossAi inputs weights)%Q.
Proof. unfold factorAiDisruption, lossAi. gain_step. Qed.

(** The score before the ecosystem importance is applied: 50 and what
    the funding and risk signals add and take.  The downloads and the
    dependents add nothing here. *)
Lemma signals_score inputs weights :
  (acc_score (signals inputs weights)
   == 50 + gainBalance inputs weights + gainIncome inputs weights
      + gainSponsors inputs weights + gainMaintainers inputs weights
      - lossActivity inputs weights - lossAi inputs weights)%Q.
Proof.
  unfold signals. cbv zeta.
  rewrite factorAiDisruption_loss, factorActivity_loss,
    factorMaintainers_gain, factorSponsors_gain, factorIncome_gain,
    factorBalance_gain, factorDependents_score, factorDownloads_score.
  cbn [acc_score]. ring.
Qed.

Lemma weightedPath_score inputs weights :
  weightedPath inputs ->
  score (calculateScore inputs weights)
  = clamp (acc_score (accumulate inputs weights)).
Proof.
  intros [Hstatus Hbacking]. unfold calculateScore.
  now rewrite Hstatus, Hbacking.
Qed.

(** Two inputs of the same ecosystem importance score in the order of
    their signals. *)
Lemma score_le_of_signals inputs1 inputs2 weights1 weights2 :
  weightedPath inputs1 -> weightedPath inputs2 ->
  ecosystemImportance inputs1 = ecosystemImportance inputs2 ->
  (acc_score (signals inputs1 weights1)
   <= acc_score (signals inputs2 weights2))%Q ->
  (score (calculateScore inputs1 weights1)
   <= score (calculateScore inputs2 weights2))%Q.
Proof.
  intros H1 H2 He Hle. rewrite !weightedPath_score by assumption.
  apply clamp_mono. unfold accumulate. now apply factorImportance_mono.
Qed.

Lemma score_eq_of_signals inputs1 inputs2 weights1 weights2 :
  weightedPath inputs1 -> weightedPath inputs2 ->
  ecosystemImportance inputs1 = ecosystemImportance inputs2 ->
  (acc_score (signals inputs1 weights1)
   == acc_score (signals inputs2 weights2))%Q ->
  score (calculateScore inputs1 weights1)
  = score (calculateScore inputs2 weights2).
Proof.
  intros H1 H2 He Heq. rewrite !weightedPath_score by assumption.
  apply clamp_comp. unfold accumulate.
  apply Qle_antisym; apply factorImportance_mono;
    try (rewrite Heq; apply Qle_refl); congruence.
Qed.

(** *** Invariants of the result *)

Lemma Qle_bool_cases (s t : Q) :
  (Qle_bool s t = true /\ (s <= t)%Q) \/ (Qle_bool s t = false /\ (t < s)%Q).
Proof.
  destruct (Qle_bool s t) eqn:E.
  - left. split; [reflexivity | now apply Qle_bool_iff].
  - right. split; [reflexivity|]. apply JS.ltb_lt. unfold JS.ltb.
    now rewrite E.
Qed.

Lemma category_band (inputs : ScoringInputs) (weights : ScoringWeights) :
  category (calculateScore inputs weights)
  = categoryOf (score (calculateScore inputs weights)).
Proof.
  unfold calculateScore.
  destruct (maintainerStatus inputs) as [status|].
  - now destruct status.
  - now destruct (JS.truthy_str (corporateBacking inputs)).
Qed.

(** The category of a result is always the band of its score: on the
    weighted path by construction, on the two override paths because the
    fixed scores lie in the bands of their categories.  So the bands can
    be read off the result: a score of at most 30 is critical, and a
    critical result has a score of at most 30. *)
Theorem category_is_band_of_score
    (inputs : ScoringInputs) (weights : ScoringWeights) :
  category (calculateScore inputs weights)
  = categoryOf (score (calculateScore inputs weights)) /\
  (category (calculateScore inputs weights) = critical
   <-> (score (calculateScore inputs weights) <= 30)%Q) /\
  (category (calculateScore inputs weights) = corporate
   <-> (90 < score (calculateScore inputs weights))%Q).
Proof.
  rewrite category_band.
  set (s := score (calculateScore inputs weights)). clearbody s.
  split; [reflexivity|].
  unfold categoryOf, CATEGORY_THRESHOLDS.critical,
    CATEGORY_THRESHOLDS.needsSupport, CATEGORY_THRESHOLDS.stable,
    CATEGORY_THRESHOLDS.thriving.
  destruct (Qle_bool_cases s 30) as [[E30 H30]|[E30 H30]];
    destruct (Qle_bool_cases s 50) as [[E50 H50]|[E50 H50]];
    destruct (Qle_bool_cases s 75) as [[E75 H75]|[E75 H75]];
    destruct (Qle_bool_cases s 90) as [[E90 H90]|[E90 H90]];
    rewrite E30, ?E50, ?E75, ?E90;
    (split; split; intro H;
     first [discriminate H | reflexivity | assumption | exfalso; lra]).
Qed.

(** The weights that only label factors: two weight sets that agree on
    the six weights of the funding and risk signals. *)
Definition sameScoringWeights (w1 w2 : ScoringWeights) : Prop :=
  Weights.ocBalance w1 = Weights.ocBalance w2 /\
  Weights.ocIncome w1 = Weights.ocIncome w2 /\
  Weights.githubSponsors w1 = Weights.githubSponsors w2 /\
  Weights.maintainerCount w1 = Weights.maintainerCount w2 /\
  Weights.activityPenalty w1 = Weights.activityPenalty w2 /\
  Weights.aiDisruption w1 = Weights.aiDisruption w2.

(** The weights [downloads], [dependents] and [corporateBacking] never
    reach the score: they weigh the factors that are recorded, and so the
    order of the explanation, but the score and the category are the same
    for any values of them. *)
Theorem score_ignores_informational_weights
    (inputs : ScoringInputs) (w1 w2 : ScoringWeights)
    (Hsame : sameScoringWeights w1 w2) :
  score (calculateScore inputs w1) = score (calculateScore inputs w2) /\
  category (calculateScore inputs w1) = category (calculateScore inputs w2).
Proof.
  assert (Hscore : score (calculateScore inputs w1)
                   = score (calculateScore inputs w2)).
  { destruct (maintainerStatus inputs) as [status|] eqn:Hstatus.
    { unfold calculateScore. now rewrite Hstatus. }
    destruct (JS.truthy_str (corporateBacking inputs)) eqn:Hbacking.
    { unfold calculateScore. now rewrite Hstatus, Hbacking. }
    destruct Hsame as (H1 & H2 & H3 & H4 & H5 & H6).
    apply score_eq_of_signals;
      [split; assumption | split; assumption | reflexivity |].
    rewrite !signals_score.
    unfold gainBalance, gainIncome, gainSponsors, gainMaintainers,
      lossActivity, lossAi.
    rewrite H1, H2, H3, H4, H5, H6. reflexivity. }
  split; [exact Hscore|].
  rewrite !category_band. now rewrite Hscore.
Qed.

(** Inputs that carry no signal: every field is missing, zero, false or
    empty. *)
Definition noSignal (inputs : ScoringInputs) : Prop :=
  JS.truthy_num (weeklyDownloads inputs) = false /\
  JS.truthy_num (dependentCount inputs) = false /\
  JS.truthy_num (ocBalance inputs) = false /\
  JS.truthy_num (ocYearlyIncome inputs) = false /\
  JS.truthy_bool (githubSponsors inputs) = false /\
  JS.truthy_str (corporateBacking inputs) = false /\
  JS.truthy_num (maintainerCount inputs) = false /\
  JS.truthy_num (daysSinceLastPublish inputs) = false /\
  JS.truthy_bool (aiDisruptionFlag inputs) = false /\
  maintainerStatus inputs = None.

(** Without any signal the result is the neutral one, whatever the
    weights: score 50, which is in the needs-support band, no factor and
    no explanation. *)
Theorem no_signal_is_neutral
    (inputs : ScoringInputs) (weights : ScoringWeights)
    (Hnone : noSignal inputs) :
  calculateScore inputs weights
  = {| score := 50; category := needs_support;
       explanation := []; factors := [] |}.
Proof.
  destruct Hnone as (Hd & Hp & Hb & Hi & Hs & Hc & Hm & Ha & Hf & Hst).
  assert (Hacc : accumulate inputs weights
                 = {| acc_factors := []; acc_score := 50 |}).
  { unfold accumulate, signals, factorDownloads, factorDependents,
      factorBalance, factorIncome, factorSponsors, factorMaintainers,
      factorActivity, factorAiDisruption, factorImportance,
      ecosystemImportance, normalizeDownloads, normalizeDependents,
      normalizeBalance, normalizeIncome.
    rewrite Hd, Hp, Hb, Hi, Hs, Hm, Ha, Hf. cbv zeta. cbn [andb].
    change (JS.ltb 0 0) with false. cbv iota.
    destruct (maintainerCount inputs) as [c|]; [|reflexivity].
    cbn [JS.truthy_num] in Hm. apply negb_false_iff in Hm.
    destruct (Qeq_bool c 1) eqn:E1; [|reflexivity].
    apply Qeq_bool_iff in Hm, E1. rewrite Hm in E1. discriminate. }
  unfold calculateScore. rewrite Hst, Hc. cbv zeta. rewrite Hacc.
  reflexivity.
Qed.

(** *** The maintainer count *)

(** The inputs with another maintainer count. *)
Definition withMaintainers (inputs : ScoringInputs) (c : Q) : ScoringInputs :=
  {| weeklyDownloads := weeklyDownloads inputs;
     dependentCount := dependentCount inputs;
     ocBalance := ocBalance inputs;
     ocYearlyIncome := ocYearlyIncome inputs;
     githubSponsors := githubSponsors inputs;
     corporateBacking := corporateBacking inputs;
     maintainerCount := Some c;
     daysSinceLastPublish := daysSinceLastPublish inputs;
     aiDisruptionFlag := aiDisruptionFlag inputs;
     maintainerStatus := maintainerStatus inputs |}.

(** The inputs with another number of days since the last release. *)
Definition withDays (inputs : ScoringInputs) (d : Q) : ScoringInputs :=
  {| weeklyDownloads := weeklyDownloads inputs;
     dependentCount := dependentCount inputs;
     ocBalance := ocBalance inputs;
     ocYearlyIncome := ocYearlyIncome inputs;
     githubSponsors := githubSponsors inputs;
     corporateBacking := corporateBacking inputs;
     maintainerCount := maintainerCount inputs;
     daysSinceLastPublish := Some d;
     aiDisruptionFlag := aiDisruptionFlag inputs;
     maintainerStatus := maintainerStatus inputs |}.

(** The inputs with the two flags set as given. *)
Definition withFlags (inputs : ScoringInputs) (sponsors ai : option bool)
  : ScoringInputs :=
  {| weeklyDownloads := weeklyDownloads inputs;
     dependentCount := dependentCount inputs;
     ocBalance := ocBalance inputs;
     ocYearlyIncome := ocYearlyIncome inputs;
     githubSponsors := sponsors;
     corporateBacking := corporateBacking inputs;
     maintainerCount := maintainerCount inputs;
     daysSinceLastPublish := daysSinceLastPublish inputs;
     aiDisruptionFlag := ai;
     maintainerStatus := maintainerStatus inputs |}.

Lemma min1_below (x : Q) : (x <= 1 -> JS.min 1 x == x)%Q.
Proof.
  intro H. unfold JS.min. destruct (Qle_bool 1 x) eqn:E; [|reflexivity].
  apply Qle_bool_iff in E. now apply Qle_antisym.
Qed.

Lemma min1_above (x : Q) : (1 <= x)%Q -> JS.min 1 x = 1%Q.
Proof.
  intro H. unfold JS.min. apply Qle_bool_iff in H. now rewrite H.
Qed.

Lemma min1_pos (x : Q) : (0 < x -> 0 < JS.min 1 x)%Q.
Proof. intro H. unfold JS.min. now destruct (Qle_bool 1 x). Qed.

(** A capped share of a weight grows with the share. *)
Lemma capped_mono (x y w : Q) :
  (0 <= w -> x <= y -> JS.min 1 x * w <= JS.min 1 y * w)%Q.
Proof.
  intros Hw Hxy. apply Qmult_le_compat_r; [|exact Hw].
  now apply JS.min_mono_r.
Qed.

Lemma capped_strict (x y w : Q) :
  (0 < w -> x < y -> y <= 1 -> JS.min 1 x * w < JS.min 1 y * w)%Q.
Proof.
  intros Hw Hxy Hy. apply Qmult_lt_compat_r; [exact Hw|].
  rewrite (min1_below x), (min1_below y); lra.
Qed.

Lemma truthy_num_pos (c : Q) : (0 < c)%Q -> JS.truthy_num (Some c) = true.
Proof.
  intro H. cbn [JS.truthy_num]. apply negb_true_iff.
  destruct (Qeq_bool c 0) eqn:E; [|reflexivity].
  apply Qeq_bool_iff in E. rewrite E in H. discriminate.
Qed.

(** The gain of a count of one or more. *)
Lemma gainMaintainers_value inputs weights (c : Q) :
  (1 <= c)%Q ->
  (gainMaintainers (withMaintainers inputs c) weights
   == if JS.ltb 1 c
      then JS.min 1 ((c - 1) / 4) * Weights.maintainerCount weights
      else - (Weights.maintainerCount weights / 2))%Q.
Proof.
  intro Hc. unfold gainMaintainers. cbn [maintainerCount withMaintainers].
  cbv zeta. cbn [JS.nullish].
  rewrite truthy_num_pos by lra. cbn [andb].
  destruct (JS.ltb 1 c) eqn:E; [reflexivity|].
  apply JS.ltb_ge in E.
  assert (H1 : (c == 1)%Q) by (now apply Qle_antisym).
  apply Qeq_bool_iff in H1. now rewrite H1.
Qed.

Lemma signals_maintainers inputs weights c1 c2 :
  (acc_score (signals (withMaintainers inputs c2) weights)
   == acc_score (signals (withMaintainers inputs c1) weights)
      + (gainMaintainers (withMaintainers inputs c2) weights
         - gainMaintainers (withMaintainers inputs c1) weights))%Q.
Proof.
  rewrite !signals_score.
  unfold gainBalance, gainIncome, gainSponsors, lossActivity, lossAi.
  cbn [withMaintainers ocBalance ocYearlyIncome githubSponsors
       daysSinceLastPublish aiDisruptionFlag]. ring.
Qed.

Lemma quarter_le (c1 c2 : Q) : (c1 <= c2 -> (c1 - 1) / 4 <= (c2 - 1) / 4)%Q.
Proof.
  intro H. unfold Qdiv. change (/ 4)%Q with (1 # 4)%Q. lra.
Qed.

Lemma gainMaintainers_mono inputs weights c1 c2 :
  (0 <= Weights.maintainerCount weights -> 1 <= c1 -> c1 <= c2 ->
   gainMaintainers (withMaintainers inputs c1) weights
   <= gainMaintainers (withMaintainers inputs c2) weights)%Q.
Proof.
  intros Hw H1 Hle.
  rewrite !gainMaintainers_value by lra.
  set (w := Weights.maintainerCount weights) in *.
  destruct (JS.ltb 1 c1) eqn:E1; destruct (JS.ltb 1 c2) eqn:E2;
    try apply JS.ltb_lt in E1; try apply JS.ltb_ge in E1;
    try apply JS.ltb_lt in E2; try apply JS.ltb_ge in E2.
  - apply capped_mono; [exact Hw | now apply quarter_le].
  - exfalso. lra.
  - assert (Hb : (0 <= JS.min 1 ((c2 - 1) / 4) * w)%Q).
    { apply Qmult_le_0_compat; [|exact Hw].
      apply Qlt_le_weak, min1_pos.
      unfold Qdiv. change (/ 4)%Q with (1 # 4)%Q. lra. }
    unfold Qdiv. change (/ 2)%Q with (1 # 2)%Q.
    set (m := (JS.min 1 _ * w)%Q) in *. clearbody m. lra.
  - apply Qle_refl.
Qed.

Lemma gainMaintainers_solo_strict inputs weights c :
  (0 < Weights.maintainerCount weights -> 1 < c ->
   gainMaintainers (withMaintainers inputs 1) weights
   < gainMaintainers (withMaintainers inputs c) weights)%Q.
Proof.
  intros Hw Hc.
  rewrite !gainMaintainers_value by lra.
  change (JS.ltb 1 1) with false. cbv iota.
  apply JS.ltb_lt in Hc. rewrite Hc. apply JS.ltb_lt in Hc.
  set (w := Weights.maintainerCount weights) in *.
  assert (Hb : (0 < JS.min 1 ((c - 1) / 4) * w)%Q).
  { apply Qmult_lt_0_compat; [|exact Hw]. apply min1_pos.
    unfold Qdiv. change (/ 4)%Q with (1 # 4)%Q. lra. }
  unfold Qdiv at 1. change (/ 2)%Q with (1 # 2)%Q.
  set (m := (JS.min 1 _ * w)%Q) in *. clearbody m. lra.
Qed.

Lemma gainMaintainers_cap inputs weights c :
  (5 <= c)%Q ->
  (gainMaintainers (withMaintainers inputs c) weights
   == 1 * Weights.maintainerCount weights)%Q.
Proof.
  intro Hc. rewrite gainMaintainers_value by lra.
  assert (H1 : JS.ltb 1 c = true) by (apply JS.ltb_lt; lra).
  rewrite H1, min1_above; [reflexivity|].
  unfold Qdiv. change (/ 4)%Q with (1 # 4)%Q. lra.
Qed.

(** On the weighted path, all other inputs fixed: from one maintainer on,
    more maintainers never lower the score (the weight being a magnitude);
    a single maintainer scores strictly less, before rounding, than any
    larger count; and from five maintainers on the score no longer moves,
    whatever the weights. *)
Theorem maintainerCount_bonus_capped
    (inputs : ScoringInputs) (weights : ScoringWeights)
    (Hpath : weightedPath inputs) :
  (forall c1 c2,
     (0 <= Weights.maintainerCount weights)%Q -> (1 <= c1)%Q -> (c1 <= c2)%Q ->
     (score (calculateScore (withMaintainers inputs c1) weights)
      <= score (calculateScore (withMaintainers inputs c2) weights))%Q) /\
  (forall c,
     (0 < Weights.maintainerCount weights)%Q -> (1 < c)%Q ->
     (acc_score (accumulate (withMaintainers inputs 1) weights)
      < acc_score (accumulate (withMaintainers inputs c) weights))%Q) /\
  (forall c1 c2,
     (5 <= c1)%Q -> (5 <= c2)%Q ->
     score (calculateScore (withMaintainers inputs c1) weights)
     = score (calculateScore (withMaintainers inputs c2) weights)).
Proof.
  assert (Hp : forall c, weightedPath (withMaintainers inputs c))
    by (intro c; exact Hpath).
  split; [|split].
  - intros c1 c2 Hw H1 Hle.
    apply score_le_of_signals; [apply Hp | apply Hp | reflexivity |].
    rewrite (signals_maintainers inputs weights c1 c2).
    pose proof (gainMaintainers_mono inputs weights c1 c2 Hw H1 Hle). lra.
  - intros c Hw Hc. unfold accumulate.
    apply factorImportance_strict; [reflexivity|].
    rewrite (signals_maintainers inputs weights 1 c).
    pose proof (gainMaintainers_solo_strict inputs weights c Hw Hc). lra.
  - intros c1 c2 H1 H2.
    apply score_eq_of_signals; [apply Hp | apply Hp | reflexivity |].
    rewrite (signals_maintainers inputs weights c2 c1).
    rewrite !gainMaintainers_cap by assumption. ring.
Qed.

(** *** Inactivity *)

Lemma lossActivity_value inputs weights (d : Q) :
  (lossActivity (withDays inputs d) weights
   == if JS.ltb 365 d
      then JS.min 1 ((d - 365) / 730) * Weights.activityPenalty weights
      else 0)%Q.
Proof.
  unfold lossActivity. cbn [daysSinceLastPublish withDays]. cbv zeta.
  cbn [JS.nullish].
  destruct (JS.ltb 365 d) eqn:E.
  - apply JS.ltb_lt in E. rewrite truthy_num_pos by lra. reflexivity.
  - rewrite andb_false_r. reflexivity.
Qed.

Lemma signals_days inputs weights d1 d2 :
  (acc_score (signals (withDays inputs d2) weights)
   == acc_score (signals (withDays inputs d1) weights)
      - (lossActivity (withDays inputs d2) weights
         - lossActivity (withDays inputs d1) weights))%Q.
Proof.
  rewrite !signals_score.
  unfold gainBalance, gainIncome, gainSponsors, gainMaintainers, lossAi.
  cbn [withDays ocBalance ocYearlyIncome githubSponsors maintainerCount
       aiDisruptionFlag]. ring.
Qed.

Lemma late_le (d1 d2 : Q) :
  (d1 <= d2 -> (d1 - 365) / 730 <= (d2 - 365) / 730)%Q.
Proof.
  intro H. unfold Qdiv. change (/ 730)%Q with (1 # 730)%Q. lra.
Qed.

Lemma lossActivity_mono inputs weights d1 d2 :
  (0 <= Weights.activityPenalty weights -> d1 <= d2 ->
   lossActivity (withDays inputs d1) weights
   <= lossActivity (withDays inputs d2) weights)%Q.
Proof.
  intros Hw Hle. rewrite !lossActivity_value.
  set (w := Weights.activityPenalty weights) in *.
  destruct (JS.ltb 365 d1) eqn:E1; destruct (JS.ltb 365 d2) eqn:E2;
    try apply JS.ltb_lt in E1; try apply JS.ltb_ge in E1;
    try apply JS.ltb_lt in E2; try apply JS.ltb_ge in E2.
  - apply capped_mono; [exact Hw | now apply late_le].
  - exfalso. lra.
  - apply Qmult_le_0_compat; [|exact Hw].
    apply Qlt_le_weak, min1_pos.
    unfold Qdiv. change (/ 730)%Q with (1 # 730)%Q. lra.
  - apply Qle_refl.
Qed.

Lemma lossActivity_strict inputs weights d1 d2 :
  (0 < Weights.activityPenalty weights ->
   365 <= d1 -> d1 < d2 -> d2 <= 1095 ->
   lossActivity (withDays inputs d1) weights
   < lossActivity (withDays inputs d2) weights)%Q.
Proof.
  intros Hw H1 Hlt H2. rewrite !lossActivity_value.
  set (w := Weights.activityPenalty weights) in *.
  assert (E2 : JS.ltb 365 d2 = true) by (apply JS.ltb_lt; lra).
  rewrite E2.
  destruct (JS.ltb 365 d1) eqn:E1.
  - apply capped_strict; [exact Hw | |];
      unfold Qdiv; change (/ 730)%Q with (1 # 730)%Q; lra.
  - apply Qmult_lt_0_compat; [|exact Hw]. apply min1_pos.
    unfold Qdiv. change (/ 730)%Q with (1 # 730)%Q. lra.
Qed.

Lemma lossActivity_none inputs weights d :
  (d <= 365 -> lossActivity (withDays inputs d) weights == 0)%Q.
Proof.
  intro H. rewrite lossActivity_value.
  assert (E : JS.ltb 365 d = false) by (now apply JS.ltb_ge).
  now rewrite E.
Qed.

Lemma lossActivity_cap inputs weights d :
  (1095 <= d ->
   lossActivity (withDays inputs d) weights
   == 1 * Weights.activityPenalty weights)%Q.
Proof.
  intro H. rewrite lossActivity_value.
  assert (E : JS.ltb 365 d = true) by (apply JS.ltb_lt; lra).
  rewrite E, min1_above; [reflexivity|].
  unfold Qdiv. change (/ 730)%Q with (1 # 730)%Q. lra.
Qed.

(** On the weighted path, all other inputs fixed: a release within the
    last 365 days costs nothing; beyond that the score never rises with
    the days (the penalty weight being a magnitude) and, before rounding,
    falls strictly until day 1095; from day 1095 on, the full penalty, the
    score no longer moves. *)
Theorem inactivity_penalty_capped
    (inputs : ScoringInputs) (weights : ScoringWeights)
    (Hpath : weightedPath inputs) :
  (forall d1 d2,
     (0 <= Weights.activityPenalty weights)%Q -> (d1 <= d2)%Q ->
     (score (calculateScore (withDays inputs d2) weights)
      <= score (calculateScore (withDays inputs d1) weights))%Q) /\
  (forall d1 d2,
     (d1 <= 365)%Q -> (d2 <= 365)%Q ->
     score (calculateScore (withDays inputs d1) weights)
     = score (calculateScore (withDays inputs d2) weights)) /\
  (forall d1 d2,
     (0 < Weights.activityPenalty weights)%Q ->
     (365 <= d1)%Q -> (d1 < d2)%Q -> (d2 <= 1095)%Q ->
     (acc_score (accumulate (withDays inputs d2) weights)
      < acc_score (accumulate (withDays inputs d1) weights))%Q) /\
  (forall d1 d2,
     (1095 <= d1)%Q -> (1095 <= d2)%Q ->
     score (calculateScore (withDays inputs d1) weights)
     = score (calculateScore (withDays inputs d2) weights)).
Proof.
  assert (Hp : forall d, weightedPath (withDays inputs d))
    by (intro d; exact Hpath).
  split; [|split; [|split]].
  - intros d1 d2 Hw Hle.
    apply score_le_of_signals; [apply Hp | apply Hp | reflexivity |].
    rewrite (signals_days inputs weights d1 d2).
    pose proof (lossActivity_mono inputs weights d1 d2 Hw Hle). lra.
  - intros d1 d2 H1 H2.
    apply score_eq_of_signals; [apply Hp | apply Hp | reflexivity |].
    rewrite (signals_days inputs weights d2 d1).
    rewrite !lossActivity_none by assumption. ring.
  - intros d1 d2 Hw H1 Hlt H2. unfold accumulate.
    apply factorImportance_strict; [reflexivity|].
    rewrite (signals_days inputs weights d1 d2).
    pose proof (lossActivity_strict inputs weights d1 d2 Hw H1 Hlt H2). lra.
  - intros d1 d2 H1 H2.
    apply score_eq_of_signals; [apply Hp | apply Hp | reflexivity |].
    rewrite (signals_days inputs weights d2 d1).
    rewrite !lossActivity_cap by assumption. ring.
Qed.

(** *** The two flags *)

Lemma signals_flags inputs weights s1 a1 s2 a2 :
  (acc_score (signals (withFlags inputs s2 a2) weights)
   == acc_score (signals (withFlags inputs s1 a1) weights)
      + (gainSponsors (withFlags inputs s2 a2) weights
         - gainSponsors (withFlags inputs s1 a1) weights)
      - (lossAi (withFlags inputs s2 a2) weights
         - lossAi (withFlags inputs s1 a1) weights))%Q.
Proof.
  rewrite !signals_score.
  unfold gainBalance, gainIncome, gainMaintainers, lossActivity.
  cbn [withFlags ocBalance ocYearlyIncome maintainerCount
       daysSinceLastPublish]. ring.
Qed.

(** On the weighted path, all other inputs fixed and the weights being
    magnitudes: having GitHub Sponsors never lowers the score, and the AI
    disruption flag never raises it. *)
Theorem flags_direction
    (inputs : ScoringInputs) (weights : ScoringWeights)
    (sponsors ai : option bool)
    (Hpath : weightedPath inputs) :
  ((0 <= Weights.githubSponsors weights)%Q ->
   (score (calculateScore (withFlags inputs sponsors ai) weights)
    <= score (calculateScore (withFlags inputs (Some true) ai) weights))%Q) /\
  ((0 <= Weights.aiDisruption weights)%Q ->
   (score (calculateScore (withFlags inputs sponsors (Some true)) weights)
    <= score (calculateScore (withFlags inputs sponsors ai) weights))%Q).
Proof.
  assert (Hp : forall s a, weightedPath (withFlags inputs s a))
    by (intros s a; exact Hpath).
  split; intro Hw.
  - apply score_le_of_signals; [apply Hp | apply Hp | reflexivity |].
    rewrite (signals_flags inputs weights sponsors ai (Some true) ai).
    unfold gainSponsors, lossAi.
    cbn [withFlags githubSponsors aiDisruptionFlag JS.truthy_bool].
    destruct (JS.truthy_bool sponsors); lra.
  - apply score_le_of_signals; [apply Hp | apply Hp | reflexivity |].
    rewrite (signals_flags inputs weights sponsors (Some true) sponsors ai).
    unfold gainSponsors, lossAi.
    cbn [withFlags githubSponsors aiDisruptionFlag JS.truthy_bool].
    destruct (JS.truthy_bool ai); lra.
Qed.

(** *** Which factors are recorded *)

(** The name a step records, if its test passes. *)
Definition named (test : bool) (n : string) : list string :=
  if test then [n] else [].

(** The names of the factors of the weighted path, step by step. *)
Definition factorNames (inputs : ScoringInputs) (weights : ScoringWeights)
  : list string :=
  (named (JS.ltb 0 (normalizeDownloads (weeklyDownloads inputs)))
     "Weekly Downloads"
   ++ named (JS.ltb 0 (normalizeDependents (dependentCount inputs)))
        "Dependent Packages"
   ++ named (JS.ltb 0 (normalizeBalance (ocBalance inputs))) "OC Balance"
   ++ named (JS.ltb 0 (normalizeIncome (ocYearlyIncome inputs))) "OC Income"
   ++ named (JS.truthy_bool (githubSponsors inputs)) "GitHub Sponsors"
   ++ named (JS.truthy_num (maintainerCount inputs)
             && JS.ltb 1 (JS.nullish (maintainerCount inputs) 0))
        "Maintainer Count"
   ++ named (negb (JS.truthy_num (maintainerCount inputs)
                   && JS.ltb 1 (JS.nullish (maintainerCount inputs) 0))
             && match maintainerCount inputs with
                | Some c => Qeq_bool c 1
                | None => false
                end)
        "Solo Maintainer"
   ++ named (JS.truthy_num (daysSinceLastPublish inputs)
             && JS.ltb 365 (JS.nullish (daysSinceLastPublish inputs) 0))
        "Inactivity"
   ++ named (JS.truthy_bool (aiDisruptionFlag inputs)) "AI Disruption"
   ++ named (JS.ltb (3 # 10) (ecosystemImportance inputs)
             && JS.ltb (acc_score (signals inputs weights)) 60)
        "High Impact, Low Funding")%list.

Ltac names_of_step :=
  cbv zeta; unfold named;
  repeat match goal with
  | |- context [if ?c then _ else _] => destruct c
  | |- context [match ?c with Some _ => _ | None => _ end] => destruct c
  end;
  cbn [bump push acc_factors negb andb app];
  rewrite ?map_app, ?app_nil_r; reflexivity.

Lemma factorDownloads_names inputs weights st :
  map name (acc_factors (factorDownloads inputs weights st))
  = (map name (acc_factors st)
     ++ named (JS.ltb 0 (normalizeDownloads (weeklyDownloads inputs)))
          "Weekly Downloads")%list.
Proof. unfold factorDownloads. names_of_step. Qed.

Lemma factorDependents_names inputs weights st :
  map name (acc_factors (factorDependents inputs weights st))
  = (map name (acc_factors st)
     ++ named (JS.ltb 0 (normalizeDependents (dependentCount inputs)))
          "Dependent Packages")%list.
Proof. unfold factorDependents. names_of_step. Qed.

Lemma factorBalance_names inputs weights st :
  map name (acc_factors (factorBalance inputs weights st))
  = (map name (acc_factors st)
     ++ named (JS.ltb 0 (normalizeBalance (ocBalance inputs)))
          "OC Balance")%list.
Proof. unfold factorBalance. names_of_step. Qed.

Lemma factorIncome_names inputs weights st :
  map name (acc_factors (factorIncome inputs weights st))
  = (map name (acc_factors st)
     ++ named (JS.ltb 0 (normalizeIncome (ocYearlyIncome inputs)))
          "OC Income")%list.
Proof. unfold factorIncome. names_of_step. Qed.

Lemma factorSponsors_names inputs weights st :
  map name (acc_factors (factorSponsors inputs weights st))
  = (map name (acc_factors st)
     ++ named (JS.truthy_bool (githubSponsors inputs))
          "GitHub Sponsors")%list.
Proof. unfold factorSponsors. names_of_step. Qed.

Lemma factorMaintainers_names inputs weights st :
  map name (acc_factors (factorMaintainers inputs weights st))
  = (map name (acc_factors st)
     ++ named (JS.truthy_num (maintainerCount inputs)
               && JS.ltb 1 (JS.nullish (maintainerCount inputs) 0))
          "Maintainer Count"
     ++ named (negb (JS.truthy_num (maintainerCount inputs)
                     && JS.ltb 1 (JS.nullish (maintainerCount inputs) 0))
               && match maintainerCount inputs with
                  | Some c => Qeq_bool c 1
                  | None => false
                  end)
          "Solo Maintainer")%list.
Proof.
  unfold factorMaintainers. cbv zeta. unfold named.
  destruct (JS.truthy_num (maintainerCount inputs)
            && JS.ltb 1 (JS.nullish (maintainerCount inputs) 0))%bool.
  - cbn [bump push acc_factors negb andb app]. now rewrite map_app.
  - cbn [negb andb app].
    destruct (maintainerCount inputs) as [c|]; [|now rewrite app_nil_r].
    destruct (Qeq_bool c 1).
    + cbn [bump push acc_factors]. now rewrite map_app.
    + now rewrite app_nil_r.
Qed.

Lemma factorActivity_names inputs weights st :
  map name (acc_factors (factorActivity inputs weights st))
  = (map name (acc_factors st)
     ++ named (JS.truthy_num (daysSinceLastPublish inputs)
               && JS.ltb 365 (JS.nullish (daysSinceLastPublish inputs) 0))
          "Inactivity")%list.
Proof. unfold factorActivity. names_of_step. Qed.

Lemma factorAiDisruption_names inputs weights st :
  map name (acc_factors (factorAiDisruption inputs weights st))
  = (map name (acc_factors st)
     ++ named (JS.truthy_bool (aiDisruptionFlag inputs))
          "AI Disruption")%list.
Proof. unfold factorAiDisruption. names_of_step. Qed.

Lemma factorImportance_names inputs st :
  map name (acc_factors (factorImportance inputs st))
  = (map name (acc_factors st)
     ++ named (JS.ltb (3 # 10) (ecosystemImportance inputs)
               && JS.ltb (acc_score st) 60)
          "High Impact, Low Funding")%list.
Proof. unfold factorImportance. names_of_step. Qed.

Lemma accumulate_factorNames inputs weights :
  map name (acc_factors (accumulate inputs weights))
  = factorNames inputs weights.
Proof.
  unfold accumulate. rewrite factorImportance_names.
  unfold signals at 1. cbv zeta.
  rewrite factorAiDisruption_names, factorActivity_names,
    factorMaintainers_names, factorSponsors_names, factorIncome_names,
    factorBalance_names, factorDependents_names, factorDownloads_names.
  cbn [acc_factors map]. unfold factorNames.
  rewrite <- !app_assoc. reflexivity.
Qed.

Lemma weightedPath_factors inputs weights :
  weightedPath inputs ->
  factors (calculateScore inputs weights)
  = acc_factors (accumulate inputs weights).
Proof.
  intros [Hstatus Hbacking]. unfold calculateScore.
  now rewrite Hstatus, Hbacking.
Qed.

Lemma In_named (x : string) (test : bool) (n : string) :
  In x (named test n) <-> test = true /\ n = x.
Proof.
  unfold named. destruct test; simpl.
  - split; [intros [H|[]]; auto | intros [_ H]; auto].
  - split; [intros [] | intros [H _]; discriminate].
Qed.

(** On the weighted path an "Inactivity" factor is recorded exactly when
    the last release is more than 365 days old; a release of 365 days ago
    or less, or no date at all, records none. *)
Theorem inactivity_factor_iff
    (inputs : ScoringInputs) (weights : ScoringWeights)
    (Hpath : weightedPath inputs) :
  In "Inactivity" (map name (factors (calculateScore inputs weights)))
  <-> exists d, daysSinceLastPublish inputs = Some d /\ (365 < d)%Q.
Proof.
  rewrite (weightedPath_factors _ _ Hpath), accumulate_factorNames.
  transitivity (JS.truthy_num (daysSinceLastPublish inputs)
                && JS.ltb 365 (JS.nullish (daysSinceLastPublish inputs) 0)
                = true).
  - unfold factorNames. rewrite !in_app_iff, !In_named.
    split.
    + intros H.
      repeat match type of H with
      | _ \/ _ => destruct H as [H|H]
      end;
      try (destruct H as [_ H]; discriminate H).
      exact (proj1 H).
    + intros H. do 7 right. left. split; [exact H | reflexivity].
  - rewrite andb_true_iff.
    destruct (daysSinceLastPublish inputs) as [d|]; cbn [JS.nullish].
    + rewrite JS.ltb_lt. split.
      * intros [_ H]. exists d. split; [reflexivity | exact H].
      * intros (d' & [= <-] & H). split; [|exact H].
        apply truthy_num_pos. lra.
    + split; [intros [H _]; discriminate | intros (d & H & _); discriminate].
Qed.

(** On the weighted path the maintainer count records "Solo Maintainer"
    exactly when it is 1 and "Maintainer Count" exactly when it is more
    than 1; a missing count and a count of 0 record neither. *)
Theorem maintainer_factor_iff
    (inputs : ScoringInputs) (weights : ScoringWeights)
    (Hpath : weightedPath inputs) :
  (In "Solo Maintainer" (map name (factors (calculateScore inputs weights)))
   <-> exists c, maintainerCount inputs = Some c /\ (c == 1)%Q) /\
  (In "Maintainer Count" (map name (factors (calculateScore inputs weights)))
   <-> exists c, maintainerCount inputs = Some c /\ (1 < c)%Q) /\
  (JS.truthy_num (maintainerCount inputs) = false ->
   ~ In "Solo Maintainer"
       (map name (factors (calculateScore inputs weights))) /\
   ~ In "Maintainer Count"
       (map name (factors (calculateScore inputs weights)))).
Proof.
  rewrite (weightedPath_factors _ _ Hpath), accumulate_factorNames.
  assert (Hsolo :
    In "Solo Maintainer" (factorNames inputs weights)
    <-> exists c, maintainerCount inputs = Some c /\ (c == 1)%Q).
  { transitivity
      (negb (JS.truthy_num (maintainerCount inputs)
             && JS.ltb 1 (JS.nullish (maintainerCount inputs) 0))
       && match maintainerCount inputs with
          | Some c => Qeq_bool c 1
          | None => false
          end = true).
    - unfold factorNames. rewrite !in_app_iff, !In_named.
      split.
      + intros H.
        repeat match type of H with
        | _ \/ _ => destruct H as [H|H]
        end;
        try (destruct H as [_ H]; discriminate H).
        exact (proj1 H).
      + intros H. do 6 right. left. split; [exact H | reflexivity].
    - destruct (maintainerCount inputs) as [c|]; cbn [JS.nullish].
      + rewrite andb_true_iff, Qeq_bool_iff, negb_true_iff. split.
        * intros [_ H]. exists c. split; [reflexivity | exact H].
        * intros (c' & [= <-] & H). split; [|exact H].
          apply andb_false_iff. right. apply JS.ltb_ge.
          rewrite H. discriminate.
      + rewrite andb_false_r.
        split; [discriminate | intros (c & H & _); discriminate]. }
  assert (Hmany :
    In "Maintainer Count" (factorNames inputs weights)
    <-> exists c, maintainerCount inputs = Some c /\ (1 < c)%Q).
  { transitivity
      (JS.truthy_num (maintainerCount inputs)
       && JS.ltb 1 (JS.nullish (maintainerCount inputs) 0) = true).
    - unfold factorNames. rewrite !in_app_iff, !In_named.
      split.
      + intros H.
        repeat match type of H with
        | _ \/ _ => destruct H as [H|H]
        end;
        try (destruct H as [_ H]; discriminate H).
        exact (proj1 H).
      + intros H. do 5 right. left. split; [exact H | reflexivity].
    - rewrite andb_true_iff.
      destruct (maintainerCount inputs) as [c|]; cbn [JS.nullish].
      + rewrite JS.ltb_lt. split.
        * intros [_ H]. exists c. split; [reflexivity | exact H].
        * intros (c' & [= <-] & H). split; [|exact H].
          apply truthy_num_pos. lra.
      + split; [intros [H _]; discriminate
               | intros (c & H & _); discriminate]. }
  split; [exact Hsolo|]. split; [exact Hmany|].
  intro Hfalsy. rewrite Hsolo, Hmany.
  split; intros (c & Hc & H); rewrite Hc in Hfalsy;
    cbn [JS.truthy_num] in Hfalsy; apply negb_false_iff in Hfalsy;
    apply Qeq_bool_iff in Hfalsy; rewrite Hfalsy in H; discriminate.
Qed.


Lemma Subseq_In {A : Type} (l m : list A) (x : A) :
  Subseq l m -> In x l -> In x m.
Proof.
  induction 1 as [|y l m _ IH|y l m _ IH]; simpl; intro Hin.
  - exact Hin.
  - right. now apply IH.
  - destruct Hin as [Hin|Hin]; [now left | right; now apply IH].
Qed.

Lemma Subseq_NoDup {A : Type} (l m : list A) :
  Subseq l m -> NoDup m -> NoDup l.
Proof.
  induction 1 as [|y l m Hs IH|y l m Hs IH]; intro Hm.
  - constructor.
  - apply IH. now inversion Hm.
  - inversion Hm as [|? ? Hnotin Hm']; subst. constructor.
    + intro Hin. apply Hnotin. now apply (Subseq_In l m).
    + now apply IH.
Qed.

Lemma evaluationOrder_NoDup : NoDup evaluationOrder.
Proof.
  unfold evaluationOrder.
  repeat (constructor; [simpl; intuition discriminate|]). constructor.
Qed.

Lemma length_named_le (test : bool) (n : string) :
  (List.length (named test n) <= 1)%nat.
Proof. destruct test; simpl; lia. Qed.

Lemma length_named_exclusive (test other : bool) (n m : string) :
  (List.length (named test n) + List.length (named (negb test && other) m)
   <= 1)%nat.
Proof. destruct test, other; simpl; lia. Qed.

Lemma factorNames_length inputs weights :
  (List.length (factorNames inputs weights) <= 9)%nat.
Proof.
  unfold factorNames. rewrite !length_app.
  match goal with
  | |- context [List.length (named (negb ?c && ?t) ?m)] =>
      pose proof (length_named_exclusive c t "Maintainer Count" m)
  end.
  repeat match goal with
  | |- context [List.length (named ?c ?n)] =>
      pose proof (length_named_le c n);
      let k := fresh "k" in
      set (k := List.length (named c n)) in *; clearbody k
  end.
  lia.
Qed.

(** For all inputs a result has at most nine factors, and no two of them
    share a name: looking a factor up by its name finds the only one. *)
Theorem factors_distinct_names
    (inputs : ScoringInputs) (weights : ScoringWeights) :
  NoDup (map name (factors (calculateScore inputs weights))) /\
  (List.length (factors (calculateScore inputs weights)) <= 9)%nat.
Proof.
  destruct (maintainerStatus inputs) as [status|] eqn:Hstatus.
  { unfold calculateScore. rewrite Hstatus. simpl.
    split; [repeat constructor; intros [] | lia]. }
  destruct (JS.truthy_str (corporateBacking inputs)) eqn:Hbacking.
  { unfold calculateScore. rewrite Hstatus, Hbacking. simpl.
    split; [repeat constructor; intros [] | lia]. }
  rewrite (weightedPath_factors inputs weights (conj Hstatus Hbacking)).
  split.
  - apply (Subseq_NoDup _ evaluationOrder).
    + apply accumulate_names.
    + apply evaluationOrder_NoDup.
  - rewrite <- (length_map name), accumulate_factorNames.
    apply factorNames_length.
Qed.

(** *** What the explanation says *)

Lemma weightedPath_explanation inputs weights :
  weightedPath inputs ->
  explanation (calculateScore inputs weights)
  = map reason
      (firstn 3 (sort byImpact (factors (calculateScore inputs weights)))).
Proof.
  intros [Hstatus Hbacking]. unfold calculateScore.
  now rewrite Hstatus, Hbacking.
Qed.

Lemma In_firstn {A : Type} (n : nat) (l : list A) (x : A) :
  In x (firstn n l) -> In x l.
Proof.
  intro H. rewrite <- (firstn_skipn n l). apply in_or_app. now left.
Qed.

(** On the weighted path the explanation has three entries, or as many as
    there are factors if these are fewer; each entry is the reason of a
    recorded factor; the first is the reason of a factor that no other
    outweighs; and with three factors or fewer every reason is given. *)
Theorem explanation_heaviest_first
    (inputs : ScoringInputs) (weights : ScoringWeights)
    (Hpath : weightedPath inputs) :
  List.length (explanation (calculateScore inputs weights))
  = Nat.min 3 (List.length (factors (calculateScore inputs weights))) /\
  (forall e, In e (explanation (calculateScore inputs weights)) ->
     exists f, In f (factors (calculateScore inputs weights)) /\
               reason f = e) /\
  (forall e rest,
     explanation (calculateScore inputs weights) = e :: rest ->
     exists f, In f (factors (calculateScore inputs weights)) /\
               reason f = e /\
               forall g, In g (factors (calculateScore inputs weights)) ->
                         (Qabs (impact g) <= Qabs (impact f))%Q) /\
  ((List.length (factors (calculateScore inputs weights)) <= 3)%nat ->
   Permutation (explanation (calculateScore inputs weights))
     (map reason (factors (calculateScore inputs weights)))).
Proof.
  rewrite (weightedPath_explanation inputs weights Hpath).
  set (fs := factors (calculateScore inputs weights)).
  pose proof (sort_perm byImpact fs) as Hperm.
  pose proof (sort_descending fs) as Hdesc.
  split; [|split; [|split]].
  - now rewrite length_map, length_firstn, sort_length.
  - intros e He. apply in_map_iff in He. destruct He as (f & Hf & Hin).
    exists f. split; [|exact Hf].
    apply (Permutation_in _ Hperm). now apply (In_firstn 3).
  - intros e rest He.
    destruct (sort byImpact fs) as [|f tl] eqn:Hs; [discriminate He|].
    simpl in He. injection He as He _. exists f.
    split; [apply (Permutation_in _ Hperm); now left|].
    split; [exact He|].
    intros g Hg. apply (Permutation_in _ (Permutation_sym Hperm)) in Hg.
    apply StronglySorted_inv in Hdesc. destruct Hdesc as [_ Hall].
    destruct Hg as [<-|Hg]; [apply Qle_refl|].
    rewrite Forall_forall in Hall. now apply Hall.
  - intro Hlen. rewrite firstn_all2 by (now rewrite sort_length).
    now apply Permutation_map.
Qed.

(** *** The OpenCollective income *)

(** The inputs with another yearly income. *)
Definition withIncome (inputs : ScoringInputs) (y : Q) : ScoringInputs :=
  {| weeklyDownloads := weeklyDownloads inputs;
     dependentCount := dependentCount inputs;
     ocBalance := ocBalance inputs;
     ocYearlyIncome := Some y;
     githubSponsors := githubSponsors inputs;
     corporateBacking := corporateBacking inputs;
     maintainerCount := maintainerCount inputs;
     daysSinceLastPublish := daysSinceLastPublish inputs;
     aiDisruptionFlag := aiDisruptionFlag inputs;
     maintainerStatus := maintainerStatus inputs |}.

Lemma signals_income inputs weights y1 y2 :
  (acc_score (signals (withIncome inputs y2) weights)
   == acc_score (signals (withIncome inputs y1) weights)
      + (gainIncome (withIncome inputs y2) weights
         - gainIncome (withIncome inputs y1) weights))%Q.
Proof.
  rewrite !signals_score.
  unfold gainBalance, gainSponsors, gainMaintainers, lossActivity, lossAi.
  cbn [withIncome ocBalance githubSponsors maintainerCount
       daysSinceLastPublish aiDisruptionFlag]. ring.
Qed.

(** The income is normalized as the balance is, so its gain is the gain
    of a balance under the weight of the income. *)
Lemma gainIncome_as_balance inputs weights y :
  gainIncome (withIncome inputs y) weights
  = balanceGain y
      (Weights.mkScoringWeights 0 0 (Weights.ocIncome weights) 0 0 0 0 0 0).
Proof. reflexivity. Qed.

(** On the weighted path, all other inputs fixed, the score never falls
    when the yearly income rises (its weight being a magnitude), and from
    an income of 100,000 on it no longer moves, whatever the weights. *)
Theorem ocYearlyIncome_monotone_capped
    (inputs : ScoringInputs) (weights : ScoringWeights)
    (Hpath : weightedPath inputs) :
  (forall y1 y2,
     (0 <= Weights.ocIncome weights)%Q -> (y1 <= y2)%Q ->
     (score (calculateScore (withIncome inputs y1) weights)
      <= score (calculateScore (withIncome inputs y2) weights))%Q) /\
  (forall y1 y2,
     (100000 <= y1)%Q -> (100000 <= y2)%Q ->
     score (calculateScore (withIncome inputs y1) weights)
     = score (calculateScore (withIncome inputs y2) weights)).
Proof.
  assert (Hp : forall y, weightedPath (withIncome inputs y))
    by (intro y; exact Hpath).
  split.
  - intros y1 y2 Hw Hle.
    apply score_le_of_signals; [apply Hp | apply Hp | reflexivity |].
    rewrite (signals_income inputs weights y1 y2).
    rewrite !gainIncome_as_balance.
    pose proof (balanceGain_mono y1 y2
      (Weights.mkScoringWeights 0 0 (Weights.ocIncome weights) 0 0 0 0 0 0)
      Hw Hle). lra.
  - intros y1 y2 H1 H2.
    apply score_eq_of_signals; [apply Hp | apply Hp | reflexivity |].
    rewrite (signals_income inputs weights y2 y1).
    rewrite !gainIncome_as_balance. unfold balanceGain.
    rewrite (normalizeBalance_cap y1 H1), (normalizeBalance_cap y2 H2).
    cbv zeta. ring.
Qed.

(** *** The bounds of the score before the clamp *)

Lemma normalizeBalance_le_1 (balance : option Q) :
  (normalizeBalance balance <= 1)%Q.
Proof.
  unfold normalizeBalance.
  destruct (JS.truthy_num balance); [apply JS.min_le_l | discriminate].
Qed.

Lemma normalizeDownloads_le_1 (downloads : option Q) :
  (normalizeDownloads downloads <= 1)%Q.
Proof.
  unfold normalizeDownloads.
  destruct (JS.truthy_num downloads); [apply JS.min_le_l | discriminate].
Qed.

Lemma normalizeDependents_le_1 (dependents : option Q) :
  (normalizeDependents dependents <= 1)%Q.
Proof.
  unfold normalizeDependents.
  destruct (JS.truthy_num dependents); [apply JS.min_le_l | discriminate].
Qed.

(** A positive share of at most 1 of a weight lies between 0 and the
    weight. *)
Lemma share_of_weight (f w : Q) :
  (f <= 1 -> 0 <= w ->
   0 <= (if JS.ltb 0 f then f * w else 0) <= w)%Q.
Proof.
  intros Hf Hw. destruct (JS.ltb 0 f) eqn:E; [|split; [apply Qle_refl|lra]].
  apply JS.ltb_lt in E. split.
  - apply Qmult_le_0_compat; lra.
  - rewrite <- (Qmult_1_l w) at 2. now apply Qmult_le_compat_r.
Qed.

Lemma gainBalance_bounds inputs weights :
  (0 <= Weights.ocBalance weights ->
   0 <= gainBalance inputs weights <= Weights.ocBalance weights)%Q.
Proof.
  intro Hw. unfold gainBalance. cbv zeta.
  apply share_of_weight; [apply normalizeBalance_le_1 | exact Hw].
Qed.

Lemma gainIncome_bounds inputs weights :
  (0 <= Weights.ocIncome weights ->
   0 <= gainIncome inputs weights <= Weights.ocIncome weights)%Q.
Proof.
  intro Hw. unfold gainIncome. cbv zeta.
  apply share_of_weight; [apply normalizeBalance_le_1 | exact Hw].
Qed.

Lemma gainSponsors_bounds inputs weights :
  (0 <= Weights.githubSponsors weights ->
   0 <= gainSponsors inputs weights <= Weights.githubSponsors weights)%Q.
Proof.
  intro Hw. unfold gainSponsors.
  destruct (JS.truthy_bool (githubSponsors inputs)); split;
    try apply Qle_refl; exact Hw.
Qed.

Lemma capped_bounds (x w : Q) :
  (0 < x -> 0 <= w -> 0 <= JS.min 1 x * w <= w)%Q.
Proof.
  intros Hx Hw. split.
  - apply Qmult_le_0_compat; [|exact Hw]. now apply Qlt_le_weak, min1_pos.
  - rewrite <- (Qmult_1_l w) at 2. apply Qmult_le_compat_r; [|exact Hw].
    apply JS.min_le_l.
Qed.

Lemma gainMaintainers_bounds inputs weights :
  (0 <= Weights.maintainerCount weights ->
   - (Weights.maintainerCount weights / 2) <= gainMaintainers inputs weights
   <= Weights.maintainerCount weights)%Q.
Proof.
  intro Hw. unfold gainMaintainers. cbv zeta.
  set (w := Weights.maintainerCount weights) in *.
  assert (Hhalf : (w / 2 == w * (1 # 2))%Q) by reflexivity.
  destruct (JS.truthy_num (maintainerCount inputs)
            && JS.ltb 1 (JS.nullish (maintainerCount inputs) 0))%bool eqn:E.
  - apply andb_true_iff in E. destruct E as [_ E]. apply JS.ltb_lt in E.
    destruct (capped_bounds ((JS.nullish (maintainerCount inputs) 0 - 1) / 4)
                w) as [Hlo Hhi]; [|exact Hw|].
    { unfold Qdiv. change (/ 4)%Q with (1 # 4)%Q. lra. }
    set (m := (JS.min 1 _ * w)%Q) in *. clearbody m.
    rewrite Hhalf. split; lra.
  - destruct (maintainerCount inputs) as [c|];
      [destruct (Qeq_bool c 1)|]; rewrite Hhalf; split; lra.
Qed.

Lemma lossActivity_bounds inputs weights :
  (0 <= Weights.activityPenalty weights ->
   0 <= lossActivity inputs weights <= Weights.activityPenalty weights)%Q.
Proof.
  intro Hw. unfold lossActivity. cbv zeta.
  destruct (JS.truthy_num (daysSinceLastPublish inputs)
            && JS.ltb 365 (JS.nullish (daysSinceLastPublish inputs) 0))%bool
    eqn:E; [|split; [apply Qle_refl | exact Hw]].
  apply andb_true_iff in E. destruct E as [_ E]. apply JS.ltb_lt in E.
  apply capped_bounds; [|exact Hw].
  unfold Qdiv. change (/ 730)%Q with (1 # 730)%Q. lra.
Qed.

Lemma lossAi_bounds inputs weights :
  (0 <= Weights.aiDisruption weights ->
   0 <= lossAi inputs weights <= Weights.aiDisruption weights)%Q.
Proof.
  intro Hw. unfold lossAi.
  destruct (JS.truthy_bool (aiDisruptionFlag inputs)); split;
    try apply Qle_refl; exact Hw.
Qed.

Lemma ecosystemImportance_le_1 inputs : (ecosystemImportance inputs <= 1)%Q.
Proof.
  unfold ecosystemImportance.
  pose proof (normalizeDownloads_le_1 (weeklyDownloads inputs)).
  pose proof (normalizeDependents_le_1 (dependentCount inputs)).
  lra.
Qed.

(** The importance takes at most 15 points, and only below 60. *)
Lemma factorImportance_bounds inputs st :
  (acc_score st - 15 <= acc_score (factorImportance inputs st)
   <= acc_score st)%Q.
Proof.
  unfold factorImportance.
  pose proof (ecosystemImportance_le_1 inputs) as He.
  set (e := ecosystemImportance inputs) in *. clearbody e.
  destruct (JS.ltb (3 # 10) e) eqn:E; cbn [andb]; [|split; lra].
  apply JS.ltb_lt in E.
  destruct (JS.ltb (acc_score st) 60); cbn [bump push acc_score];
    split; lra.
Qed.

(** A difference between two scores of the signals is at least as large
    after the importance is applied. *)
Lemma factorImportance_gap inputs1 inputs2 st1 st2 (d : Q) :
  ecosystemImportance inputs1 = ecosystemImportance inputs2 ->
  (0 <= d -> acc_score st1 + d <= acc_score st2 ->
   acc_score (factorImportance inputs1 st1) + d
   <= acc_score (factorImportance inputs2 st2))%Q.
Proof.
  intros He Hd Hle. unfold factorImportance. rewrite He.
  set (e := ecosystemImportance inputs2). clearbody e.
  destruct (JS.ltb (3 # 10) e) eqn:E; cbn [andb]; [|exact Hle].
  apply JS.ltb_lt in E.
  destruct (JS.ltb (acc_score st1) 60) eqn:E1;
    destruct (JS.ltb (acc_score st2) 60) eqn:E2;
    cbn [bump push acc_score];
    try apply JS.ltb_lt in E1; try apply JS.ltb_ge in E1;
    try apply JS.ltb_lt in E2; try apply JS.ltb_ge in E2; lra.
Qed.

(** Weights that keep the score within 0 and 100 before the clamp: they
    are magnitudes, the gains together stay below 50 and the losses, with
    the 15 points of the importance, too.  The default weights are such. *)
Definition withinRange (weights : ScoringWeights) : Prop :=
  (0 <= Weights.ocBalance weights)%Q /\
  (0 <= Weights.ocIncome weights)%Q /\
  (0 <= Weights.githubSponsors weights)%Q /\
  (0 <= Weights.maintainerCount weights)%Q /\
  (0 <= Weights.activityPenalty weights)%Q /\
  (0 <= Weights.aiDisruption weights)%Q /\
  (Weights.ocBalance weights + Weights.ocIncome weights
   + Weights.githubSponsors weights + Weights.maintainerCount weights
   <= 50)%Q /\
  (Weights.maintainerCount weights / 2 + Weights.activityPenalty weights
   + Weights.aiDisruption weights + 15 <= 50)%Q.

Lemma accumulate_withinRange inputs weights :
  withinRange weights ->
  (0 <= acc_score (accumulate inputs weights) <= 100)%Q.
Proof.
  intros (Hb & Hi & Hs & Hm & Ha & Hd & Hup & Hdown).
  unfold accumulate.
  pose proof (factorImportance_bounds inputs (signals inputs weights))
    as [Hlo Hhi].
  rewrite signals_score in Hlo, Hhi.
  pose proof (gainBalance_bounds inputs weights Hb).
  pose proof (gainIncome_bounds inputs weights Hi).
  pose proof (gainSponsors_bounds inputs weights Hs).
  pose proof (gainMaintainers_bounds inputs weights Hm).
  pose proof (lossActivity_bounds inputs weights Ha).
  pose proof (lossAi_bounds inputs weights Hd).
  set (w := Weights.maintainerCount weights) in *.
  assert (Hhalf : (w / 2 == w * (1 # 2))%Q) by reflexivity.
  rewrite Hhalf in *.
  split; lra.
Qed.

(** *** Rounding and clamping a difference *)

Lemma floor_ge (n : Z) (q : Q) : (inject_Z n <= q)%Q -> (n <= Qfloor q)%Z.
Proof.
  intro H. rewrite <- (Qfloor_Z n). now apply Qfloor_resp_le.
Qed.

(** Scores that differ by a whole number differ by as much when rounded. *)
Lemma round_gap (x y : Q) (k : Z) :
  (x + inject_Z k <= y -> JS.round x + inject_Z k <= JS.round y)%Q.
Proof.
  intro H. unfold JS.round. rewrite <- inject_Z_plus, <- Zle_Qle.
  apply floor_ge. rewrite inject_Z_plus.
  pose proof (Qfloor_le (x + (1 # 2))) as Hx.
  set (f := inject_Z (Qfloor (x + (1 # 2)))) in *.
  set (c := inject_Z k) in *. clearbody f c. lra.
Qed.

(** A score above 0 is not above the rounded score, and a score below 100
    is not below it. *)
Lemma clamp_le_round (x : Q) : (0 < clamp x -> clamp x <= JS.round x)%Q.
Proof.
  unfold clamp. set (z := JS.round x). clearbody z.
  unfold JS.max, JS.min.
  destruct (Qle_bool_cases 100 z) as [[E H]|[E H]]; rewrite E;
    [change (Qle_bool 0 100) with true; cbv iota; intros _; exact H|].
  destruct (Qle_bool_cases 0 z) as [[E0 H0]|[E0 H0]]; rewrite E0; intro Hp;
    [apply Qle_refl | exfalso; lra].
Qed.

Lemma round_le_clamp (x : Q) : (clamp x < 100 -> JS.round x <= clamp x)%Q.
Proof.
  unfold clamp. set (z := JS.round x). clearbody z.
  unfold JS.max, JS.min.
  destruct (Qle_bool_cases 100 z) as [[E H]|[E H]]; rewrite E;
    [change (Qle_bool 0 100) with true; cbv iota; intro Hp; exfalso; lra|].
  destruct (Qle_bool_cases 0 z) as [[E0 H0]|[E0 H0]]; rewrite E0; intros _;
    [apply Qle_refl | lra].
Qed.

(** Between 0 and 100 the clamp changes nothing. *)
Lemma clamp_within (x : Q) :
  (0 <= x -> x <= 100 -> clamp x == JS.round x)%Q.
Proof.
  intros H0 H100.
  assert (Hz0 : (0 <= JS.round x)%Q).
  { change 0%Q with (JS.round 0) at 1. now apply JS.round_mono. }
  assert (Hz100 : (JS.round x <= 100)%Q).
  { change 100%Q with (JS.round 100). now apply JS.round_mono. }
  unfold clamp. set (z := JS.round x) in *. clearbody z.
  unfold JS.max, JS.min.
  destruct (Qle_bool_cases 100 z) as [[E H]|[E H]]; rewrite E.
  - change (Qle_bool 0 100) with true. cbv iota. lra.
  - apply Qle_bool_iff in Hz0. rewrite Hz0. reflexivity.
Qed.

(** *** By how much the balance raises the score *)

(** Between 0 and the cap the gain of a balance is its share of 100,000
    of the weight. *)
Lemma balanceGain_value (b : Q) (weights : ScoringWeights) :
  (0 <= b -> b <= 100000 ->
   balanceGain b weights == b * (1 # 100000) * Weights.ocBalance weights)%Q.
Proof.
  intros H0 Hcap. unfold balanceGain. cbv zeta.
  assert (F : (normalizeBalance (Some b) == b * (1 # 100000))%Q)
    by (now apply normalizeBalance_below).
  set (f := normalizeBalance (Some b)) in *. clearbody f.
  destruct (JS.ltb 0 f) eqn:E.
  - now rewrite F.
  - apply JS.ltb_ge in E.
    assert (Hb : (b == 0)%Q) by lra.
    rewrite Hb. ring.
Qed.

(** The unclamped scores of two balances differ by at least the
    difference of their gains. *)
Lemma accumulate_balance_gap inputs weights b1 b2 (d : Q) :
  (0 <= d -> balanceGain b1 weights + d <= balanceGain b2 weights ->
   acc_score (accumulate (withBalance inputs b1) weights) + d
   <= acc_score (accumulate (withBalance inputs b2) weights))%Q.
Proof.
  intros Hd Hgain. unfold accumulate.
  apply factorImportance_gap; [reflexivity | exact Hd |].
  rewrite (signals_balance inputs weights b1 b2). lra.
Qed.

(** C5, amended.  On the weighted path, all other inputs fixed and the
    weight of the balance a magnitude, the score returned never goes down
    when the OpenCollective balance goes up.  It need not go up, since it
    is rounded; but up to the cap of 100,000 a rise of the balance that is
    worth [k] points and a hundredth, by its share of 100,000 of the
    weight, raises the score returned by [k] at least: whenever the lower
    score is above 0 and the higher one below 100, and always under weights
    that keep the score away from the clamp, as the default weights do.
    (The hundredth keeps the statement clear of the ties of the rounding,
    which a program that computes in floating point may break either way.)
    From 100,000 on the score no longer moves, whatever the weights, and a
    balance of 100,000 scores what a balance of 200,000 scores. *)
Theorem ocBalance_raises_score
    (inputs : ScoringInputs) (weights : ScoringWeights)
    (Hpath : weightedPath inputs) :
  (forall b1 b2,
     (0 <= Weights.ocBalance weights)%Q -> (b1 <= b2)%Q ->
     (score (calculateScore (withBalance inputs b1) weights)
      <= score (calculateScore (withBalance inputs b2) weights))%Q) /\
  (forall b1 b2 (k : Z),
     (0 <= Weights.ocBalance weights)%Q ->
     (0 <= k)%Z -> (0 <= b1)%Q -> (b2 <= 100000)%Q ->
     ((inject_Z k + (1 # 100)) * 100000
      <= (b2 - b1) * Weights.ocBalance weights)%Q ->
     (0 < score (calculateScore (withBalance inputs b1) weights))%Q ->
     (score (calculateScore (withBalance inputs b2) weights) < 100)%Q ->
     (score (calculateScore (withBalance inputs b1) weights) + inject_Z k
      <= score (calculateScore (withBalance inputs b2) weights))%Q) /\
  (forall b1 b2 (k : Z),
     withinRange weights ->
     (0 <= k)%Z -> (0 <= b1)%Q -> (b2 <= 100000)%Q ->
     ((inject_Z k + (1 # 100)) * 100000
      <= (b2 - b1) * Weights.ocBalance weights)%Q ->
     (score (calculateScore (withBalance inputs b1) weights) + inject_Z k
      <= score (calculateScore (withBalance inputs b2) weights))%Q) /\
  (forall b1 b2,
     (100000 <= b1)%Q -> (100000 <= b2)%Q ->
     score (calculateScore (withBalance inputs b1) weights)
     = score (calculateScore (withBalance inputs b2) weights)) /\
  score (calculateScore (withBalance inputs 100000) weights)
  = score (calculateScore (withBalance inputs 200000) weights).
Proof.
  assert (Hp : forall b, weightedPath (withBalance inputs b))
    by (intro b; exact Hpath).
  assert (Hscore : forall b,
    score (calculateScore (withBalance inputs b) weights)
    = clamp (acc_score (accumulate (withBalance inputs b) weights)))
    by (intro b; apply weightedPath_score, Hp).
  assert (Hgap : forall b1 b2 (k : Z),
    (0 <= Weights.ocBalance weights)%Q ->
    (0 <= k)%Z -> (0 <= b1)%Q -> (b2 <= 100000)%Q ->
    ((inject_Z k + (1 # 100)) * 100000
     <= (b2 - b1) * Weights.ocBalance weights)%Q ->
    (acc_score (accumulate (withBalance inputs b1) weights) + inject_Z k
     <= acc_score (accumulate (withBalance inputs b2) weights))%Q).
  { intros b1 b2 k Hw Hk H1 H2 Hworth.
    assert (Hk' : (0 <= inject_Z k)%Q)
      by (change 0%Q with (inject_Z 0); now rewrite <- Zle_Qle).
    set (w := Weights.ocBalance weights) in *.
    assert (Hlt : (b1 < b2)%Q).
    { apply Qnot_le_lt. intro Hle.
      assert (Hprod : ((b2 - b1) * w <= 0 * w)%Q)
        by (apply Qmult_le_compat_r; lra).
      rewrite Qmult_0_l in Hprod.
      set (c := inject_Z k) in *. clearbody c. lra. }
    apply accumulate_balance_gap; [exact Hk'|].
    rewrite (balanceGain_value b1 weights), (balanceGain_value b2 weights)
      by lra.
    fold w.
    assert (Hsplit : (b2 * (1 # 100000) * w
                      == b1 * (1 # 100000) * w
                         + (b2 - b1) * w * (1 # 100000))%Q) by ring.
    rewrite Hsplit.
    set (m := ((b2 - b1) * w)%Q) in *.
    set (g := (b1 * (1 # 100000) * w)%Q).
    set (c := inject_Z k) in *. clearbody m g c. lra. }
  split; [|split; [|split; [|split]]].
  - intros b1 b2 Hw Hle. rewrite !Hscore.
    now apply clamp_mono, accumulate_balance_mono.
  - intros b1 b2 k Hw Hk H1 H2 Hworth Hpos Htop. rewrite !Hscore in *.
    pose proof (clamp_le_round _ Hpos) as Hlo.
    pose proof (round_le_clamp _ Htop) as Hhi.
    pose proof (round_gap _ _ k (Hgap b1 b2 k Hw Hk H1 H2 Hworth)) as Hr.
    set (c := inject_Z k) in *. clearbody c. lra.
  - intros b1 b2 k Hrange Hk H1 H2 Hworth. rewrite !Hscore.
    destruct (accumulate_withinRange (withBalance inputs b1) weights Hrange)
      as [Hlo1 Hhi1].
    destruct (accumulate_withinRange (withBalance inputs b2) weights Hrange)
      as [Hlo2 Hhi2].
    rewrite (clamp_within _ Hlo1 Hhi1), (clamp_within _ Hlo2 Hhi2).
    exact (round_gap _ _ k
             (Hgap b1 b2 k (proj1 Hrange) Hk H1 H2 Hworth)).
  - intros b1 b2 H1 H2. rewrite !Hscore.
    now apply clamp_comp, accumulate_balance_cap.
  - rewrite !Hscore. apply clamp_comp, accumulate_balance_cap; discriminate.
Qed.

Lemma penalty_recorded (inputs : ScoringInputs) (weights : ScoringWeights) :
  In "High Impact, Low Funding" (factorNames inputs weights) ->
  ((3 # 10) < ecosystemImportance inputs)%Q /\
  (acc_score (signals inputs weights) < 60)%Q.
Proof.
  unfold factorNames. rewrite !in_app_iff, !In_named. intro H.
  rewrite <- !JS.ltb_lt, <- andb_true_iff.
  repeat match type of H with
  | _ \/ _ => destruct H as [H|H]
  end;
  try (destruct H as [_ H]; discriminate H).
  exact (proj1 H).
Qed.

(** On the weighted path, a result that records the factor "High Impact,
    Low Funding" has a score of 55 at most, so that it is critical, in
    need of support or at most stable; the factor takes more than 4.5 and
    at most 15 points; and it is only recorded for a package with
    downloads or dependents.  So a package that scores 56 or more is never
    called critical infrastructure without funding. *)
Theorem importance_penalty_caps_score
    (inputs : ScoringInputs) (weights : ScoringWeights)
    (Hpath : weightedPath inputs)
    (Hrecorded :
       In "High Impact, Low Funding"
         (map name (factors (calculateScore inputs weights)))) :
  (score (calculateScore inputs weights) <= 55)%Q /\
  (category (calculateScore inputs weights) = critical \/
   category (calculateScore inputs weights) = needs_support \/
   category (calculateScore inputs weights) = stable) /\
  (exists f, In f (factors (calculateScore inputs weights)) /\
             name f = "High Impact, Low Funding" /\
             (- (15) <= impact f)%Q /\ (impact f < - (9 # 2))%Q) /\
  (JS.truthy_num (weeklyDownloads inputs) = true \/
   JS.truthy_num (dependentCount inputs) = true).
Proof.
  rewrite (weightedPath_factors _ _ Hpath), accumulate_factorNames
    in Hrecorded.
  destruct (penalty_recorded _ _ Hrecorded) as [He Hs].
  pose proof (ecosystemImportance_le_1 inputs) as He1.
  assert (Htest : JS.ltb (3 # 10) (ecosystemImportance inputs)
                  && JS.ltb (acc_score (signals inputs weights)) 60 = true).
  { apply andb_true_iff. split; now apply JS.ltb_lt. }
  assert (Hscore : (score (calculateScore inputs weights) <= 55)%Q).
  { rewrite (weightedPath_score _ _ Hpath). unfold accumulate,
      factorImportance. rewrite Htest. cbn [bump push acc_score].
    unfold clamp. apply JS.max_lub; [discriminate|].
    eapply Qle_trans; [apply JS.min_le_r|].
    unfold JS.round. change 55%Q with (inject_Z 55). rewrite <- Zle_Qle.
    apply Z.lt_succ_r. rewrite Zlt_Qlt. change (inject_Z (Z.succ 55)) with 56%Q.
    eapply Qle_lt_trans; [apply Qfloor_le|].
    set (e := ecosystemImportance inputs) in *.
    set (s := acc_score (signals inputs weights)) in *. clearbody e s. lra. }
  split; [exact Hscore|]. split; [|split].
  - rewrite category_band.
    set (s := score (calculateScore inputs weights)) in *. clearbody s.
    unfold categoryOf, CATEGORY_THRESHOLDS.critical,
      CATEGORY_THRESHOLDS.needsSupport, CATEGORY_THRESHOLDS.stable.
    destruct (Qle_bool_cases s 30) as [[E30 _]|[E30 _]]; rewrite E30;
      [now left|].
    destruct (Qle_bool_cases s 50) as [[E50 _]|[E50 _]]; rewrite E50;
      [right; now left|].
    destruct (Qle_bool_cases s 75) as [[E75 _]|[E75 H75]]; rewrite E75;
      [right; now right | exfalso; lra].
  - rewrite (weightedPath_factors _ _ Hpath). unfold accumulate,
      factorImportance. rewrite Htest. cbn [bump push acc_factors].
    eexists. split; [apply in_or_app; right; left; reflexivity|].
    cbn [name impact]. split; [reflexivity|].
    set (e := ecosystemImportance inputs) in *. clearbody e. split; lra.
  - destruct (JS.truthy_num (weeklyDownloads inputs)) eqn:Ed; [now left|].
    destruct (JS.truthy_num (dependentCount inputs)) eqn:Ep; [now right|].
    exfalso. unfold ecosystemImportance, normalizeDownloads,
      normalizeDependents in He. rewrite Ed, Ep in He. discriminate He.
Qed.

End Platform.

(** *** Examples *)

(** A platform to evaluate examples on: a number is printed as its whole
    part in decimal, without grouping, and the logarithm is a coarse one,
    read off the binary length.  The theorems above hold on every
    platform. *)
Module Sample.
Definition toString (q : Q) : string :=
  NilZero.string_of_int (Z.to_int (Qfloor q)).
Definition toLocaleString (q : Q) : string := toString q.
Definition log10 (x : Q) : Q :=
  inject_Z (Z.log2 (Qfloor x)) * (30103 # 100000).
Definition calculateScore : ScoringInputs -> ScoringWeights -> ScoringResult :=
  Scoring.calculateScore log10 toLocaleString toString.
End Sample.

(** A self-reported status, with downloads that play no part. *)
Definition selfReported : ScoringInputs :=
  mkScoringInputs (Some 1000000) None None None None None None None None
    (Some critical).

(** A corporate-backed package. *)
Definition backedByMeta : ScoringInputs :=
  mkScoringInputs (Some 50000000) None None None None (Some "Meta") None None
    None None.

(** A package with a small balance, GitHub Sponsors and the AI flag. *)
Definition smallBalanceAtRisk : ScoringInputs :=
  mkScoringInputs None None (Some 10000) None (Some true) None None None
    (Some true) None.

Lemma maintainerStatus_override_witness :
  score (Sample.calculateScore selfReported DEFAULT_WEIGHTS) = 15 /\
  category (Sample.calculateScore selfReported DEFAULT_WEIGHTS) = critical.
Proof.
  pose proof (maintainerStatus_override Sample.log10 Sample.toLocaleString
    Sample.toString selfReported DEFAULT_WEIGHTS critical eq_refl) as H.
  split; [exact (proj1 H) | exact (proj1 (proj2 H))].
Defined.

Lemma corporateBacking_override_witness :
  score (Sample.calculateScore backedByMeta DEFAULT_WEIGHTS) = 95 /\
  category (Sample.calculateScore backedByMeta DEFAULT_WEIGHTS) = corporate.
Proof.
  pose proof (corporateBacking_override Sample.log10 Sample.toLocaleString
    Sample.toString backedByMeta DEFAULT_WEIGHTS "Meta" eq_refl eq_refl
    ltac:(discriminate)) as H.
  split; [exact (proj1 H) | exact (proj1 (proj2 H))].
Defined.

Lemma explanation_top3_witness :
  weightedPath smallBalanceAtRisk /\
  (List.length
     (explanation (Sample.calculateScore smallBalanceAtRisk DEFAULT_WEIGHTS))
   <= 3)%nat.
Proof.
  assert (Hpath : weightedPath smallBalanceAtRisk) by (split; reflexivity).
  split; [exact Hpath|].
  exact (proj1 (proj2 (proj2
    (explanation_top3 Sample.log10 Sample.toLocaleString Sample.toString
       smallBalanceAtRisk DEFAULT_WEIGHTS Hpath)))).
Defined.

(** The factors come back in the order of evaluation while the explanation
    follows the weights: here the balance (impact 2) is evaluated first and
    explained last. *)
Example factors_in_evaluation_order :
  map name
    (factors (Sample.calculateScore smallBalanceAtRisk DEFAULT_WEIGHTS))
  = ["OC Balance"; "GitHub Sponsors"; "AI Disruption"] /\
  explanation (Sample.calculateScore smallBalanceAtRisk DEFAULT_WEIGHTS)
  = ["Business model at risk from AI tools";
     "Has GitHub Sponsors enabled";
     "$10000 in OpenCollective"] /\
  ~ Descending
      (factors (Sample.calculateScore smallBalanceAtRisk DEFAULT_WEIGHTS)).
Proof.
  split; [reflexivity|]. split; [reflexivity|].
  intro H. vm_compute in H.
  apply StronglySorted_inv in H. destruct H as [_ H].
  apply Forall_inv in H. vm_compute in H. now apply H.
Qed.

(** The default weights with other weights for the downloads, the
    dependents and the corporate backing. *)
Definition relabelledWeights : ScoringWeights :=
  {| Weights.downloads := 99;
     Weights.dependents := 1;
     Weights.ocBalance := 20;
     Weights.ocIncome := 15;
     Weights.githubSponsors := 5;
     Weights.corporateBacking := 0;
     Weights.maintainerCount := 5;
     Weights.activityPenalty := 10;
     Weights.aiDisruption := 15 |}.

(** Inputs with every field missing, and inputs with zeros and an empty
    name instead. *)
Definition nothingKnown : ScoringInputs :=
  mkScoringInputs None None None None None None None None None None.

Definition allZero : ScoringInputs :=
  mkScoringInputs (Some 0) (Some 0) (Some 0) (Some 0) (Some false)
    (Some EmptyString) (Some 0) (Some 0) (Some false) None.

(** A popular package without funding: on the sample platform its
    importance is above 0.3. *)
Definition popularUnfunded : ScoringInputs :=
  mkScoringInputs (Some 10000000) (Some 5000) (Some 0) None None None None
    None None None.

Lemma score_ignores_informational_weights_witness :
  score (Sample.calculateScore smallBalanceAtRisk DEFAULT_WEIGHTS)
  = score (Sample.calculateScore smallBalanceAtRisk relabelledWeights).
Proof.
  apply (proj1 (score_ignores_informational_weights Sample.log10
    Sample.toLocaleString Sample.toString smallBalanceAtRisk DEFAULT_WEIGHTS
    relabelledWeights ltac:(repeat split))).
Defined.

Lemma no_signal_is_neutral_witness :
  Sample.calculateScore allZero relabelledWeights
  = {| score := 50; category := needs_support;
       explanation := []; factors := [] |}.
Proof.
  apply (no_signal_is_neutral Sample.log10 Sample.toLocaleString
    Sample.toString allZero relabelledWeights).
  repeat split.
Defined.

Lemma maintainerCount_bonus_capped_witness :
  (score (Sample.calculateScore (withMaintainers smallBalanceAtRisk 1)
            DEFAULT_WEIGHTS)
   <= score (Sample.calculateScore (withMaintainers smallBalanceAtRisk 3)
               DEFAULT_WEIGHTS))%Q.
Proof.
  apply (proj1 (maintainerCount_bonus_capped Sample.log10
    Sample.toLocaleString Sample.toString smallBalanceAtRisk DEFAULT_WEIGHTS
    (conj eq_refl eq_refl))); discriminate.
Defined.

Lemma inactivity_penalty_capped_witness :
  (score (Sample.calculateScore (withDays smallBalanceAtRisk 1095)
            DEFAULT_WEIGHTS)
   <= score (Sample.calculateScore (withDays smallBalanceAtRisk 730)
               DEFAULT_WEIGHTS))%Q.
Proof.
  apply (proj1 (inactivity_penalty_capped Sample.log10
    Sample.toLocaleString Sample.toString smallBalanceAtRisk DEFAULT_WEIGHTS
    (conj eq_refl eq_refl))); discriminate.
Defined.

Lemma flags_direction_witness :
  (score (Sample.calculateScore (withFlags nothingKnown None None)
            DEFAULT_WEIGHTS)
   <= score (Sample.calculateScore (withFlags nothingKnown (Some true) None)
               DEFAULT_WEIGHTS))%Q.
Proof.
  apply (proj1 (flags_direction Sample.log10 Sample.toLocaleString
    Sample.toString nothingKnown DEFAULT_WEIGHTS None None
    (conj eq_refl eq_refl))); discriminate.
Defined.

Lemma inactivity_factor_iff_witness :
  In "Inactivity"
    (map name
       (factors (Sample.calculateScore (withDays nothingKnown 500)
                   DEFAULT_WEIGHTS))).
Proof.
  apply (proj2 (inactivity_factor_iff Sample.log10 Sample.toLocaleString
    Sample.toString (withDays nothingKnown 500) DEFAULT_WEIGHTS
    (conj eq_refl eq_refl))).
  exists 500%Q. split; reflexivity.
Defined.

Lemma maintainer_factor_iff_witness :
  In "Solo Maintainer"
    (map name
       (factors (Sample.calculateScore (withMaintainers nothingKnown 1)
                   DEFAULT_WEIGHTS))).
Proof.
  apply (proj2 (proj1 (maintainer_factor_iff Sample.log10
    Sample.toLocaleString Sample.toString (withMaintainers nothingKnown 1)
    DEFAULT_WEIGHTS (conj eq_refl eq_refl)))).
  exists 1%Q. split; reflexivity.
Defined.

Lemma importance_penalty_caps_score_witness :
  (score (Sample.calculateScore popularUnfunded DEFAULT_WEIGHTS) <= 55)%Q.
Proof.
  apply (proj1 (importance_penalty_caps_score Sample.log10
    Sample.toLocaleString Sample.toString popularUnfunded DEFAULT_WEIGHTS
    (conj eq_refl eq_refl)
    ltac:(vm_compute; repeat (first [left; reflexivity | right])))).
Defined.

Lemma explanation_heaviest_first_witness :
  List.length
    (explanation (Sample.calculateScore smallBalanceAtRisk DEFAULT_WEIGHTS))
  = Nat.min 3
      (List.length
         (factors (Sample.calculateScore smallBalanceAtRisk DEFAULT_WEIGHTS))).
Proof.
  apply (proj1 (explanation_heaviest_first Sample.log10
    Sample.toLocaleString Sample.toString smallBalanceAtRisk DEFAULT_WEIGHTS
    (conj eq_refl eq_refl))).
Defined.

Lemma ocYearlyIncome_monotone_capped_witness :
  (score (Sample.calculateScore (withIncome smallBalanceAtRisk 10000)
            DEFAULT_WEIGHTS)
   <= score (Sample.calculateScore (withIncome smallBalanceAtRisk 30000)
               DEFAULT_WEIGHTS))%Q.
Proof.
  apply (proj1 (ocYearlyIncome_monotone_capped Sample.log10
    Sample.toLocaleString Sample.toString smallBalanceAtRisk DEFAULT_WEIGHTS
    (conj eq_refl eq_refl))); discriminate.
Defined.

Lemma DEFAULT_WEIGHTS_withinRange : withinRange DEFAULT_WEIGHTS.
Proof. repeat split; discriminate. Qed.

(** C5, as stated, fails: under the default weights a balance of 2000
    adds 0.4 points, which the rounding drops, so that the score is 50 as
    it is for a balance of 1. *)
Lemma ocBalance_rise_without_gain :
  weightedPath nothingKnown /\
  (1 < 2000)%Q /\ (2000 <= 100000)%Q /\
  score (Sample.calculateScore (withBalance nothingKnown 1) DEFAULT_WEIGHTS)
  = 50%Q /\
  score (Sample.calculateScore (withBalance nothingKnown 2000)
           DEFAULT_WEIGHTS) = 50%Q /\
  ~ (score (Sample.calculateScore (withBalance nothingKnown 1)
              DEFAULT_WEIGHTS)
     < score (Sample.calculateScore (withBalance nothingKnown 2000)
                DEFAULT_WEIGHTS))%Q.
Proof.
  split; [split; reflexivity|].
  split; [reflexivity|]. split; [discriminate|].
  split; [reflexivity|]. split; [reflexivity|].
  vm_compute. discriminate.
Qed.

Lemma ocBalance_raises_score_witness :
  weightedPath smallBalanceAtRisk /\
  (score (Sample.calculateScore (withBalance smallBalanceAtRisk 10000)
            DEFAULT_WEIGHTS) + inject_Z 8
   <= score (Sample.calculateScore (withBalance smallBalanceAtRisk 50050)
               DEFAULT_WEIGHTS))%Q.
Proof.
  assert (Hpath : weightedPath smallBalanceAtRisk) by (split; reflexivity).
  split; [exact Hpath|].
  apply (proj1 (proj2 (proj2
    (ocBalance_raises_score Sample.log10 Sample.toLocaleString
       Sample.toString smallBalanceAtRisk DEFAULT_WEIGHTS Hpath)))).
  - repeat split; discriminate.
  - discriminate.
  - discriminate.
  - discriminate.
  - discriminate.
Defined.

(** The cases of the repository's tests that do not read a logarithm. *)
Example calculateScore_tests :
  let none := mkScoringInputs None None None None None None None None None
                None in
  let solo := mkScoringInputs None None None None None None (Some 1) None None
                None in
  let funded := mkScoringInputs None None (Some 80000) (Some 60000)
                  (Some true) None (Some 5) None None None in
  score (Sample.calculateScore none DEFAULT_WEIGHTS) = 50 /\
  explanation (Sample.calculateScore none DEFAULT_WEIGHTS) = [] /\
  score (Sample.calculateScore solo DEFAULT_WEIGHTS) = 48 /\
  category (Sample.calculateScore solo DEFAULT_WEIGHTS) = needs_support /\
  score (Sample.calculateScore funded DEFAULT_WEIGHTS) = 85 /\
  category (Sample.calculateScore funded DEFAULT_WEIGHTS) = thriving.
Proof. repeat split; reflexivity. Qed.

End Scoring.

(** ** The allocation of a budget ([calculateAllocation] of [scoring.ts]) *)

Module Allocation.

Import Scoring.
Local Open Scope string_scope.

Record AllocationInput := mkAllocationInput {
  packageName : string;
  score : Q;
  category : SustainabilityCategory
}.

(** [AllocationOutput]; it has a [packageName] as the input has, so its
    fields live in a name space of their own. *)
Module Out.
Record AllocationOutput := mkAllocationOutput {
  packageName : string;
  percentage : Q;
  suggestedAmount : Q
}.
End Out.
Abbreviation AllocationOutput := Out.AllocationOutput.

(** [packages.map((pkg, i) => ...)]: the callback gets the element and its
    index. *)
Fixpoint mapi {A B : Type} (f : A -> nat -> B) (l : list A) (i : nat)
  : list B :=
  match l with
  | [] => []
  | x :: l' => f x i :: mapi f l' (S i)
  end.

(** The weight of a package: the inverse of its score, none for a
    corporate package and a token one for a thriving package. *)
Definition weightOf (pkg : AllocationInput) : Q :=
  match category pkg with
  | corporate => 0
  | thriving => 1 # 10
  | _ => JS.max 0 (100 - score pkg)
  end.

(** [weights.reduce((sum, w) => sum + w, 0)]. *)
Definition sumWeights (weights : list Q) : Q := fold_left Qplus weights 0.

Definition totalWeight (packages : list AllocationInput) : Q :=
  sumWeights (map weightOf packages).

Definition calculateAllocation (packages : list AllocationInput)
    (totalBudget : Q) : list AllocationOutput :=
  let weights := map weightOf packages in
  let totalWeight := sumWeights weights in
  if Qeq_bool totalWeight 0 then
    map (fun pkg => {| Out.packageName := packageName pkg;
                       Out.percentage := 0;
                       Out.suggestedAmount := 0 |}) packages
  else
    mapi (fun pkg i =>
            let weight := JS.nullish (nth_error weights i) 0 in
            let percentage := (weight / totalWeight) * 100 in
            {| Out.packageName := packageName pkg;
               Out.percentage := JS.round (percentage * 10) / 10;
               Out.suggestedAmount :=
                 JS.round ((weight / totalWeight) * totalBudget * 100) / 100
            |}) packages 0.

(** The output of a package that gets nothing. *)
Definition nothingFor (pkg : AllocationInput) : AllocationOutput :=
  {| Out.packageName := packageName pkg;
     Out.percentage := 0;
     Out.suggestedAmount := 0 |}.

(** The amount of a package of weight [weight] among packages of total
    weight [total]. *)
Definition amountFor (weight total totalBudget : Q) : Q :=
  if Qeq_bool total 0 then 0
  else JS.round ((weight / total) * totalBudget * 100) / 100.

(** Two packages in need, of weights 70 and 50. *)
Definition twoInNeed : list AllocationInput :=
  [ mkAllocationInput "pkg1" 30 critical;
    mkAllocationInput "pkg2" 50 needs_support ].

(** Two corporate packages. *)
Definition twoCorporate : list AllocationInput :=
  [ mkAllocationInput "corp1" 95 corporate;
    mkAllocationInput "corp2" 95 corporate ].

(** One package in need. *)
Definition oneInNeed : list AllocationInput :=
  [ mkAllocationInput "pkg1" 30 critical ].

Lemma mapi_nth_error {A B : Type} (f : A -> nat -> B) (l : list A) (k i : nat) :
  nth_error (mapi f l k) i
  = option_map (fun x => f x (k + i)%nat) (nth_error l i).
Proof.
  revert k i. induction l as [|x l IH]; intros k i.
  - now destruct i.
  - destruct i as [|i]; simpl.
    + now rewrite Nat.add_0_r.
    + rewrite IH. now rewrite Nat.add_succ_r.
Qed.

Lemma mapi_length {A B : Type} (f : A -> nat -> B) (l : list A) (k : nat) :
  List.length (mapi f l k) = List.length l.
Proof.
  revert k. induction l as [|x l IH]; intro k; simpl; [reflexivity|].
  now rewrite IH.
Qed.

Lemma sumWeights_from (ws : list Q) (a : Q) :
  (fold_left Qplus ws a == a + sumWeights ws)%Q.
Proof.
  unfold sumWeights. revert a.
  induction ws as [|w ws IH]; intro a; simpl.
  - now rewrite Qplus_0_r.
  - rewrite (IH (a + w)%Q), (IH (0 + w)%Q). ring.
Qed.

(** Corporate packages weigh nothing. *)
Lemma totalWeight_corporate (packages : list AllocationInput) :
  Forall (fun pkg => category pkg = corporate) packages ->
  (totalWeight packages == 0)%Q.
Proof.
  unfold totalWeight. induction 1 as [|pkg packages Hc _ IH].
  - reflexivity.
  - unfold sumWeights. simpl. rewrite sumWeights_from.
    unfold weightOf at 1. rewrite Hc, IH. reflexivity.
Qed.

Lemma calculateAllocation_zero packages totalBudget :
  (totalWeight packages == 0)%Q ->
  calculateAllocation packages totalBudget = map nothingFor packages.
Proof.
  intro H. unfold calculateAllocation. cbv zeta.
  apply Qeq_bool_iff in H. unfold totalWeight in H. now rewrite H.
Qed.

(** The outputs are as many as the inputs. *)
Lemma calculateAllocation_length packages totalBudget :
  List.length (calculateAllocation packages totalBudget)
  = List.length packages.
Proof.
  unfold calculateAllocation. cbv zeta.
  destruct (Qeq_bool _ 0); [apply length_map | apply mapi_length].
Qed.

(** Every package has its output, at its own place, with the amount that
    its weight earns. *)
Lemma calculateAllocation_nth packages totalBudget i pkg :
  nth_error packages i = Some pkg ->
  exists out,
    nth_error (calculateAllocation packages totalBudget) i = Some out /\
    Out.packageName out = packageName pkg /\
    Out.suggestedAmount out
    = amountFor (weightOf pkg) (totalWeight packages) totalBudget.
Proof.
  intro Hi. unfold calculateAllocation, amountFor, totalWeight. cbv zeta.
  destruct (Qeq_bool (sumWeights (map weightOf packages)) 0).
  - exists (nothingFor pkg). split; [|split; reflexivity].
    change (nth_error (map nothingFor packages) i = Some (nothingFor pkg)).
    rewrite nth_error_map, Hi. reflexivity.
  - rewrite mapi_nth_error, Hi. simpl.
    rewrite nth_error_map, Hi. simpl.
    eexists. split; [reflexivity|]. split; reflexivity.
Qed.

(** C6. When the total weight is 0, as it is when every package is
    corporate, [calculateAllocation] returns one output for each input, in
    order and under its name, with percentage 0 and amount 0; and it
    returns the empty list for the empty list.  The function is total, so
    nothing is raised. *)
Theorem calculateAllocation_zero_weight
    (packages : list AllocationInput) (totalBudget : Q) :
  ((totalWeight packages == 0)%Q ->
   calculateAllocation packages totalBudget
   = map (fun pkg => {| Out.packageName := packageName pkg;
                        Out.percentage := 0;
                        Out.suggestedAmount := 0 |}) packages) /\
  (Forall (fun pkg => category pkg = corporate) packages ->
   List.length (calculateAllocation packages totalBudget)
   = List.length packages /\
   Forall (fun out => Out.percentage out = 0%Q /\
                      Out.suggestedAmount out = 0%Q)
     (calculateAllocation packages totalBudget)) /\
  calculateAllocation [] totalBudget = [].
Proof.
  split; [|split].
  - apply calculateAllocation_zero.
  - intro Hc. apply totalWeight_corporate in Hc.
    rewrite (calculateAllocation_zero _ totalBudget Hc).
    split; [apply length_map|].
    apply Forall_forall. intros out Hin. apply in_map_iff in Hin.
    destruct Hin as (pkg & <- & _). split; reflexivity.
  - reflexivity.
Qed.

Lemma calculateAllocation_zero_weight_witness :
  calculateAllocation twoCorporate 1000
  = [ {| Out.packageName := "corp1";
         Out.percentage := 0; Out.suggestedAmount := 0 |};
      {| Out.packageName := "corp2";
         Out.percentage := 0; Out.suggestedAmount := 0 |} ].
Proof.
  apply (proj1 (calculateAllocation_zero_weight twoCorporate 1000)).
  reflexivity.
Defined.

(** *** Scaling with the budget *)

(** Rounding ten times a number and ten times its rounding differ by 5 at
    most. *)
Lemma round_times_ten (y : Q) :
  (Qabs (JS.round (10 * y) - 10 * JS.round y) <= 5)%Q.
Proof.
  destruct (JS.round_bounds y) as [Hle Hlt].
  destruct (JS.round_bounds (10 * y)) as [Hle10 Hlt10].
  unfold JS.round in *.
  set (A := Qfloor (10 * y + (1 # 2))) in *.
  set (B := Qfloor (y + (1 # 2))) in *. clearbody A B.
  assert (Hup : (A <= 10 * B + 5)%Z).
  { assert (H : (2 * A < 20 * B + 11)%Z).
    { rewrite Zlt_Qlt, inject_Z_plus, !inject_Z_mult.
      change (inject_Z 2) with 2%Q. change (inject_Z 20) with 20%Q.
      change (inject_Z 11) with 11%Q.
      set (a := inject_Z A) in *. set (b := inject_Z B) in *.
      clearbody a b. lra. }
    lia. }
  assert (Hdown : (10 * B - 5 <= A)%Z).
  { assert (H : (20 * B < 2 * A + 11)%Z).
    { rewrite Zlt_Qlt, inject_Z_plus, !inject_Z_mult.
      change (inject_Z 2) with 2%Q. change (inject_Z 20) with 20%Q.
      change (inject_Z 11) with 11%Q.
      set (a := inject_Z A) in *. set (b := inject_Z B) in *.
      clearbody a b. lra. }
    lia. }
  rewrite Zle_Qle, inject_Z_plus, inject_Z_mult in Hup.
  rewrite Zle_Qle in Hdown. unfold Z.sub in Hdown.
  rewrite inject_Z_plus, inject_Z_mult in Hdown.
  change (inject_Z 10) with 10%Q in *. change (inject_Z 5) with 5%Q in *.
  change (inject_Z (- (5))) with (- (5))%Q in *.
  set (a := inject_Z A) in *. set (b := inject_Z B) in *. clearbody a b.
  apply Qabs_Qle_condition. split; lra.
Qed.

Lemma round_comp (x y : Q) : (x == y)%Q -> JS.round x = JS.round y.
Proof.
  intro H. unfold JS.round. f_equal. apply Qfloor_comp. now rewrite H.
Qed.

(** The amounts for budgets of 1000 and of 100, for a package of weight
    [weight] among packages of total weight [total]. *)
Lemma amountFor_scaling (weight total : Q) :
  (Qabs (amountFor weight total 1000 - 10 * amountFor weight total 100)
   <= 5 # 100)%Q /\
  ((exists n : Z, (weight / total * 100 * 100 == inject_Z n)%Q) ->
   (amountFor weight total 1000 == 10 * amountFor weight total 100)%Q).
Proof.
  unfold amountFor. destruct (Qeq_bool total 0).
  { split; [discriminate | intros _; reflexivity]. }
  set (x := (weight / total)%Q). clearbody x.
  assert (H10 : JS.round (x * 1000 * 100) = JS.round (10 * (x * 100 * 100)))
    by (apply round_comp; ring).
  rewrite H10. split.
  - pose proof (round_times_ten (x * 100 * 100)) as H.
    apply Qabs_Qle_condition in H. apply Qabs_Qle_condition.
    set (a := JS.round (10 * (x * 100 * 100))) in *.
    set (b := JS.round (x * 100 * 100)) in *. clearbody a b.
    destruct H as [Hlo Hhi]. unfold Qdiv. change (/ 100)%Q with (1 # 100)%Q.
    split; lra.
  - intros [n Hn].
    assert (Hb : JS.round (x * 100 * 100) = inject_Z n).
    { rewrite (round_comp _ _ Hn). apply JS.round_inject. }
    assert (Ha : JS.round (10 * (x * 100 * 100)) = inject_Z (10 * n)).
    { rewrite <- JS.round_inject. apply round_comp.
      rewrite Hn, inject_Z_mult. reflexivity. }
    rewrite Ha, Hb, inject_Z_mult. change (inject_Z 10) with 10%Q.
    set (b := inject_Z n). clearbody b.
    unfold Qdiv. change (/ 100)%Q with (1 # 100)%Q. lra.
Qed.

(** C4, as stated, fails: of two packages of weights 70 and 50 the first
    gets 583.33 of a budget of 1000 and 58.33 of a budget of 100, and ten
    times 58.33 is 583.30. *)
Lemma scaling_counterexample :
  exists a b,
    nth_error (calculateAllocation twoInNeed 1000) 0 = Some a /\
    nth_error (calculateAllocation twoInNeed 100) 0 = Some b /\
    (Out.suggestedAmount a == 58333 # 100)%Q /\
    (Out.suggestedAmount b == 5833 # 100)%Q /\
    ~ (Out.suggestedAmount a == 10 * Out.suggestedAmount b)%Q.
Proof.
  eexists. eexists.
  split; [reflexivity|]. split; [reflexivity|].
  split; [reflexivity|]. split; [reflexivity|].
  vm_compute. discriminate.
Qed.

(** C4, amended.  The amount scales with the budget up to the rounding to
    cents: for every package, its amount of a budget of 1000 is within 0.05
    of ten times its amount of a budget of 100, and the two are equal
    whenever its share of 100, counted in hundredths of a cent, is a whole
    number; so for a package on its own. *)
Theorem suggestedAmount_scaling
    (packages : list AllocationInput) (i : nat) (pkg : AllocationInput)
    (Hi : nth_error packages i = Some pkg) :
  exists a b,
    nth_error (calculateAllocation packages 1000) i = Some a /\
    nth_error (calculateAllocation packages 100) i = Some b /\
    (Qabs (Out.suggestedAmount a - 10 * Out.suggestedAmount b) <= 5 # 100)%Q /\
    ((exists n : Z,
        (weightOf pkg / totalWeight packages * 100 * 100 == inject_Z n)%Q) ->
     (Out.suggestedAmount a == 10 * Out.suggestedAmount b)%Q).
Proof.
  destruct (calculateAllocation_nth packages 1000 i pkg Hi)
    as (a & Ha & _ & Hamount_a).
  destruct (calculateAllocation_nth packages 100 i pkg Hi)
    as (b & Hb & _ & Hamount_b).
  exists a, b. split; [exact Ha|]. split; [exact Hb|].
  rewrite Hamount_a, Hamount_b. apply amountFor_scaling.
Qed.

Lemma suggestedAmount_scaling_witness :
  exists a b,
    nth_error (calculateAllocation oneInNeed 1000) 0 = Some a /\
    nth_error (calculateAllocation oneInNeed 100) 0 = Some b /\
    (Out.suggestedAmount a == 10 * Out.suggestedAmount b)%Q.
Proof.
  destruct (suggestedAmount_scaling oneInNeed 0
              (mkAllocationInput "pkg1" 30 critical) eq_refl)
    as (a & b & Ha & Hb & _ & Hexact).
  exists a, b. split; [exact Ha|]. split; [exact Hb|].
  apply Hexact. exists 10000%Z. reflexivity.
Defined.

(** *** The allocation without indices *)

(** The percentage of a package of weight [weight] among packages of total
    weight [total]. *)
Definition percentFor (weight total : Q) : Q :=
  if Qeq_bool total 0 then 0
  else JS.round ((weight / total) * 100 * 10) / 10.

(** The output of a package, given the total weight and the budget. *)
Definition outputFor (total totalBudget : Q) (pkg : AllocationInput)
  : AllocationOutput :=
  {| Out.packageName := packageName pkg;
     Out.percentage := percentFor (weightOf pkg) total;
     Out.suggestedAmount := amountFor (weightOf pkg) total totalBudget |}.


(** A package that is neither corporate nor thriving: its weight is the
    inverse of its score. *)
Definition ordinary (pkg : AllocationInput) : Prop :=
  category pkg <> corporate /\ category pkg <> thriving.

(** One thriving, one stable and one corporate package and two in need. *)
Definition mixedPackages : list AllocationInput :=
  [ mkAllocationInput "thriving-pkg" 85 thriving;
    mkAllocationInput "critical-pkg" 20 critical;
    mkAllocationInput "corp-pkg" 95 corporate;
    mkAllocationInput "stable-pkg" 60 stable;
    mkAllocationInput "needy-pkg" 33 needs_support ].

(** Reading [weights[i]] inside the mapping gives the weight of the
    package at hand. *)
Lemma mapi_weights {B : Type} (F : AllocationInput -> Q -> B)
    (l : list AllocationInput) (pre : list Q) :
  mapi (fun pkg i =>
          F pkg (JS.nullish (nth_error (pre ++ map weightOf l) i) 0))
    l (List.length pre)
  = map (fun pkg => F pkg (weightOf pkg)) l.
Proof.
  revert pre. induction l as [|pkg l IH]; intro pre; simpl; [reflexivity|].
  f_equal.
  - rewrite nth_error_app2 by lia. now rewrite Nat.sub_diag.
  - specialize (IH (pre ++ [weightOf pkg])%list).
    rewrite length_app, Nat.add_1_r, <- app_assoc in IH. exact IH.
Qed.

Lemma calculateAllocation_map packages totalBudget :
  calculateAllocation packages totalBudget
  = map (outputFor (totalWeight packages) totalBudget) packages.
Proof.
  unfold calculateAllocation, outputFor, percentFor, amountFor, totalWeight.
  cbv zeta.
  destruct (Qeq_bool (sumWeights (map weightOf packages)) 0); [reflexivity|].
  exact (mapi_weights
    (fun pkg weight =>
       {| Out.packageName := packageName pkg;
          Out.percentage :=
            JS.round (weight / sumWeights (map weightOf packages) * 100 * 10)
            / 10;
          Out.suggestedAmount :=
            JS.round (weight / sumWeights (map weightOf packages)
                      * totalBudget * 100) / 100 |})
    packages []).
Qed.

Lemma weightOf_nonneg (pkg : AllocationInput) : (0 <= weightOf pkg)%Q.
Proof.
  unfold weightOf.
  destruct (category pkg); try apply JS.max_le_l; discriminate.
Qed.

Lemma sumWeights_cons (w : Q) (ws : list Q) :
  (sumWeights (w :: ws) == w + sumWeights ws)%Q.
Proof.
  unfold sumWeights at 1. simpl. rewrite sumWeights_from. ring.
Qed.

Lemma totalWeight_cons pkg packages :
  (totalWeight (pkg :: packages) == weightOf pkg + totalWeight packages)%Q.
Proof. unfold totalWeight. simpl. apply sumWeights_cons. Qed.

Lemma totalWeight_nonneg packages : (0 <= totalWeight packages)%Q.
Proof.
  induction packages as [|pkg packages IH]; [discriminate|].
  rewrite totalWeight_cons. pose proof (weightOf_nonneg pkg). lra.
Qed.

(** No package weighs more than all of them together. *)
Lemma weightOf_le_total pkg packages :
  In pkg packages -> (weightOf pkg <= totalWeight packages)%Q.
Proof.
  induction packages as [|p packages IH]; [intros []|].
  intros [<-|Hin]; rewrite totalWeight_cons.
  - pose proof (totalWeight_nonneg packages). lra.
  - specialize (IH Hin). pose proof (weightOf_nonneg p). lra.
Qed.

Lemma round_zero : JS.round 0 = 0%Q.
Proof. reflexivity. Qed.

Lemma round_nonneg (x : Q) : (0 <= x -> 0 <= JS.round x)%Q.
Proof. intro H. change 0%Q with (JS.round 0) at 1. now apply JS.round_mono. Qed.

(** The share of a package lies between 0 and 1. *)
Lemma share_bounds pkg packages :
  In pkg packages -> ~ (totalWeight packages == 0)%Q ->
  (0 <= weightOf pkg / totalWeight packages <= 1)%Q.
Proof.
  intros Hin Hne.
  pose proof (totalWeight_nonneg packages) as H0.
  pose proof (weightOf_nonneg pkg) as Hw.
  pose proof (weightOf_le_total pkg packages Hin) as Hle.
  assert (Hpos : (0 < totalWeight packages)%Q).
  { apply Qnot_le_lt. intro H. apply Hne. now apply Qle_antisym. }
  split.
  - apply Qle_shift_div_l; [exact Hpos|]. now rewrite Qmult_0_l.
  - apply Qle_shift_div_r; [exact Hpos|]. now rewrite Qmult_1_l.
Qed.

(** *** What every allocation satisfies *)

(** The outputs follow the inputs one for one: as many, in the same
    order, each under the name of its package. *)
Theorem calculateAllocation_aligned
    (packages : list AllocationInput) (totalBudget : Q) :
  map Out.packageName (calculateAllocation packages totalBudget)
  = map packageName packages /\
  List.length (calculateAllocation packages totalBudget)
  = List.length packages.
Proof.
  rewrite calculateAllocation_map. split.
  - rewrite map_map. reflexivity.
  - apply length_map.
Qed.

(** The percentages are the same for every budget. *)
Theorem percentage_ignores_budget
    (packages : list AllocationInput) (budget1 budget2 : Q) :
  map Out.percentage (calculateAllocation packages budget1)
  = map Out.percentage (calculateAllocation packages budget2).
Proof.
  rewrite !calculateAllocation_map, !map_map. reflexivity.
Qed.

(** For a budget that is not negative every output has a percentage
    between 0 and 100 and an amount between 0 and the budget rounded to
    cents; so a budget of 0 gives amounts of 0. *)
Theorem calculateAllocation_bounds
    (packages : list AllocationInput) (totalBudget : Q)
    (Hbudget : (0 <= totalBudget)%Q) :
  Forall (fun out =>
            (0 <= Out.percentage out <= 100)%Q /\
            (0 <= Out.suggestedAmount out
             <= JS.round (totalBudget * 100) / 100)%Q)
    (calculateAllocation packages totalBudget).
Proof.
  rewrite calculateAllocation_map. apply Forall_forall.
  intros out Hout. apply in_map_iff in Hout.
  destruct Hout as (pkg & <- & Hin).
  unfold outputFor, percentFor, amountFor. cbn [Out.percentage
    Out.suggestedAmount].
  assert (Hcents : (0 <= JS.round (totalBudget * 100) / 100)%Q).
  { apply Qle_shift_div_l; [reflexivity|]. rewrite Qmult_0_l.
    apply round_nonneg. lra. }
  destruct (Qeq_bool (totalWeight packages) 0) eqn:E.
  { split; split; try discriminate; exact Hcents. }
  apply Qeq_bool_neq in E.
  destruct (share_bounds pkg packages Hin E) as [Hlo Hhi].
  set (s := (weightOf pkg / totalWeight packages)%Q) in *. clearbody s.
  assert (Hsb : (0 <= s * totalBudget <= totalBudget)%Q).
  { split.
    - now apply Qmult_le_0_compat.
    - rewrite <- (Qmult_1_l totalBudget) at 2.
      now apply Qmult_le_compat_r. }
  set (sb := (s * totalBudget)%Q) in *. clearbody sb.
  split; split.
  - apply Qle_shift_div_l; [reflexivity|]. rewrite Qmult_0_l.
    apply round_nonneg. lra.
  - apply Qle_shift_div_r; [reflexivity|].
    change (100 * 10)%Q with (JS.round 1000). apply JS.round_mono. lra.
  - apply Qle_shift_div_l; [reflexivity|]. rewrite Qmult_0_l.
    apply round_nonneg. lra.
  - unfold Qdiv. apply Qmult_le_compat_r; [|discriminate].
    apply JS.round_mono. lra.
Qed.

Lemma calculateAllocation_bounds_witness :
  Forall (fun out =>
            (0 <= Out.percentage out <= 100)%Q /\
            (0 <= Out.suggestedAmount out <= JS.round (1000 * 100) / 100)%Q)
    (calculateAllocation mixedPackages 1000).
Proof.
  apply (calculateAllocation_bounds mixedPackages 1000). discriminate.
Defined.

(** A corporate package gets nothing, whatever the other packages and the
    budget are. *)
Theorem corporate_gets_nothing
    (packages : list AllocationInput) (totalBudget : Q)
    (i : nat) (pkg : AllocationInput)
    (Hi : nth_error packages i = Some pkg)
    (Hcorporate : category pkg = corporate) :
  exists out,
    nth_error (calculateAllocation packages totalBudget) i = Some out /\
    Out.packageName out = packageName pkg /\
    (Out.percentage out == 0)%Q /\ (Out.suggestedAmount out == 0)%Q.
Proof.
  rewrite calculateAllocation_map, nth_error_map, Hi. simpl.
  eexists. split; [reflexivity|]. split; [reflexivity|].
  unfold outputFor, percentFor, amountFor, weightOf. rewrite Hcorporate.
  cbn [Out.percentage Out.suggestedAmount].
  destruct (Qeq_bool (totalWeight packages) 0); [split; reflexivity|].
  set (t := totalWeight packages). clearbody t.
  assert (H1 : JS.round (0 / t * 100 * 10) = 0%Q).
  { transitivity (JS.round 0); [|reflexivity].
    apply round_comp. unfold Qdiv. ring. }
  assert (H2 : JS.round (0 / t * totalBudget * 100) = 0%Q).
  { transitivity (JS.round 0); [|reflexivity].
    apply round_comp. unfold Qdiv. ring. }
  rewrite H1, H2. split; reflexivity.
Qed.

Lemma corporate_gets_nothing_witness :
  exists out,
    nth_error (calculateAllocation mixedPackages 1000) 2 = Some out /\
    (Out.suggestedAmount out == 0)%Q.
Proof.
  destruct (corporate_gets_nothing mixedPackages 1000 2
              (mkAllocationInput "corp-pkg" 95 corporate) eq_refl eq_refl)
    as (out & Hout & _ & _ & Hamount).
  exists out. split; [exact Hout | exact Hamount].
Defined.

(** Of two packages of one list that are neither corporate nor thriving,
    the one with the lower score gets at least as much of a budget that is
    not negative, in percentage and in amount. *)
Theorem lower_score_gets_more
    (packages : list AllocationInput) (totalBudget : Q)
    (i j : nat) (p q : AllocationInput)
    (Hbudget : (0 <= totalBudget)%Q)
    (Hi : nth_error packages i = Some p)
    (Hj : nth_error packages j = Some q)
    (Hp : ordinary p) (Hq : ordinary q)
    (Hscore : (score p <= score q)%Q) :
  exists a b,
    nth_error (calculateAllocation packages totalBudget) i = Some a /\
    nth_error (calculateAllocation packages totalBudget) j = Some b /\
    (Out.percentage b <= Out.percentage a)%Q /\
    (Out.suggestedAmount b <= Out.suggestedAmount a)%Q.
Proof.
  rewrite calculateAllocation_map, !nth_error_map, Hi, Hj. simpl.
  eexists. eexists. split; [reflexivity|]. split; [reflexivity|].
  unfold outputFor, percentFor, amountFor.
  cbn [Out.percentage Out.suggestedAmount].
  destruct (Qeq_bool (totalWeight packages) 0) eqn:E;
    [split; apply Qle_refl|].
  apply Qeq_bool_neq in E.
  assert (Hw : (weightOf q <= weightOf p)%Q).
  { unfold weightOf. destruct Hp as [Hp1 Hp2], Hq as [Hq1 Hq2].
    destruct (category p); try contradiction;
      destruct (category q); try contradiction;
      apply JS.max_mono_r; lra. }
  assert (Hpos : (0 < totalWeight packages)%Q).
  { apply Qnot_le_lt. intro H. apply E. apply Qle_antisym; [exact H|].
    apply totalWeight_nonneg. }
  assert (Hshare : (weightOf q / totalWeight packages
                    <= weightOf p / totalWeight packages)%Q).
  { unfold Qdiv. apply Qmult_le_compat_r; [exact Hw|].
    apply Qlt_le_weak, Qinv_lt_0_compat, Hpos. }
  set (sq := (weightOf q / totalWeight packages)%Q) in *.
  set (sp := (weightOf p / totalWeight packages)%Q) in *.
  clearbody sq sp.
  split; unfold Qdiv; (apply Qmult_le_compat_r; [|discriminate]);
    apply JS.round_mono.
  - lra.
  - apply Qmult_le_compat_r; [|discriminate].
    now apply Qmult_le_compat_r.
Qed.

Lemma lower_score_gets_more_witness :
  exists a b,
    nth_error (calculateAllocation mixedPackages 1000) 1 = Some a /\
    nth_error (calculateAllocation mixedPackages 1000) 3 = Some b /\
    (Out.suggestedAmount b <= Out.suggestedAmount a)%Q.
Proof.
  destruct (lower_score_gets_more mixedPackages 1000 1 3
              (mkAllocationInput "critical-pkg" 20 critical)
              (mkAllocationInput "stable-pkg" 60 stable)
              ltac:(discriminate) eq_refl eq_refl
              ltac:(split; discriminate) ltac:(split; discriminate)
              ltac:(discriminate))
    as (a & b & Ha & Hb & _ & Hamount).
  exists a, b. split; [exact Ha|]. split; [exact Hb | exact Hamount].
Defined.

(** *** The amounts add up to the budget *)






(** The split of a budget of 1000 between two packages of weights 70 and
    50. *)
Example calculateAllocation_twoInNeed :
  map (fun out => (Out.packageName out,
                   Qred (Out.percentage out), Qred (Out.suggestedAmount out)))
    (calculateAllocation twoInNeed 1000)
  = [ ("pkg1", 583 # 10, 58333 # 100); ("pkg2", 417 # 10, 41667 # 100) ].
Proof. reflexivity. Qed.

End Allocation.


(** ** The analysis of a dependency list ([POST] of [api/analyze/route.ts]) *)

Module Analyze.

Local Open Scope string_scope.

(** A JavaScript object with string values, as the list of its entries in
    the order of [Object.keys]; the keys of an object are distinct.  (For
    keys that are not array indices, as the names of packages are, that
    order is the order of insertion.) *)
Definition Obj := list (string * string).

(** [Object.keys(o)]. *)
Definition keys (o : Obj) : list string := map fst o.

(** [k in o]. *)
Definition hasKey (o : Obj) (k : string) : bool :=
  existsb (fun e => String.eqb (fst e) k) o.

(** [o[k]]. *)
Definition prop (o : Obj) (k : string) : option string :=
  option_map snd (find (fun e => String.eqb (fst e) k) o).

(** [{...a, ...b}]: the keys of [a] in their order, with the value of [b]
    where [b] has the key, then the keys that only [b] has. *)
Definition spread (a b : Obj) : Obj :=
  (map (fun e => (fst e, JS.nullish (prop b (fst e)) (snd e))) a
   ++ filter (fun e => negb (hasKey a (fst e))) b)%list.

(** [new Map(entries).get(k)]: of several entries under one key the last
    one stays. *)
Definition mapGet {V : Type} (entries : list (string * V)) (k : string)
  : option V :=
  option_map snd (find (fun e => String.eqb (fst e) k) (rev entries)).

(** [new Map(entries).has(k)]. *)
Definition mapHas {V : Type} (entries : list (string * V)) (k : string)
  : bool :=
  match mapGet entries k with
  | Some _ => true
  | None => false
  end.

(** The columns of a maintainer that the handler reads. *)
Record Maintainer := mkMaintainer {
  maintainerName : option string;
  githubUsername : option string
}.

(** A row of [package_maintainers] with its maintainer, if there is
    one; times are in milliseconds, as [getTime()] gives them. *)
Record PackageMaintainer := mkPackageMaintainer {
  maintainer : option Maintainer;
  commitPercentage : option Q;
  recentCommits : option Q;
  lastCommitAt : option Q
}.

(** A row of [funding_sources]; the handler passes it on as it is. *)
Record FundingSourceRow := mkFundingSourceRow {
  platform : string;
  url : string;
  verified : option bool
}.

(** The columns of a package that the handler reads, with its relations. *)
Module Row.
Record PackageRow := mkPackageRow {
  name : string;
  lastPublish : option Q;
  weeklyDownloads : option Q;
  dependentCount : option Q;
  repositoryOwner : option string;
  ocSlug : option string;
  ocBalance : option Q;
  ocYearlyIncome : option Q;
  ocBackersCount : option Q;
  ocGoalAmount : option Q;
  ocGoalProgress : option Q;
  ocTopSponsors : option (list Funding.TopSponsor);
  ghSponsorsCount : option Q;
  ghHasSponsorsListing : option bool;
  ghTopSponsors : option (list Funding.RawSponsor);
  corporateBacking : option string;
  aiDisruptionFlag : option bool;
  maintainerStatus : option Scoring.SustainabilityCategory;
  maintainers : list PackageMaintainer;
  fundingSources : list FundingSourceRow
}.
End Row.
Abbreviation PackageRow := Row.PackageRow.

(** A maintainer as the response shows it. *)
Module Top.
Record TopMaintainer := mkTopMaintainer {
  name : option string;
  githubUsername : option string;
  commitPercentage : option Q;
  recentCommits : option Q;
  lastCommitAt : option Q
}.
End Top.
Abbreviation TopMaintainer := Top.TopMaintainer.

(** An analyzed package; the fields that only a package that was found
    has are optional. *)
Module Pkg.
Record AnalyzedPackage := mkAnalyzedPackage {
  name : string;
  version : option string;
  found : bool;
  sustainabilityScore : Q;
  category : Scoring.SustainabilityCategory;
  scoreExplanation : option (list string);
  corporateBacking : option string;
  aiDisruptionFlag : option bool;
  weeklyDownloads : option Q;
  fundingSources : list FundingSourceRow;
  fundingSummary : option Funding.FundingSummary;
  maintainers : list TopMaintainer
}.
End Pkg.
Abbreviation AnalyzedPackage := Pkg.AnalyzedPackage.

(** An analyzed package with its allocation. *)
Record Allocated := mkAllocated {
  package : AnalyzedPackage;
  allocation : option Allocation.AllocationOutput
}.

Record ByCategory := mkByCategory {
  critical : nat;
  needsSupport : nat;
  stable : nat;
  thriving : nat;
  corporate : nat
}.

Record Summary := mkSummary {
  total : nat;
  found : nat;
  notFound : nat;
  byCategory : ByCategory
}.

(** The fields of the body that the handler reads.  [dependencies] is
    none when the field is missing, falsy or not an object, which the
    handler does not tell apart; [devDependencies] and [budget] are none
    when they are missing. *)
Record AnalyzeRequest := mkAnalyzeRequest {
  dependencies : option Obj;
  devDependencies : option Obj;
  budget : option Q
}.

(** What [await request.json()] gives.  It rejects when the body is not
    JSON.  The value [null] has no property to read, so that reading
    [body.dependencies] throws; of any other value the fields are read, and
    a value that is not an object has none of them. *)
Inductive ParsedBody :=
| Unparsable
| JsonNull
| JsonObject (body : AnalyzeRequest).

(** What the handler answers: an error with its status, or the analysis. *)
Inductive Response :=
| Failure (status : nat) (error : string)
| Analysis (summary : Summary) (budget : Q) (packages : list Allocated).

(** The answer, and the names the handler asks the database to insert for
    a later crawl. *)
Record Outcome := mkOutcome {
  response : Response;
  seeded : list string
}.

(** [c === category], on categories. *)
Definition sameCategory (a b : Scoring.SustainabilityCategory) : bool :=
  match a, b with
  | Scoring.critical, Scoring.critical
  | Scoring.needs_support, Scoring.needs_support
  | Scoring.stable, Scoring.stable
  | Scoring.thriving, Scoring.thriving
  | Scoring.corporate, Scoring.corporate => true
  | _, _ => false
  end.

(** [xs.filter(p).length]. *)
Definition count {A : Type} (p : A -> bool) (xs : list A) : nat :=
  List.length (filter p xs).

(** The comparator of the maintainers: the latest commit first, then the
    larger share of the commits. *)
Definition byLastCommit (a b : PackageMaintainer) : Q :=
  let aTime := Funding.orZero (lastCommitAt a) in
  let bTime := Funding.orZero (lastCommitAt b) in
  if negb (Qeq_bool bTime aTime) then bTime - aTime
  else Funding.orZero (commitPercentage b)
       - Funding.orZero (commitPercentage a).

(** [m.maintainer] is there. *)
Definition hasMaintainer (m : PackageMaintainer) : bool :=
  match maintainer m with
  | Some _ => true
  | None => false
  end.

Definition topMaintainer (m : PackageMaintainer) : TopMaintainer :=
  {| Top.name := match maintainer m with
                 | Some p => maintainerName p
                 | None => None
                 end;
     Top.githubUsername := match maintainer m with
                           | Some p => githubUsername p
                           | None => None
                           end;
     Top.commitPercentage := commitPercentage m;
     Top.recentCommits := recentCommits m;
     Top.lastCommitAt := lastCommitAt m |}.

(** The amount by which the response is sorted:
    [p.allocation?.suggestedAmount || 0]. *)
Definition amountOf (p : Allocated) : Q :=
  Funding.orZero (option_map Allocation.Out.suggestedAmount (allocation p)).

(** The comparator of the response: the larger amount first. *)
Definition byAmount (a b : Allocated) : Q := amountOf b - amountOf a.

(** The package as [calculateAllocation] takes it. *)
Definition allocationInput (p : AnalyzedPackage) : Allocation.AllocationInput :=
  {| Allocation.packageName := Pkg.name p;
     Allocation.score := Pkg.sustainabilityScore p;
     Allocation.category := Pkg.category p |}.

(** The entry of a package that is not in the database. *)
Definition unknownPackage (name : string) (version : option string)
  : AnalyzedPackage :=
  {| Pkg.name := name;
     Pkg.version := version;
     Pkg.found := false;
     Pkg.sustainabilityScore := 50;
     Pkg.category := Scoring.stable;
     Pkg.scoreExplanation := None;
     Pkg.corporateBacking := None;
     Pkg.aiDisruptionFlag := None;
     Pkg.weeklyDownloads := None;
     Pkg.fundingSources := [];
     Pkg.fundingSummary := None;
     Pkg.maintainers := [] |}.

(** *** Objects, maps and the sort by a key *)

Lemma hasKey_In (o : Obj) (k : string) : hasKey o k = true <-> In k (keys o).
Proof.
  unfold hasKey, keys. rewrite existsb_exists, in_map_iff.
  split; intros (e & H1 & H2); exists e.
  - apply String.eqb_eq in H2. now split.
  - split; [exact H2 | now apply String.eqb_eq].
Qed.

Lemma keys_spread (a b : Obj) :
  keys (spread a b)
  = (keys a ++ keys (filter (fun e => negb (hasKey a (fst e))) b))%list.
Proof.
  unfold spread, keys. rewrite map_app, map_map. reflexivity.
Qed.

Lemma NoDup_map_filter {A B : Type} (g : A -> B) (f : A -> bool)
    (l : list A) :
  NoDup (map g l) -> NoDup (map g (filter f l)).
Proof.
  induction l as [|x l IH]; simpl; intro H; [constructor|].
  inversion H as [|? ? Hnotin Hl]; subst.
  destruct (f x); [|now apply IH].
  simpl. constructor; [|now apply IH].
  intro Hin. apply Hnotin. apply in_map_iff in Hin.
  destruct Hin as (y & Hy & Hin). apply filter_In in Hin.
  apply in_map_iff. exists y. tauto.
Qed.

(** The keys of a spread are distinct when those of its parts are. *)
Lemma spread_NoDup (a b : Obj) :
  NoDup (keys a) -> NoDup (keys b) -> NoDup (keys (spread a b)).
Proof.
  intros Ha Hb. rewrite keys_spread. apply NoDup_app.
  - exact Ha.
  - now apply NoDup_map_filter.
  - intros k Hk Hin. unfold keys in Hin. apply in_map_iff in Hin.
    destruct Hin as (e & <- & He). apply filter_In in He.
    destruct He as [_ He]. apply negb_true_iff in He.
    apply hasKey_In in Hk. congruence.
Qed.

Lemma find_key_unique {V : Type} (l : list (string * V)) (k : string)
    (v : V) :
  NoDup (map fst l) -> In (k, v) l ->
  find (fun e => String.eqb (fst e) k) l = Some (k, v).
Proof.
  induction l as [|[k' v'] l IH]; simpl; intros Hnd Hin; [contradiction|].
  inversion Hnd as [|? ? Hnotin Hl]; subst.
  destruct Hin as [[= -> ->]|Hin].
  - now rewrite String.eqb_refl.
  - destruct (String.eqb k' k) eqn:E.
    + apply String.eqb_eq in E. subst k'. exfalso. apply Hnotin.
      apply in_map_iff. now exists (k, v).
    + now apply IH.
Qed.

(** Under distinct keys a map gives back the value of the entry. *)
Lemma mapGet_unique {V : Type} (entries : list (string * V)) (k : string)
    (v : V) :
  NoDup (map fst entries) -> In (k, v) entries ->
  mapGet entries k = Some v.
Proof.
  intros Hnd Hin. unfold mapGet.
  rewrite (find_key_unique (rev entries) k v).
  - reflexivity.
  - rewrite map_rev. now apply NoDup_rev.
  - now apply in_rev in Hin.
Qed.

Lemma mapGet_Some_In {V : Type} (entries : list (string * V)) (k : string)
    (v : V) :
  mapGet entries k = Some v -> In (k, v) entries.
Proof.
  unfold mapGet. intro H.
  destruct (find _ (rev entries)) as [[k' v']|] eqn:F; [|discriminate].
  apply find_some in F. destruct F as [Hin Hk]. simpl in *.
  injection H as <-. apply String.eqb_eq in Hk. subst k'.
  now apply in_rev.
Qed.

Lemma mapHas_In {V : Type} (entries : list (string * V)) (k : string) :
  mapHas entries k = true <-> In k (map fst entries).
Proof.
  unfold mapHas, mapGet. split.
  - destruct (find _ (rev entries)) as [[k' v']|] eqn:F; [|discriminate].
    intros _. apply find_some in F. destruct F as [Hin Hk]. simpl in Hk.
    apply String.eqb_eq in Hk. subst k'. apply in_map_iff.
    exists (k, v'). split; [reflexivity | now apply in_rev].
  - intro Hin. apply in_map_iff in Hin. destruct Hin as ([k' v] & Hk & Hin).
    simpl in Hk. subst k'.
    destruct (find _ (rev entries)) as [e|] eqn:F; [reflexivity|].
    exfalso. apply in_rev in Hin.
    pose proof (find_none _ _ F _ Hin) as Hf. simpl in Hf.
    now rewrite String.eqb_refl in Hf.
Qed.

Section ByKey.
Context {A : Type} (key : A -> Q).

(** The comparator that puts the larger key first. *)
Definition larger_first (a b : A) : Q := key b - key a.

Lemma insert_larger_first (x : A) (l : list A) :
  StronglySorted (fun a b => key b <= key a)%Q l ->
  StronglySorted (fun a b => key b <= key a)%Q
    (Scoring.insert larger_first x l).
Proof.
  induction l as [|y ys IH]; simpl; intro Hs.
  - constructor; constructor.
  - apply StronglySorted_inv in Hs. destruct Hs as [Hys Hy].
    unfold larger_first at 1.
    destruct (JS.ltb (key x - key y) 0) eqn:E.
    + apply JS.ltb_lt in E. constructor; [now apply IH|].
      rewrite (Scoring.insert_perm larger_first x ys).
      constructor; [lra | exact Hy].
    + apply JS.ltb_ge in E. constructor.
      * constructor; assumption.
      * constructor; [lra|].
        eapply Forall_impl; [|exact Hy].
        intros z Hz. simpl in Hz. lra.
Qed.

Lemma sort_larger_first (l : list A) :
  StronglySorted (fun a b => key b <= key a)%Q
    (Scoring.sort larger_first l).
Proof.
  induction l as [|x l IH]; simpl.
  - constructor.
  - now apply insert_larger_first.
Qed.
End ByKey.

Lemma count_split {A : Type} (p : A -> bool) (l : list A) :
  (count p l + count (fun x => negb (p x)) l = List.length l)%nat.
Proof.
  unfold count. induction l as [|x l IH]; simpl; [reflexivity|].
  destruct (p x); simpl; lia.
Qed.

(** Every package falls into one category. *)
Lemma count_categories (l : list AnalyzedPackage) :
  (count (fun p => sameCategory (Pkg.category p) Scoring.critical) l
   + count (fun p => sameCategory (Pkg.category p) Scoring.needs_support) l
   + count (fun p => sameCategory (Pkg.category p) Scoring.stable) l
   + count (fun p => sameCategory (Pkg.category p) Scoring.thriving) l
   + count (fun p => sameCategory (Pkg.category p) Scoring.corporate) l
   = List.length l)%nat.
Proof.
  unfold count. induction l as [|x l IH]; simpl; [reflexivity|].
  destruct (Pkg.category x); simpl; lia.
Qed.

Section Handler.

Variable log10 : Q -> Q.
Variable toLocaleString : Q -> string.
Variable toString : Q -> string.

(** The milliseconds of a day: [1000 * 60 * 60 * 24]. *)
Definition msPerDay : Q := 1000 * 60 * 60 * 24.

(** The inputs of the score that the handler reads off a row; [now] is
    [Date.now()]. *)
Definition scoringInputs (now : Q) (pkg : PackageRow) : Scoring.ScoringInputs :=
  {| Scoring.weeklyDownloads := Row.weeklyDownloads pkg;
     Scoring.dependentCount := Row.dependentCount pkg;
     Scoring.ocBalance := Row.ocBalance pkg;
     Scoring.ocYearlyIncome := Row.ocYearlyIncome pkg;
     Scoring.githubSponsors := None;
     Scoring.corporateBacking := Row.corporateBacking pkg;
     Scoring.maintainerCount :=
       Some (inject_Z (Z.of_nat (List.length (Row.maintainers pkg))));
     Scoring.daysSinceLastPublish :=
       match Row.lastPublish pkg with
       | Some published => Some (JS.floor ((now - published) / msPerDay))
       | None => None
       end;
     Scoring.aiDisruptionFlag := Row.aiDisruptionFlag pkg;
     Scoring.maintainerStatus := Row.maintainerStatus pkg |}.

Definition fundingFields (pkg : PackageRow) : Funding.PackageWithFunding :=
  {| Funding.ocSlug := Row.ocSlug pkg;
     Funding.ocBalance := Row.ocBalance pkg;
     Funding.ocYearlyIncome := Row.ocYearlyIncome pkg;
     Funding.ocBackersCount := Row.ocBackersCount pkg;
     Funding.ocGoalAmount := Row.ocGoalAmount pkg;
     Funding.ocGoalProgress := Row.ocGoalProgress pkg;
     Funding.ocTopSponsors := Row.ocTopSponsors pkg;
     Funding.ghHasSponsorsListing := Row.ghHasSponsorsListing pkg;
     Funding.ghSponsorsCount := Row.ghSponsorsCount pkg;
     Funding.ghTopSponsors := Row.ghTopSponsors pkg;
     Funding.repositoryOwner := Row.repositoryOwner pkg |}.

(** One step of [packageNames.map((name) => ...)]. *)
Definition analyzeOne (now : Q) (allDeps : Obj)
    (packageMap : list (string * PackageRow)) (name : string)
  : AnalyzedPackage :=
  let version := prop allDeps name in
  match mapGet packageMap name with
  | None => unknownPackage name version
  | Some pkg =>
      let score :=
        Scoring.calculateScore log10 toLocaleString toString
          (scoringInputs now pkg) Scoring.DEFAULT_WEIGHTS in
      let topMaintainers :=
        map topMaintainer
          (firstn 5
             (Scoring.sort byLastCommit
                (filter hasMaintainer (Row.maintainers pkg)))) in
      let fundingSummary := Funding.buildFundingSummary (fundingFields pkg) in
      {| Pkg.name := name;
         Pkg.version := version;
         Pkg.found := true;
         Pkg.sustainabilityScore := Scoring.score score;
         Pkg.category := Scoring.category score;
         Pkg.scoreExplanation := Some (Scoring.explanation score);
         Pkg.corporateBacking := Row.corporateBacking pkg;
         Pkg.aiDisruptionFlag := Row.aiDisruptionFlag pkg;
         Pkg.weeklyDownloads := Row.weeklyDownloads pkg;
         Pkg.fundingSources := Row.fundingSources pkg;
         Pkg.fundingSummary := fundingSummary;
         Pkg.maintainers := topMaintainers |}
  end.

Definition summarize (packageNames : list string)
    (analyzed : list AnalyzedPackage) : Summary :=
  {| total := List.length packageNames;
     found := count Pkg.found analyzed;
     notFound := count (fun p => negb (Pkg.found p)) analyzed;
     byCategory :=
       {| critical :=
            count (fun p => sameCategory (Pkg.category p) Scoring.critical)
              analyzed;
          needsSupport :=
            count (fun p => sameCategory (Pkg.category p)
                              Scoring.needs_support) analyzed;
          stable :=
            count (fun p => sameCategory (Pkg.category p) Scoring.stable)
              analyzed;
          thriving :=
            count (fun p => sameCategory (Pkg.category p) Scoring.thriving)
              analyzed;
          corporate :=
            count (fun p => sameCategory (Pkg.category p) Scoring.corporate)
              analyzed |} |}.

(** The answer of the [catch] around the whole handler. *)
Definition internalError : Outcome :=
  {| response := Failure 500 "Internal server error"; seeded := [] |}.

(** The handler.  [body] is what [request.json()] gives, [results] what
    the query for the packages of the given names answers when it is run,
    none when it rejects, and [now] is [Date.now()].  The three checks of
    the body come before the query; whatever is thrown, by the parsing, by
    reading a field of [null] or by the query, is caught and answered with
    status 500. *)
Definition POST (body : ParsedBody) (results : option (list PackageRow))
    (now : Q) : Outcome :=
  match body with
  | Unparsable => internalError
  | JsonNull => internalError
  | JsonObject body =>
  match dependencies body with
  | None =>
      {| response := Failure 400 "dependencies object required";
         seeded := [] |}
  | Some deps =>
      let allDeps := spread deps (JS.nullish (devDependencies body) []) in
      let packageNames := keys allDeps in
      if (List.length packageNames =? 0)%nat then
        {| response := Failure 400 "No dependencies provided"; seeded := [] |}
      else if (500 <? List.length packageNames)%nat then
        {| response := Failure 400 "Too many dependencies (max 500)";
           seeded := [] |}
      else
        match results with
        | None => internalError
        | Some results =>
        let packageMap := map (fun p => (Row.name p, p)) results in
        let unknownPackages :=
          filter (fun name => negb (mapHas packageMap name)) packageNames in
        let analyzed := map (analyzeOne now allDeps packageMap) packageNames in
        let budget := if JS.truthy_num (budget body)
                      then JS.nullish (budget body) 0%Q
                      else 100%Q in
        let allocation :=
          Allocation.calculateAllocation (map allocationInput analyzed)
            budget in
        let allocationMap :=
          map (fun a => (Allocation.Out.packageName a, a)) allocation in
        let packagesWithAllocation :=
          map (fun p => {| package := p;
                           allocation := mapGet allocationMap (Pkg.name p) |})
            analyzed in
        let summary := summarize packageNames analyzed in
        {| response :=
             Analysis summary budget
               (Scoring.sort byAmount packagesWithAllocation);
           seeded := unknownPackages |}
        end
  end
  end.

(** *** What the handler answers *)

(** The merged dependencies, the names asked for, the analysis of each and
    the budget in force, as [POST] computes them. *)
Definition allDepsOf (body : AnalyzeRequest) : Obj :=
  match dependencies body with
  | Some deps => spread deps (JS.nullish (devDependencies body) [])
  | None => []
  end.

Definition requested (body : AnalyzeRequest) : list string :=
  keys (allDepsOf body).

Definition packageMapOf (results : list PackageRow)
  : list (string * PackageRow) :=
  map (fun p => (Row.name p, p)) results.

Definition analyzedOf (body : AnalyzeRequest) (results : list PackageRow)
    (now : Q) : list AnalyzedPackage :=
  map (analyzeOne now (allDepsOf body) (packageMapOf results))
    (requested body).

Definition budgetOf (body : AnalyzeRequest) : Q :=
  if JS.truthy_num (budget body) then JS.nullish (budget body) 0%Q
  else 100%Q.

Definition allocatedOf (body : AnalyzeRequest) (results : list PackageRow)
    (now : Q) : list Allocated :=
  let analyzed := analyzedOf body results now in
  let allocationMap :=
    map (fun a => (Allocation.Out.packageName a, a))
      (Allocation.calculateAllocation (map allocationInput analyzed)
         (budgetOf body)) in
  map (fun p => {| package := p;
                   allocation := mapGet allocationMap (Pkg.name p) |})
    analyzed.

(** The request passes the three checks. *)
Definition accepted (body : AnalyzeRequest) : Prop :=
  dependencies body <> None /\ requested body <> [] /\
  (List.length (requested body) <= 500)%nat.

(** The objects of the request have distinct keys, as objects have. *)
Definition wellFormed (body : AnalyzeRequest) : Prop :=
  NoDup (keys (JS.nullish (dependencies body) [])) /\
  NoDup (keys (JS.nullish (devDependencies body) [])).

(** A body that passes the checks is answered by what the query gives. *)
Lemma POST_checked body results now :
  accepted body ->
  POST (JsonObject body) results now
  = match results with
    | None => internalError
    | Some rows =>
        {| response :=
             Analysis (summarize (requested body) (analyzedOf body rows now))
               (budgetOf body)
               (Scoring.sort byAmount (allocatedOf body rows now));
           seeded :=
             filter (fun name => negb (mapHas (packageMapOf rows) name))
               (requested body) |}
    end.
Proof.
  intros (Hdeps & Hnames & Hmax).
  unfold POST, allocatedOf, analyzedOf, requested, allDepsOf, budgetOf,
    packageMapOf in *.
  destruct (dependencies body) as [deps|]; [|contradiction].
  cbv zeta.
  set (names := keys (spread deps (JS.nullish (devDependencies body) [])))
    in *.
  destruct (List.length names =? 0)%nat eqn:E0.
  { apply Nat.eqb_eq in E0. destruct names; [contradiction | discriminate]. }
  destruct (500 <? List.length names)%nat eqn:E500.
  { apply Nat.ltb_lt in E500. lia. }
  destruct results; reflexivity.
Qed.

Lemma POST_accepted body results now :
  accepted body ->
  POST (JsonObject body) (Some results) now
  = {| response :=
         Analysis (summarize (requested body) (analyzedOf body results now))
           (budgetOf body)
           (Scoring.sort byAmount (allocatedOf body results now));
       seeded :=
         filter (fun name => negb (mapHas (packageMapOf results) name))
           (requested body) |}.
Proof. intro H. exact (POST_checked body (Some results) now H). Qed.

(** A body that fails one of the three checks is answered with status 400,
    whatever the query would give. *)
Lemma POST_refused body results now :
  ~ accepted body ->
  exists error,
    POST (JsonObject body) results now
    = {| response := Failure 400 error; seeded := [] |}.
Proof.
  intro Hno. unfold accepted, requested, allDepsOf in Hno. unfold POST.
  destruct (dependencies body) as [deps|]; [|eexists; reflexivity].
  cbv zeta.
  set (names := keys (spread deps (JS.nullish (devDependencies body) [])))
    in *.
  destruct (List.length names =? 0)%nat eqn:E0; [eexists; reflexivity|].
  destruct (500 <? List.length names)%nat eqn:E500; [eexists; reflexivity|].
  exfalso. apply Hno. apply Nat.eqb_neq in E0. apply Nat.ltb_ge in E500.
  split; [discriminate|]. split; [|exact E500].
  intro Hnil. rewrite Hnil in E0. now apply E0.
Qed.

Lemma analyzeOne_name now allDeps packageMap name :
  Pkg.name (analyzeOne now allDeps packageMap name) = name.
Proof. unfold analyzeOne. now destruct (mapGet packageMap name). Qed.

Lemma analyzedOf_names body results now :
  map Pkg.name (analyzedOf body results now) = requested body.
Proof.
  unfold analyzedOf. rewrite map_map.
  rewrite <- (map_id (requested body)) at 2.
  apply map_ext. intro name. apply analyzeOne_name.
Qed.

Lemma allocatedOf_packages body results now :
  map package (allocatedOf body results now) = analyzedOf body results now.
Proof.
  unfold allocatedOf. cbv zeta. rewrite map_map. apply map_id.
Qed.

Lemma requested_NoDup body : wellFormed body -> NoDup (requested body).
Proof.
  intros [Hdeps Hdev]. unfold requested, allDepsOf.
  destruct (dependencies body) as [deps|]; [|constructor].
  now apply spread_NoDup.
Qed.

Lemma budgetOf_nonzero body : ~ (budgetOf body == 0)%Q.
Proof.
  unfold budgetOf, JS.truthy_num.
  destruct (budget body) as [b|]; [|discriminate].
  destruct (Qeq_bool b 0) eqn:E; cbn [negb JS.nullish]; [discriminate|].
  now apply Qeq_bool_neq.
Qed.

Lemma budgetOf_zero body b :
  budget body = Some b -> (b == 0)%Q -> budgetOf body = 100%Q.
Proof.
  intros Hb Hz. unfold budgetOf, JS.truthy_num. rewrite Hb.
  apply Qeq_bool_iff in Hz. now rewrite Hz.
Qed.

Lemma budgetOf_given body b :
  budget body = Some b -> ~ (b == 0)%Q -> budgetOf body = b.
Proof.
  intros Hb Hz. unfold budgetOf, JS.truthy_num. rewrite Hb.
  destruct (Qeq_bool b 0) eqn:E; [|reflexivity].
  exfalso. apply Hz. now apply Qeq_bool_iff.
Qed.

(** The handler answers every request, in one of these ways.  A body that
    is not JSON and a body that is [null] are answered with status 500.
    Of any other body the three checks are made, before the database is
    asked: status 400 when the dependencies are missing, when no name is
    left after merging them with the dev-dependencies, and when there are
    more than 500 names.  A body that passes them is answered with status
    500 when the query rejects, and with an analysis when it returns rows:
    one package for each name, a total that counts the names, found and
    not-found counts that add up to it, category counts that add up to it,
    and a budget that is 100 when the body gives none, 100 when it gives 0,
    and the given one otherwise, so never 0.  No insertion is asked for
    with a failure, and a failure is either one of status 500 with the
    error "Internal server error", in the cases above, or one of status
    400 for a body that fails a check. *)
Theorem POST_validation
    (parsed : ParsedBody) (results : option (list PackageRow)) (now : Q) :
  (parsed = Unparsable \/ parsed = JsonNull ->
   POST parsed results now
   = {| response := Failure 500 "Internal server error"; seeded := [] |}) /\
  (forall body, parsed = JsonObject body ->
     (dependencies body = None ->
      POST parsed results now
      = {| response := Failure 400 "dependencies object required";
           seeded := [] |}) /\
     (dependencies body <> None -> requested body = [] ->
      POST parsed results now
      = {| response := Failure 400 "No dependencies provided";
           seeded := [] |}) /\
     (dependencies body <> None ->
      (500 < List.length (requested body))%nat ->
      POST parsed results now
      = {| response := Failure 400 "Too many dependencies (max 500)";
           seeded := [] |}) /\
     (accepted body -> results = None ->
      POST parsed results now
      = {| response := Failure 500 "Internal server error";
           seeded := [] |}) /\
     (accepted body -> forall rows, results = Some rows ->
      exists summary packages,
        response (POST parsed results now)
        = Analysis summary (budgetOf body) packages /\
        ~ (budgetOf body == 0)%Q /\
        (budget body = None -> budgetOf body = 100%Q) /\
        (forall b, budget body = Some b -> (b == 0)%Q ->
                   budgetOf body = 100%Q) /\
        (forall b, budget body = Some b -> ~ (b == 0)%Q ->
                   budgetOf body = b) /\
        total summary = List.length (requested body) /\
        List.length packages = total summary /\
        (found summary + notFound summary = total summary)%nat /\
        (critical (byCategory summary) + needsSupport (byCategory summary)
         + stable (byCategory summary) + thriving (byCategory summary)
         + corporate (byCategory summary) = total summary)%nat)) /\
  (forall status error,
     response (POST parsed results now) = Failure status error ->
     seeded (POST parsed results now) = [] /\
     ((status = 500%nat /\ error = "Internal server error" /\
       (parsed = Unparsable \/ parsed = JsonNull \/
        exists body, parsed = JsonObject body /\ accepted body /\
                     results = None)) \/
      (status = 400%nat /\
       exists body, parsed = JsonObject body /\ ~ accepted body))).
Proof.
  split; [|split].
  - intros [-> | ->]; reflexivity.
  - intros body ->. split; [|split; [|split; [|split]]].
    + intro H. unfold POST. now rewrite H.
    + intros Hdeps Hnone. unfold POST, requested, allDepsOf in *.
      destruct (dependencies body) as [deps|]; [|contradiction].
      cbv zeta. now rewrite Hnone.
    + intros Hdeps Hmany. unfold POST, requested, allDepsOf in *.
      destruct (dependencies body) as [deps|]; [|contradiction].
      cbv zeta.
      set (names := keys (spread deps (JS.nullish (devDependencies body) [])))
        in *.
      destruct (List.length names =? 0)%nat eqn:E0.
      { apply Nat.eqb_eq in E0. lia. }
      apply Nat.ltb_lt in Hmany. now rewrite Hmany.
    + intros Hacc ->. now rewrite (POST_checked body None now Hacc).
    + intros Hacc rows ->. rewrite (POST_accepted body rows now Hacc).
      eexists. eexists. split; [reflexivity|].
      assert (Hlen : List.length (analyzedOf body rows now)
                     = List.length (requested body))
        by (unfold analyzedOf; apply length_map).
      split; [apply budgetOf_nonzero|].
      split; [intro Hb; unfold budgetOf; now rewrite Hb|].
      split; [apply budgetOf_zero|].
      split; [apply budgetOf_given|].
      cbn [summarize total found notFound byCategory critical needsSupport
           stable thriving corporate].
      split; [reflexivity|].
      split.
      { rewrite Scoring.sort_length. unfold allocatedOf. cbv zeta.
        now rewrite length_map. }
      split; [rewrite count_split; exact Hlen|].
      rewrite count_categories. exact Hlen.
  - intros status error.
    destruct parsed as [| |body].
    + cbn. intros [= <- <-]. split; [reflexivity|]. left. tauto.
    + cbn. intros [= <- <-]. split; [reflexivity|]. left. tauto.
    + assert (Hdec : accepted body \/ ~ accepted body).
      { unfold accepted.
        destruct (dependencies body); [|right; intros [H _]; now apply H].
        destruct (requested body) as [|n ns] eqn:En;
          [right; intros (_ & H & _); now apply H|].
        destruct (le_dec (List.length (n :: ns)) 500) as [Hle|Hgt].
        - left. split; [discriminate|]. split; [discriminate | exact Hle].
        - right. intros (_ & _ & H). now apply Hgt. }
      destruct Hdec as [Hacc|Hno].
      * rewrite (POST_checked body results now Hacc).
        destruct results as [rows|]; [discriminate|].
        cbn. intros [= <- <-]. split; [reflexivity|]. left.
        split; [reflexivity|]. split; [reflexivity|].
        right. right. exists body. tauto.
      * destruct (POST_refused body results now Hno) as [e He].
        rewrite He. cbn. intros [= <- <-]. split; [reflexivity|]. right.
        split; [reflexivity|]. exists body. tauto.
Qed.

(** An accepted request for which the query returns rows is answered with
    every requested name once, the packages in descending order of their
    suggested amounts. *)
Theorem POST_sorted_by_amount
    (body : AnalyzeRequest) (results : list PackageRow) (now : Q)
    (Haccepted : accepted body) :
  exists summary packages,
    response (POST (JsonObject body) (Some results) now)
    = Analysis summary (budgetOf body) packages /\
    Permutation (map (fun p => Pkg.name (package p)) packages)
      (requested body) /\
    StronglySorted (fun a b => amountOf b <= amountOf a)%Q packages.
Proof.
  rewrite (POST_accepted body results now Haccepted).
  eexists. eexists. split; [reflexivity|]. split.
  - rewrite <- (analyzedOf_names body results now),
      <- (allocatedOf_packages body results now), map_map.
    apply Permutation_map, Scoring.sort_perm.
  - apply (sort_larger_first amountOf).
Qed.

(** In the analysis of an accepted request whose objects have distinct keys,
    every package carries the allocation that [calculateAllocation] made
    for it: the one of its own name, score and category, out of the total
    weight of all the packages analyzed. *)
Theorem POST_own_allocation
    (body : AnalyzeRequest) (results : list PackageRow) (now : Q)
    (Haccepted : accepted body) (Hobjects : wellFormed body) :
  exists summary packages,
    response (POST (JsonObject body) (Some results) now)
    = Analysis summary (budgetOf body) packages /\
    forall p, In p packages ->
      allocation p
      = Some (Allocation.outputFor
                (Allocation.totalWeight
                   (map allocationInput (analyzedOf body results now)))
                (budgetOf body) (allocationInput (package p))).
Proof.
  rewrite (POST_accepted body results now Haccepted).
  eexists. eexists. split; [reflexivity|].
  intros p Hp.
  apply (Permutation_in _ (Scoring.sort_perm byAmount _)) in Hp.
  unfold allocatedOf in Hp. cbv zeta in Hp. apply in_map_iff in Hp.
  destruct Hp as (a & <- & Ha). cbn [package allocation].
  rewrite Allocation.calculateAllocation_map.
  apply mapGet_unique.
  - rewrite !map_map. cbn [fst Allocation.outputFor
      Allocation.Out.packageName allocationInput Allocation.packageName].
    change (NoDup (map Pkg.name (analyzedOf body results now))).
    rewrite analyzedOf_names. now apply requested_NoDup.
  - apply in_map_iff.
    exists (Allocation.outputFor
              (Allocation.totalWeight
                 (map allocationInput (analyzedOf body results now)))
              (budgetOf body) (allocationInput a)).
    split; [reflexivity|].
    apply in_map, in_map, Ha.
Qed.

(** A requested name without a row in the database is answered with the
    placeholder: not found, score 50, category stable (not the band of
    50, which is needs-support), a weight of 50 in the allocation; and the
    names the handler asks to insert are exactly these names. *)
Theorem POST_unknown_package
    (body : AnalyzeRequest) (results : list PackageRow) (now : Q)
    (Haccepted : accepted body) :
  (forall name,
     In name (seeded (POST (JsonObject body) (Some results) now))
     <-> In name (requested body) /\
         forall row, In row results -> Row.name row <> name) /\
  (forall name,
     In name (requested body) ->
     (forall row, In row results -> Row.name row <> name) ->
     exists summary packages p,
       response (POST (JsonObject body) (Some results) now)
       = Analysis summary (budgetOf body) packages /\
       In p packages /\
       package p = unknownPackage name (prop (allDepsOf body) name) /\
       Allocation.weightOf (allocationInput (package p)) = 50%Q /\
       Pkg.category (package p) = Scoring.stable /\
       Scoring.categoryOf (Pkg.sustainabilityScore (package p))
       = Scoring.needs_support).
Proof.
  rewrite (POST_accepted body results now Haccepted). cbn [seeded response].
  assert (Hmiss : forall name,
    (forall row, In row results -> Row.name row <> name)
    <-> mapHas (packageMapOf results) name = false).
  { intro name. rewrite <- not_true_iff_false, mapHas_In.
    unfold packageMapOf. rewrite map_map. cbn [fst]. split.
    - intros H Hin. apply in_map_iff in Hin.
      destruct Hin as (row & Hrow & Hin). exact (H row Hin Hrow).
    - intros H row Hin Hrow. apply H. apply in_map_iff. now exists row. }
  split.
  - intro name. rewrite filter_In, negb_true_iff, Hmiss. reflexivity.
  - intros name Hin Hnone. apply Hmiss in Hnone.
    assert (Hget : mapGet (packageMapOf results) name = None).
    { unfold mapHas in Hnone.
      now destruct (mapGet (packageMapOf results) name). }
    set (a := analyzeOne now (allDepsOf body) (packageMapOf results) name).
    assert (Ha : a = unknownPackage name (prop (allDepsOf body) name)).
    { unfold a, analyzeOne. cbv zeta. now rewrite Hget. }
    assert (Hina : In a (analyzedOf body results now)).
    { unfold analyzedOf. now apply in_map. }
    eexists. eexists.
    exists {| package := a;
              allocation :=
                mapGet
                  (map (fun o => (Allocation.Out.packageName o, o))
                     (Allocation.calculateAllocation
                        (map allocationInput (analyzedOf body results now))
                        (budgetOf body)))
                  (Pkg.name a) |}.
    split; [reflexivity|]. split.
    { apply (Permutation_in _
               (Permutation_sym (Scoring.sort_perm byAmount _))).
      unfold allocatedOf. cbv zeta.
      apply in_map_iff. exists a. split; [reflexivity | exact Hina]. }
    cbn [package]. rewrite Ha. repeat split; reflexivity.
Qed.

(** Every package of an answer has a whole score between 0 and 100: the
    placeholder has 50, and a package that was found has the score of
    [calculateScore]. *)
Theorem POST_scores_are_percentages
    (body : AnalyzeRequest) (results : list PackageRow) (now : Q)
    (Haccepted : accepted body) :
  exists summary packages,
    response (POST (JsonObject body) (Some results) now)
    = Analysis summary (budgetOf body) packages /\
    forall p, In p packages ->
      exists z : Z, Pkg.sustainabilityScore (package p) = inject_Z z /\
                    (0 <= z <= 100)%Z.
Proof.
  rewrite (POST_accepted body results now Haccepted).
  eexists. eexists. split; [reflexivity|].
  intros p Hp.
  apply (Permutation_in _ (Scoring.sort_perm byAmount _)) in Hp.
  unfold allocatedOf in Hp. cbv zeta in Hp. apply in_map_iff in Hp.
  destruct Hp as (a & <- & Ha). cbn [package].
  unfold analyzedOf in Ha. apply in_map_iff in Ha.
  destruct Ha as (name & <- & _). unfold analyzeOne. cbv zeta.
  destruct (mapGet (packageMapOf results) name) as [pkg|].
  - cbn [Pkg.sustainabilityScore]. unfold Scoring.calculateScore.
    destruct (Scoring.maintainerStatus (scoringInputs now pkg))
      as [status|].
    + cbn [Scoring.score]. destruct status;
        [exists 15%Z | exists 40%Z | exists 65%Z | exists 85%Z | exists 95%Z];
        (split; [reflexivity | lia]).
    + destruct (JS.truthy_str
                  (Scoring.corporateBacking (scoringInputs now pkg))).
      * exists 95%Z. split; [reflexivity | lia].
      * cbn [Scoring.score]. apply Scoring.clamp_integer.
  - exists 50%Z. split; [reflexivity | lia].
Qed.

End Handler.

(** *** Examples *)

(** A request for three packages, one of them under both kinds of
    dependencies, and a database that knows two of them. *)
Definition sampleBody : AnalyzeRequest :=
  {| dependencies := Some [("react", "^18.0.0"); ("lodash", "^4.0.0")];
     devDependencies := Some [("lodash", "^4.17.0"); ("left-pad", "^1.3.0")];
     budget := None |}.

Definition reactRow : PackageRow :=
  Row.mkPackageRow "react" None (Some 50000000%Q) None (Some "facebook")
    None None None None None None None None None None (Some "Meta")
    (Some false) None [] [].

Definition lodashRow : PackageRow :=
  Row.mkPackageRow "lodash" (Some 0%Q) None None None None None None None
    None None None None None None None None None
    [mkPackageMaintainer (Some (mkMaintainer (Some "jdalton") None)) None
       None None] [].

Definition sampleResults : list PackageRow := [reactRow; lodashRow].

(** A day and a half after the epoch. *)
Definition sampleNow : Q := 129600000.

Definition samplePOST : Outcome :=
  POST Scoring.Sample.log10 Scoring.Sample.toLocaleString
    Scoring.Sample.toString (JsonObject sampleBody) (Some sampleResults)
    sampleNow.

Lemma sampleBody_accepted : accepted sampleBody.
Proof.
  split; [discriminate|]. split; [discriminate|]. vm_compute. lia.
Qed.

Lemma sampleBody_wellFormed : wellFormed sampleBody.
Proof.
  split; simpl; repeat (constructor; [simpl; intuition discriminate|]);
    constructor.
Qed.

Example samplePOST_answer :
  match response samplePOST with
  | Analysis summary budget packages =>
      map (fun p => (Pkg.name (package p), Pkg.found (package p),
                     Pkg.sustainabilityScore (package p),
                     Qred (amountOf p))) packages
      = [ ("lodash", true, 48%Q, 2549 # 50);
          ("left-pad", false, 50%Q, 2451 # 50);
          ("react", true, 95%Q, 0%Q) ]
      /\ budget = 100%Q /\ total summary = 3%nat
  | Failure _ _ => False
  end /\
  seeded samplePOST = ["left-pad"].
Proof. vm_compute. repeat split; reflexivity. Qed.

(** The request of the example with a budget of 0. *)
Definition zeroBudgetBody : AnalyzeRequest :=
  {| dependencies := dependencies sampleBody;
     devDependencies := devDependencies sampleBody;
     budget := Some 0%Q |}.

Lemma POST_validation_witness :
  POST Scoring.Sample.log10 Scoring.Sample.toLocaleString
    Scoring.Sample.toString JsonNull (Some sampleResults) sampleNow
  = {| response := Failure 500 "Internal server error"; seeded := [] |} /\
  POST Scoring.Sample.log10 Scoring.Sample.toLocaleString
    Scoring.Sample.toString (JsonObject sampleBody) None sampleNow
  = {| response := Failure 500 "Internal server error"; seeded := [] |} /\
  (exists summary packages,
     response samplePOST = Analysis summary 100 packages /\
     total summary = 3%nat) /\
  budgetOf zeroBudgetBody = 100%Q.
Proof.
  split; [|split; [|split]].
  - apply (proj1
      (POST_validation Scoring.Sample.log10 Scoring.Sample.toLocaleString
         Scoring.Sample.toString JsonNull (Some sampleResults) sampleNow)).
    right. reflexivity.
  - apply (proj1 (proj2
      (POST_validation Scoring.Sample.log10 Scoring.Sample.toLocaleString
         Scoring.Sample.toString (JsonObject sampleBody) None sampleNow))
      sampleBody eq_refl);
      [exact sampleBody_accepted | reflexivity].
  - destruct (proj2 (proj2 (proj2 (proj2 (proj1 (proj2
      (POST_validation Scoring.Sample.log10 Scoring.Sample.toLocaleString
         Scoring.Sample.toString (JsonObject sampleBody)
         (Some sampleResults) sampleNow)) sampleBody eq_refl))))
      sampleBody_accepted sampleResults eq_refl)
      as (summary & packages & Hresp & _ & _ & _ & _ & Htotal & _).
    exists summary, packages. split; [exact Hresp | exact Htotal].
  - destruct (proj2 (proj2 (proj2 (proj2 (proj1 (proj2
      (POST_validation Scoring.Sample.log10 Scoring.Sample.toLocaleString
         Scoring.Sample.toString (JsonObject zeroBudgetBody)
         (Some sampleResults) sampleNow)) zeroBudgetBody eq_refl))))
      sampleBody_accepted sampleResults eq_refl)
      as (summary & packages & _ & _ & _ & Hzero & _).
    apply (Hzero 0%Q); reflexivity.
Defined.

Lemma POST_sorted_by_amount_witness :
  exists summary packages,
    response samplePOST = Analysis summary 100 packages /\
    StronglySorted (fun a b => amountOf b <= amountOf a)%Q packages.
Proof.
  destruct (POST_sorted_by_amount Scoring.Sample.log10
    Scoring.Sample.toLocaleString Scoring.Sample.toString sampleBody
    sampleResults sampleNow sampleBody_accepted)
    as (summary & packages & Hresp & _ & Hsorted).
  exists summary, packages. split; [exact Hresp | exact Hsorted].
Defined.

Lemma POST_own_allocation_witness :
  exists summary packages,
    response samplePOST = Analysis summary 100 packages /\
    forall p, In p packages -> allocation p <> None.
Proof.
  destruct (POST_own_allocation Scoring.Sample.log10
    Scoring.Sample.toLocaleString Scoring.Sample.toString sampleBody
    sampleResults sampleNow sampleBody_accepted sampleBody_wellFormed)
    as (summary & packages & Hresp & Hown).
  exists summary, packages. split; [exact Hresp|].
  intros p Hp. rewrite (Hown p Hp). discriminate.
Defined.

Lemma POST_unknown_package_witness :
  In "left-pad" (seeded samplePOST).
Proof.
  apply (proj1 (POST_unknown_package Scoring.Sample.log10
    Scoring.Sample.toLocaleString Scoring.Sample.toString sampleBody
    sampleResults sampleNow sampleBody_accepted)).
  split.
  - vm_compute. tauto.
  - intros row [<-|[<-|[]]]; discriminate.
Defined.

Lemma POST_scores_are_percentages_witness :
  exists summary packages,
    response samplePOST = Analysis summary 100 packages /\
    forall p, In p packages ->
      exists z : Z, Pkg.sustainabilityScore (package p) = inject_Z z /\
                    (0 <= z <= 100)%Z.
Proof.
  exact (POST_scores_are_percentages Scoring.Sample.log10
    Scoring.Sample.toLocaleString Scoring.Sample.toString sampleBody
    sampleResults sampleNow sampleBody_accepted).
Defined.

End Analyze.
